(** * The RPC reactor: task queue, shutdown protocol and connection tables

    A shallow embedding of [src/rpc/reactor.cc].  The file has two parts:

    - the loop-confined half ([ReactorThread]): the connection tables and
      the functions that run on the loop thread;
    - the foreign-thread half ([Reactor]): the closing flag, the pending
      queue, and the interleavings of [ScheduleReactorTask], [Shutdown]
      and [AsyncHandler] at the granularity of the reactor lock. *)

From Stdlib Require Import ZArith String List Bool Lia.
From stdpp Require Import gmap strings list fin_maps.

Local Open Scope Z_scope.

(** ** Status values *)

Module Status.

(** Modelled from the spec: [util/status.h] is not part of the sources.
    Only the kinds of error the reactor builds or tests are listed, with
    a few of the others a collaborator may hand back. *)
Inductive Code :=
  | kOk | kIOError | kRuntimeError | kNetworkError | kIllegalState
  | kAborted | kServiceUnavailable | kTimedOut.

#[global] Instance Code_eq_dec : EqDecision Code.
Proof. solve_decision. Defined.

Record t := mk { code : Code; message : string; posix_code : Z }.

#[global] Instance t_eq_dec : EqDecision t.
Proof. solve_decision. Defined.

(** Modelled from the spec: the constructor
    [Status(code, msg, msg2, posix_code)] of the absent [util/status.cc];
    the two message parts are joined by a colon when the second is not
    empty. *)
Definition make (c : Code) (msg msg2 : string) (posix : Z) : t :=
  mk c (if decide (msg2 = "") then msg else msg +:+ ": " +:+ msg2) posix.

Definition OK : t := mk kOk "" (-1).
Definition ServiceUnavailable (msg msg2 : string) (posix : Z) : t :=
  make kServiceUnavailable msg msg2 posix.
Definition NetworkError (msg : string) : t := make kNetworkError msg "" (-1).
Definition IllegalState (msg : string) : t := make kIllegalState msg "" (-1).

Definition ok (s : t) : bool := bool_decide (code s = kOk).
Definition IsIllegalState (s : t) : bool := bool_decide (code s = kIllegalState).
Definition IsServiceUnavailable (s : t) : bool :=
  bool_decide (code s = kServiceUnavailable).

(** Modelled from the spec: [CloneAndPrepend(msg)], behind the macro
    [RETURN_NOT_OK_PREPEND]; same code and errno, the message prefixed. *)
Definition CloneAndPrepend (s : t) (msg : string) : t :=
  make (code s) msg (message s) (posix_code s).

End Status.

Abbreviation Status := Status.t.

(** [errno] values, as on Linux. *)
Definition ESHUTDOWN : Z := 108.
Definition EINPROGRESS : Z := 115.

(** [ShutdownError()] of the anonymous namespace. *)
Definition ShutdownError : Status :=
  Status.ServiceUnavailable "reactor is shutting down" "" ESHUTDOWN.

(** ** Time *)

(** Modelled from the spec: [util/monotime.h] is not part of the sources.
    Points in time and durations are counts of nanoseconds; the spec
    gives the idle test as [now - last_activity > keepalive]. *)
Definition MonoTime : Type := Z.
Definition MonoDelta : Type := Z.

Module MonoDeltaOps.

Definition FromMilliseconds (ms : Z) : MonoDelta := ms * 1000000.
Definition ToNanoseconds (d : MonoDelta) : Z := d.

(** Modelled from the spec: [MonoDelta::MoreThan], strictly greater. *)
Definition MoreThan (d rhs : MonoDelta) : bool := rhs <? d.

End MonoDeltaOps.

Module MonoTimeOps.

Definition AddDelta (t : MonoTime) (d : MonoDelta) : MonoTime := t + d.

(** Modelled from the spec: [MonoTime::GetDeltaSince], the difference. *)
Definition GetDeltaSince (t rhs : MonoTime) : MonoDelta := t - rhs.

End MonoTimeOps.

(** ** Connections and their identity *)

Inductive Direction := CLIENT | SERVER.

#[global] Instance Direction_eq_dec : EqDecision Direction.
Proof. solve_decision. Defined.

(** A remote socket address: (IPv4 address, port). *)
Definition Sockaddr : Type := (N * N)%type.
Definition UserCredentials : Type := string.

(** [ConnectionId]: remote address, service name, user credentials;
    equality and hashing use all three. *)
Definition ConnectionId : Type := (Sockaddr * string * UserCredentials)%type.

#[global] Instance ConnectionId_eq_dec : EqDecision ConnectionId.
Proof. unfold ConnectionId, UserCredentials, Sockaddr. apply _. Defined.
#[global] Instance ConnectionId_countable : Countable ConnectionId.
Proof. unfold ConnectionId, UserCredentials, Sockaddr. apply _. Defined.

Definition mkConnectionId (r : Sockaddr) (svc : string) (u : UserCredentials)
  : ConnectionId := (r, svc, u).
Definition cid_remote (c : ConnectionId) : Sockaddr := c.1.1.
Definition cid_service_name (c : ConnectionId) : string := c.1.2.
Definition cid_user_credentials (c : ConnectionId) : UserCredentials := c.2.

(** An outbound call, as far as the reactor reads it. *)
Record OutboundCall := {
  call_tag : nat;                  (* identity of the call object *)
  call_method : string;
  call_conn_id : ConnectionId;
  call_timeout : MonoDelta         (* controller()->timeout() *)
}.

#[global] Instance OutboundCall_eq_dec : EqDecision OutboundCall.
Proof. unfold EqDecision, MonoDelta. solve_decision. Defined.

(** Modelled from the spec: [rpc/connection.h] is not part of the sources.
    The record holds what the reactor reads from or does to a Connection:
    [idle_] is what [Idle()] reports, [shutdown_status_] the status of the
    last [Shutdown], [outbound_calls_] the calls handed over by
    [QueueOutboundCall]. *)
Record Connection := {
  direction_ : Direction;
  remote_ : Sockaddr;
  socket_ : Z;
  service_name_ : string;
  user_credentials_ : UserCredentials;
  idle_ : bool;
  last_activity_time_ : MonoTime;
  shutdown_status_ : option Status;
  outbound_calls_ : list OutboundCall
}.

Module ConnectionOps.

(** Modelled from the spec: [new Connection(thread, remote, fd, direction)],
    created at [now] with nothing queued. *)
Definition new (remote : Sockaddr) (fd : Z) (d : Direction) (now : MonoTime)
  : Connection :=
  {| direction_ := d; remote_ := remote; socket_ := fd;
     service_name_ := ""; user_credentials_ := "";
     idle_ := true; last_activity_time_ := now;
     shutdown_status_ := None; outbound_calls_ := [] |}.

Definition set_service_name (c : Connection) (n : string) : Connection :=
  {| direction_ := direction_ c; remote_ := remote_ c; socket_ := socket_ c;
     service_name_ := n; user_credentials_ := user_credentials_ c;
     idle_ := idle_ c; last_activity_time_ := last_activity_time_ c;
     shutdown_status_ := shutdown_status_ c;
     outbound_calls_ := outbound_calls_ c |}.

Definition set_user_credentials (c : Connection) (u : UserCredentials)
  : Connection :=
  {| direction_ := direction_ c; remote_ := remote_ c; socket_ := socket_ c;
     service_name_ := service_name_ c; user_credentials_ := u;
     idle_ := idle_ c; last_activity_time_ := last_activity_time_ c;
     shutdown_status_ := shutdown_status_ c;
     outbound_calls_ := outbound_calls_ c |}.

(** Modelled from the spec: [Connection::Shutdown(status)]; the
    connection enters its terminal state and remembers the status.  What
    the reactor reads afterwards (direction, identity, idleness, last
    activity) is as before. *)
Definition Shutdown (c : Connection) (st : Status) : Connection :=
  {| direction_ := direction_ c; remote_ := remote_ c; socket_ := socket_ c;
     service_name_ := service_name_ c;
     user_credentials_ := user_credentials_ c;
     idle_ := idle_ c; last_activity_time_ := last_activity_time_ c;
     shutdown_status_ := Some st;
     outbound_calls_ := outbound_calls_ c |}.

(** Modelled from the spec: [Connection::QueueOutboundCall(call)]. *)
Definition QueueOutboundCall (c : Connection) (call : OutboundCall)
  : Connection :=
  {| direction_ := direction_ c; remote_ := remote_ c; socket_ := socket_ c;
     service_name_ := service_name_ c;
     user_credentials_ := user_credentials_ c;
     idle_ := idle_ c; last_activity_time_ := last_activity_time_ c;
     shutdown_status_ := shutdown_status_ c;
     outbound_calls_ := outbound_calls_ c ++ [call] |}.

End ConnectionOps.

(** ** The loop-confined state *)

(** A [shared_ptr<Connection>] is an address into the store of connection
    objects; two pointers alias when they are equal. *)
Definition ConnPtr : Type := nat.
Definition Heap : Type := ConnPtr -> Connection.

Definition heap_set (h : Heap) (p : ConnPtr) (c : Connection) : Heap :=
  fun q => if decide (q = p) then c else h q.

(** Calls the loop makes on its collaborators, in program order. *)
Inductive Effect :=
| LogWarning (what : string)
| LogError (what : string)
| SocketInit
| SocketSetNoDelay
| SocketConnect (remote : Sockaddr)
| SubmitNegotiation (conn : ConnPtr) (d : Direction) (deadline : MonoTime)
| CallSetFailed (call : OutboundCall) (st : Status).

Record ReactorThread := {
  cur_time_ : MonoTime;
  connection_keepalive_time_ : MonoDelta;
  client_conns_ : gmap ConnectionId ConnPtr;
  server_conns_ : list ConnPtr;
  heap : Heap;
  next_conn : ConnPtr;             (* the next address [new] hands out *)
  effects : list Effect
}.

Definition with_cur_time (t : MonoTime) (rt : ReactorThread) : ReactorThread :=
  {| cur_time_ := t;
     connection_keepalive_time_ := connection_keepalive_time_ rt;
     client_conns_ := client_conns_ rt; server_conns_ := server_conns_ rt;
     heap := heap rt; next_conn := next_conn rt; effects := effects rt |}.

Definition with_client_conns (m : gmap ConnectionId ConnPtr) (rt : ReactorThread)
  : ReactorThread :=
  {| cur_time_ := cur_time_ rt;
     connection_keepalive_time_ := connection_keepalive_time_ rt;
     client_conns_ := m; server_conns_ := server_conns_ rt;
     heap := heap rt; next_conn := next_conn rt; effects := effects rt |}.

Definition with_server_conns (l : list ConnPtr) (rt : ReactorThread)
  : ReactorThread :=
  {| cur_time_ := cur_time_ rt;
     connection_keepalive_time_ := connection_keepalive_time_ rt;
     client_conns_ := client_conns_ rt; server_conns_ := l;
     heap := heap rt; next_conn := next_conn rt; effects := effects rt |}.

Definition with_heap (h : Heap) (rt : ReactorThread) : ReactorThread :=
  {| cur_time_ := cur_time_ rt;
     connection_keepalive_time_ := connection_keepalive_time_ rt;
     client_conns_ := client_conns_ rt; server_conns_ := server_conns_ rt;
     heap := h; next_conn := next_conn rt; effects := effects rt |}.

Definition with_next_conn (n : ConnPtr) (rt : ReactorThread) : ReactorThread :=
  {| cur_time_ := cur_time_ rt;
     connection_keepalive_time_ := connection_keepalive_time_ rt;
     client_conns_ := client_conns_ rt; server_conns_ := server_conns_ rt;
     heap := heap rt; next_conn := n; effects := effects rt |}.

Definition with_effects (e : list Effect) (rt : ReactorThread) : ReactorThread :=
  {| cur_time_ := cur_time_ rt;
     connection_keepalive_time_ := connection_keepalive_time_ rt;
     client_conns_ := client_conns_ rt; server_conns_ := server_conns_ rt;
     heap := heap rt; next_conn := next_conn rt; effects := e |}.

(** What the world outside the loop answers during one handler call, and
    the library code that is not part of the sources. *)
Record Env := {
  now_fine : MonoTime;                   (* MonoTime::Now(FINE) *)
  now_coarse : MonoTime;                 (* MonoTime::Now(COARSE) *)
  MonoTime_Max : MonoTime;               (* MonoTime::Max() *)
  MonoDelta_ToString : MonoDelta -> string;
  IsTemporarySocketError : Z -> bool;
  FLAGS_server_negotiation_timeout : Z;
  sock_Init : Status;                    (* Socket::Init(FLAG_NONBLOCKING) *)
  sock_SetNoDelay : Status;              (* Socket::SetNoDelay(true) *)
  sock_Connect : Status;                 (* Socket::Connect(remote) *)
  sock_Release : Z;                      (* the fd given up by the Socket *)
  SubmitFutureTask : Status              (* negotiation_executor()->Submit... *)
}.

(** ** A state monad with a fatal outcome

    A handler either returns with a new loop state or dies in a [CHECK]. *)
Inductive Res (A : Type) :=
| Ok (a : A) (rt : ReactorThread)
| CheckFailed (msg : string).
Arguments Ok {A} a rt.
Arguments CheckFailed {A} msg.

Definition M (A : Type) : Type := ReactorThread -> Res A.

Definition ret {A} (a : A) : M A := fun rt => Ok a rt.
Definition bind {A B} (m : M A) (k : A -> M B) : M B :=
  fun rt => match m rt with
            | Ok a rt' => k a rt'
            | CheckFailed msg => CheckFailed msg
            end.
Definition get : M ReactorThread := fun rt => Ok rt rt.
Definition modify (f : ReactorThread -> ReactorThread) : M unit :=
  fun rt => Ok tt (f rt).
Definition emit (e : Effect) : M unit :=
  modify (fun rt => with_effects (effects rt ++ [e]) rt).
Definition CHECK (b : bool) (msg : string) : M unit :=
  fun rt => if b then Ok tt rt else CheckFailed msg.
Definition when (b : bool) (m : M unit) : M unit := if b then m else ret tt.

Notation "x <- m ;; k" := (bind m (fun x => k))
  (at level 60, m at next level, right associativity).
Notation "m ;;; k" := (bind m (fun _ => k))
  (at level 60, right associativity).

(** Reads and writes through a connection pointer. *)
Definition deref (p : ConnPtr) : M Connection :=
  rt <- get ;; ret (heap rt p).
Definition update (p : ConnPtr) (f : Connection -> Connection) : M unit :=
  modify (fun rt => with_heap (heap_set (heap rt) p (f (heap rt p))) rt).
Definition alloc (c : Connection) : M ConnPtr :=
  rt <- get ;;
  modify (fun rt => with_next_conn (S (next_conn rt))
                      (with_heap (heap_set (heap rt) (next_conn rt) c) rt)) ;;;
  ret (next_conn rt).

(** ** Handlers of the loop thread *)

(** [conn_map_t::insert]: an existing key keeps its value. *)
Definition conn_map_insert (k : ConnectionId) (p : ConnPtr)
    (m : gmap ConnectionId ConnPtr) : gmap ConnectionId ConnPtr :=
  match m !! k with
  | Some _ => m
  | None => <[k := p]> m
  end.

(** [ReactorThread::ShutdownInternal]: every client connection is shut
    down and erased, every server connection is shut down, the list is
    cleared. *)
Definition ShutdownInternal : M unit :=
  rt <- get ;;
  modify (fun rt =>
    with_heap (foldl (fun h p => heap_set h p (ConnectionOps.Shutdown (h p) ShutdownError))
                     (heap rt) ((map_to_list (client_conns_ rt)).*2)) rt) ;;;
  modify (with_client_conns ∅) ;;;
  modify (fun rt =>
    with_heap (foldl (fun h p => heap_set h p (ConnectionOps.Shutdown (h p) ShutdownError))
                     (heap rt) (server_conns_ rt)) rt) ;;;
  modify (with_server_conns []).

(** [ReactorThread::GetMetricsInternal]: the two connection counts. *)
Definition GetMetricsInternal : M (nat * nat) :=
  rt <- get ;; ret (size (client_conns_ rt), length (server_conns_ rt)).

(** [ReactorThread::StartConnectionNegotiation]: both directions submit a
    negotiation task to the executor and return the submission's error,
    or OK. *)
Definition StartConnectionNegotiation (env : Env) (conn : ConnPtr)
    (deadline : MonoTime) : M Status :=
  c <- deref conn ;;
  emit (SubmitNegotiation conn (direction_ c) deadline) ;;;
  if negb (Status.ok (SubmitFutureTask env)) then ret (SubmitFutureTask env)
  else ret Status.OK.

(** [server_conns_.erase] of the first element that is [conn], by pointer
    identity. *)
Fixpoint erase_first (conn : ConnPtr) (l : list ConnPtr) : list ConnPtr :=
  match l with
  | [] => []
  | p :: rest => if decide (p = conn) then rest else p :: erase_first conn rest
  end.

(** [ReactorThread::DestroyConnection]. *)
Definition DestroyConnection (conn : ConnPtr) (conn_status : Status) : M unit :=
  update conn (fun c => ConnectionOps.Shutdown c conn_status) ;;;
  c <- deref conn ;;
  match direction_ c with
  | CLIENT =>
      let conn_id :=
        mkConnectionId (remote_ c) (service_name_ c) (user_credentials_ c) in
      rt <- get ;;
      CHECK (bool_decide (is_Some (client_conns_ rt !! conn_id)))
            "Couldn't find connection" ;;;
      modify (fun rt => with_client_conns (delete conn_id (client_conns_ rt)) rt)
  | SERVER =>
      modify (fun rt => with_server_conns (erase_first conn (server_conns_ rt)) rt)
  end.

(** [ReactorThread::RegisterConnection]. *)
Definition RegisterConnection (env : Env) (conn : ConnPtr) : M unit :=
  let deadline :=
    MonoTimeOps.AddDelta (now_fine env)
      (MonoDeltaOps.FromMilliseconds (FLAGS_server_negotiation_timeout env)) in
  s <- StartConnectionNegotiation env conn deadline ;;
  when (negb (Status.ok s))
       (emit (LogError "Server connection negotiation failed") ;;;
        DestroyConnection conn s) ;;;
  modify (fun rt => with_server_conns (server_conns_ rt ++ [conn]) rt).

(** [ReactorThread::CreateClientSocket]. *)
Definition CreateClientSocket (env : Env) : M Status :=
  emit SocketInit ;;;
  ret_ <- (if Status.ok (sock_Init env)
           then emit SocketSetNoDelay ;;; ret (sock_SetNoDelay env)
           else ret (sock_Init env)) ;;
  when (negb (Status.ok ret_))
       (emit (LogWarning "failed to create an outbound connection because a new socket could not be created")) ;;;
  ret ret_.

(** [ReactorThread::StartConnect]; the second component is [*in_progress],
    left unset on the error path. *)
Definition StartConnect (env : Env) (remote : Sockaddr)
  : M (Status * option bool) :=
  emit (SocketConnect remote) ;;;
  let ret_ := sock_Connect env in
  if Status.ok ret_ then ret (ret_, Some false)
  else
    let posix_code := Status.posix_code ret_ in
    if IsTemporarySocketError env posix_code || (posix_code =? EINPROGRESS)
    then ret (Status.OK, Some true)
    else emit (LogWarning "failed to create an outbound connection because connect failed") ;;;
         ret (ret_, None).

(** [ReactorThread::FindOrStartConnection]; the second component is the
    out-parameter [*conn], null on entry. *)
Definition FindOrStartConnection (env : Env) (conn_id : ConnectionId)
    (deadline : MonoTime) : M (Status * option ConnPtr) :=
  rt <- get ;;
  match client_conns_ rt !! conn_id with
  | Some c => ret (Status.OK, Some c)
  | None =>
      s <- CreateClientSocket env ;;
      if negb (Status.ok s) then ret (s, None) else
      sc <- StartConnect env (cid_remote conn_id) ;;
      let s := sc.1 in
      let connect_in_progress := sc.2 in
      if negb (Status.ok s) then ret (s, None) else
      conn <- alloc (ConnectionOps.new (cid_remote conn_id) (sock_Release env)
                                       CLIENT (now_coarse env)) ;;
      update conn (fun c => ConnectionOps.set_service_name c (cid_service_name conn_id)) ;;;
      update conn (fun c => ConnectionOps.set_user_credentials c
                              (cid_user_credentials conn_id)) ;;;
      s <- StartConnectionNegotiation env conn deadline ;;
      if Status.IsIllegalState s
      then ret (Status.ServiceUnavailable "Client RPC Messenger shutting down" "" (-1),
                Some conn)
      else if negb (Status.ok s)
      then ret (Status.CloneAndPrepend s "Unable to start connection negotiation thread",
                Some conn)
      else
        modify (fun rt => with_client_conns
                            (conn_map_insert conn_id conn (client_conns_ rt)) rt) ;;;
        ret (Status.OK, Some conn)
  end.

(** The local [deadline] of [AssignOutboundCall]; the warning is logged on
    the zero-timeout branch. *)
Definition call_deadline (env : Env) (call : OutboundCall) : M MonoTime :=
  let timeout := call_timeout call in
  if MonoDeltaOps.ToNanoseconds timeout =? 0
  then emit (LogWarning ("Client call " +:+ call_method call +:+
                         " has no timeout set for connection id")) ;;;
       ret (MonoTime_Max env)
  else ret (MonoTimeOps.AddDelta (now_fine env) timeout).

(** [ReactorThread::AssignOutboundCall]. *)
Definition AssignOutboundCall (env : Env) (call : OutboundCall) : M unit :=
  deadline <- call_deadline env call ;;
  found <- FindOrStartConnection env (call_conn_id call) deadline ;;
  let s := found.1 in
  let conn := found.2 in
  if negb (Status.ok s) then emit (CallSetFailed call s)
  else match conn with
       | Some conn => update conn (fun c => ConnectionOps.QueueOutboundCall c call)
       | None => ret tt   (* OK is never returned with a null connection *)
       end.

(** The status [ScanIdleConnections] shuts a timed-out connection with. *)
Definition timed_out_error (env : Env) (keepalive : MonoDelta) : Status :=
  Status.NetworkError ("connection timed out after " +:+
                       MonoDelta_ToString env keepalive +:+ " seconds").

(** The loop of [ScanIdleConnections] from iterator position [l] on:
    returns what is left of the list from there and the [uint64_t]
    counter [timed_out]. *)
Fixpoint scan_from (env : Env) (l : list ConnPtr) (timed_out : Z)
  : M (list ConnPtr * Z) :=
  match l with
  | [] => ret ([], timed_out)
  | c :: rest =>
      conn <- deref c ;;
      if negb (idle_ conn)
      then r <- scan_from env rest timed_out ;; ret (c :: r.1, r.2)
      else
        rt <- get ;;
        let connection_delta :=
          MonoTimeOps.GetDeltaSince (cur_time_ rt) (last_activity_time_ conn) in
        if MonoDeltaOps.MoreThan connection_delta (connection_keepalive_time_ rt)
        then
          update c (fun conn => ConnectionOps.Shutdown conn
                      (timed_out_error env (connection_keepalive_time_ rt))) ;;;
          scan_from env rest ((timed_out + 1) mod 2 ^ 64)
        else r <- scan_from env rest timed_out ;; ret (c :: r.1, r.2)
  end.

(** [ReactorThread::ScanIdleConnections]. *)
Definition ScanIdleConnections (env : Env) : M unit :=
  rt <- get ;;
  r <- scan_from env (server_conns_ rt) 0 ;;
  modify (with_server_conns r.1).

(** libev's [EV_ERROR]. *)
Definition EV_ERROR : Z := 0x80000000.

(** [ReactorThread::TimerHandler]. *)
Definition TimerHandler (env : Env) (revents : Z) : M unit :=
  if negb (Z.land EV_ERROR revents =? 0)
  then emit (LogWarning "Reactor got an error in the timer handler.")
  else modify (with_cur_time (now_coarse env)) ;;; ScanIdleConnections env.

(** ** The foreign-thread half *)

(** A [ReactorTask*]; its two entry points are virtual, so the reactor's
    calls on them are recorded rather than interpreted. *)
Definition TaskPtr : Type := nat.

Inductive Action :=
| Run (t : TaskPtr)                     (* task.Run(loop thread) *)
| Abort (t : TaskPtr) (st : Status)     (* task.Abort(st) *)
| AsyncSend                             (* async_.send() *)
| BreakLoop.                            (* loop_.break_loop() *)

#[global] Instance Action_eq_dec : EqDecision Action.
Proof. solve_decision. Defined.

(** The state guarded by [Reactor::lock_]. *)
Record Reactor := {
  closing_ : bool;
  pending_tasks_ : list TaskPtr
}.

Definition closing (r : Reactor) : bool := closing_ r.

(** [ReactorThread::WakeThread]. *)
Definition WakeThread : list Action := [AsyncSend].

(** [ReactorThread::Shutdown]: fatal unless the closing flag is set. *)
Definition ReactorThread_Shutdown (r : Reactor) : option (list Action) :=
  if closing r then Some WakeThread else None.

(** [Reactor::ScheduleReactorTask]. *)
Definition ScheduleReactorTask (r : Reactor) (task : TaskPtr)
  : Reactor * list Action :=
  if closing_ r then (r, [Abort task ShutdownError])
  else ({| closing_ := closing_ r;
           pending_tasks_ := pending_tasks_ r ++ [task] |}, WakeThread).

(** [Reactor::DrainTaskQueue]: [tasks->swap(pending_tasks_)] unless
    closing; returns the flag, the reactor and [*tasks]. *)
Definition DrainTaskQueue (r : Reactor) (tasks : list TaskPtr)
  : bool * Reactor * list TaskPtr :=
  if closing_ r then (false, r, tasks)
  else (true, {| closing_ := closing_ r; pending_tasks_ := tasks |},
        pending_tasks_ r).

(** The drain loop at the end of [Reactor::Shutdown]. *)
Fixpoint abort_pending (pending : list TaskPtr) : list Action :=
  match pending with
  | [] => []
  | task :: rest => Abort task ShutdownError :: abort_pending rest
  end.

(** [Reactor::Shutdown]; [None] is the fatal [CHECK] of
    [ReactorThread::Shutdown]. *)
Definition Reactor_Shutdown (r : Reactor) : option (Reactor * list Action) :=
  if closing_ r then Some (r, [])
  else
    let r := {| closing_ := true; pending_tasks_ := pending_tasks_ r |} in
    match ReactorThread_Shutdown r with
    | None => None
    | Some woke =>
        Some ({| closing_ := closing_ r; pending_tasks_ := [] |},
              woke ++ abort_pending (pending_tasks_ r))
    end.

(** The [while (!tasks.empty())] loop of [AsyncHandler]. *)
Fixpoint run_tasks (tasks : list TaskPtr) : list Action :=
  match tasks with
  | [] => []
  | task :: rest => Run task :: run_tasks rest
  end.

(** [ReactorThread::AsyncHandler], run to completion on the loop thread. *)
Definition AsyncHandler (r : Reactor) : M (Reactor * list Action) :=
  if closing r then ShutdownInternal ;;; ret (r, [BreakLoop])
  else
    let drained := DrainTaskQueue r [] in
    ret (drained.1.2, run_tasks drained.2).

(** ** The reactor under interleaving

    Foreign threads and the loop thread interleave at the boundaries of
    the regions guarded by [Reactor::lock_]; everything a thread does
    between two such boundaries is one step.  The loop thread is at one
    place of [AsyncHandler]; one thread at most is past the locked region
    of [Shutdown]; any number of threads may be inside
    [ScheduleReactorTask], between the locked region and the call that
    follows it. *)

Local Open Scope nat_scope.

Inductive LoopPc :=
| LoopWaiting                          (* in loop_.run(), no handler active *)
| LoopEntered                          (* closing() read false, before DrainTaskQueue *)
| LoopRunning (tasks : list TaskPtr)   (* in the while loop; [tasks] is the local list *)
| LoopExited.                          (* after break_loop() *)

Inductive ShutdownPc :=
| SdNotCalled
| SdFlagSet                            (* closing_ set, before thread_.Shutdown() *)
| SdDraining                           (* in the drain loop *)
| SdReturned.

#[global] Instance LoopPc_eq_dec : EqDecision LoopPc.
Proof. solve_decision. Defined.
#[global] Instance ShutdownPc_eq_dec : EqDecision ShutdownPc.
Proof. solve_decision. Defined.

Record Sys := {
  reactor : Reactor;
  async_pending : bool;          (* async_ has been sent and not yet handled *)
  loop_pc : LoopPc;
  shutdown_pc : ShutdownPc;
  to_abort : list TaskPtr;       (* ScheduleReactorTask saw closing_, Abort not yet called *)
  to_wake : nat;                 (* ScheduleReactorTask enqueued, WakeThread not yet called *)
  scheduled : list TaskPtr;      (* every argument of ScheduleReactorTask so far *)
  history : list Action          (* what has been done so far, oldest first *)
}.

Definition init : Sys :=
  {| reactor := {| closing_ := false; pending_tasks_ := [] |};
     async_pending := false; loop_pc := LoopWaiting; shutdown_pc := SdNotCalled;
     to_abort := []; to_wake := 0; scheduled := []; history := [] |}.

Definition local_tasks (pc : LoopPc) : list TaskPtr :=
  match pc with
  | LoopRunning tasks => tasks
  | _ => []
  end.

(** The caller holding [t] leaves the callers about to abort. *)
Fixpoint remove_caller (t : TaskPtr) (l : list TaskPtr) : list TaskPtr :=
  match l with
  | [] => []
  | t' :: rest => if decide (t' = t) then rest else t' :: remove_caller t rest
  end.

Inductive Step :=
| CallSchedule (t : TaskPtr)    (* the locked region of ScheduleReactorTask(t) *)
| ScheduleAbort (t : TaskPtr)   (* ... then task->Abort(ShutdownError()) *)
| ScheduleWake                  (* ... or thread_.WakeThread() *)
| AsyncBegin                    (* AsyncHandler is invoked and reads closing() *)
| AsyncDrain                    (* DrainTaskQueue(&tasks) *)
| AsyncRun                      (* one turn of the while loop *)
| AsyncReturn                   (* the list is empty, the handler returns *)
| CallShutdown                  (* the locked region of Shutdown() *)
| ShutdownWake                  (* thread_.Shutdown() *)
| ShutdownAbort                 (* one turn of the drain loop *)
| ShutdownReturn.               (* pending_tasks_ is empty, Shutdown returns *)

(** What a caller of [ScheduleReactorTask] still has to do once it has
    left the locked region, read off the actions the function takes: the
    tasks it aborts and the number of times it sends [async_]. *)
Fixpoint aborts_in (acts : list Action) : list TaskPtr :=
  match acts with
  | [] => []
  | Abort t _ :: rest => t :: aborts_in rest
  | _ :: rest => aborts_in rest
  end.

Fixpoint sends_in (acts : list Action) : nat :=
  match acts with
  | [] => 0
  | AsyncSend :: rest => S (sends_in rest)
  | _ :: rest => sends_in rest
  end.

Definition step_fn (st : Step) (s : Sys) : option Sys :=
  match st with
  | CallSchedule t =>
      let sched := ScheduleReactorTask (reactor s) t in
      Some {| reactor := sched.1;
              async_pending := async_pending s; loop_pc := loop_pc s;
              shutdown_pc := shutdown_pc s;
              to_abort := to_abort s ++ aborts_in sched.2;
              to_wake := sends_in sched.2 + to_wake s;
              scheduled := scheduled s ++ [t]; history := history s |}
  | ScheduleAbort t =>
      if bool_decide (t ∈ to_abort s)
      then Some {| reactor := reactor s;
                   async_pending := async_pending s; loop_pc := loop_pc s;
                   shutdown_pc := shutdown_pc s;
                   to_abort := remove_caller t (to_abort s); to_wake := to_wake s;
                   scheduled := scheduled s;
                   history := history s ++ [Abort t ShutdownError] |}
      else None
  | ScheduleWake =>
      match to_wake s with
      | 0 => None
      | S n => Some {| reactor := reactor s;
                       async_pending := true; loop_pc := loop_pc s;
                       shutdown_pc := shutdown_pc s;
                       to_abort := to_abort s; to_wake := n;
                       scheduled := scheduled s;
                       history := history s ++ WakeThread |}
      end
  | AsyncBegin =>
      match loop_pc s, async_pending s with
      | LoopWaiting, true =>
          Some {| reactor := reactor s; async_pending := false;
                  loop_pc := if closing (reactor s) then LoopExited else LoopEntered;
                  shutdown_pc := shutdown_pc s;
                  to_abort := to_abort s; to_wake := to_wake s;
                  scheduled := scheduled s;
                  history := if closing (reactor s) then history s ++ [BreakLoop]
                             else history s |}
      | _, _ => None
      end
  | AsyncDrain =>
      match loop_pc s with
      | LoopEntered =>
          let drained := DrainTaskQueue (reactor s) [] in
          Some {| reactor := drained.1.2; async_pending := async_pending s;
                  loop_pc := LoopRunning drained.2;
                  shutdown_pc := shutdown_pc s;
                  to_abort := to_abort s; to_wake := to_wake s;
                  scheduled := scheduled s; history := history s |}
      | _ => None
      end
  | AsyncRun =>
      match loop_pc s with
      | LoopRunning (task :: tasks) =>
          Some {| reactor := reactor s; async_pending := async_pending s;
                  loop_pc := LoopRunning tasks;
                  shutdown_pc := shutdown_pc s;
                  to_abort := to_abort s; to_wake := to_wake s;
                  scheduled := scheduled s;
                  history := history s ++ [Run task] |}
      | _ => None
      end
  | AsyncReturn =>
      match loop_pc s with
      | LoopRunning [] =>
          Some {| reactor := reactor s; async_pending := async_pending s;
                  loop_pc := LoopWaiting;
                  shutdown_pc := shutdown_pc s;
                  to_abort := to_abort s; to_wake := to_wake s;
                  scheduled := scheduled s; history := history s |}
      | _ => None
      end
  | CallShutdown =>
      if closing_ (reactor s) then Some s
      else Some {| reactor := {| closing_ := true;
                                 pending_tasks_ := pending_tasks_ (reactor s) |};
                   async_pending := async_pending s; loop_pc := loop_pc s;
                   shutdown_pc := SdFlagSet;
                   to_abort := to_abort s; to_wake := to_wake s;
                   scheduled := scheduled s; history := history s |}
  | ShutdownWake =>
      match shutdown_pc s, ReactorThread_Shutdown (reactor s) with
      | SdFlagSet, Some woke =>
          Some {| reactor := reactor s; async_pending := true;
                  loop_pc := loop_pc s; shutdown_pc := SdDraining;
                  to_abort := to_abort s; to_wake := to_wake s;
                  scheduled := scheduled s; history := history s ++ woke |}
      | _, _ => None
      end
  | ShutdownAbort =>
      match shutdown_pc s, pending_tasks_ (reactor s) with
      | SdDraining, task :: rest =>
          Some {| reactor := {| closing_ := closing_ (reactor s);
                                pending_tasks_ := rest |};
                  async_pending := async_pending s; loop_pc := loop_pc s;
                  shutdown_pc := SdDraining;
                  to_abort := to_abort s; to_wake := to_wake s;
                  scheduled := scheduled s;
                  history := history s ++ [Abort task ShutdownError] |}
      | _, _ => None
      end
  | ShutdownReturn =>
      match shutdown_pc s, pending_tasks_ (reactor s) with
      | SdDraining, [] =>
          Some {| reactor := reactor s; async_pending := async_pending s;
                  loop_pc := loop_pc s; shutdown_pc := SdReturned;
                  to_abort := to_abort s; to_wake := to_wake s;
                  scheduled := scheduled s; history := history s |}
      | _, _ => None
      end
  end.

(** A schedule is a list of steps, run from left to right. *)
Fixpoint run (steps : list Step) (s : Sys) : option Sys :=
  match steps with
  | [] => Some s
  | st :: rest =>
      match step_fn st s with
      | Some s' => run rest s'
      | None => None
      end
  end.

Definition reachable (s : Sys) : Prop := exists steps, run steps init = Some s.

(** Steps of the threads already at work, as opposed to new calls of
    [ScheduleReactorTask] or [Shutdown]. *)
Definition internal (st : Step) : bool :=
  match st with
  | CallSchedule _ | CallShutdown => false
  | _ => true
  end.

(** Nothing is in flight: no thread is inside [ScheduleReactorTask] or
    [Shutdown], and the loop has no handler active or due. *)
Definition quiescent (s : Sys) : Prop :=
  to_abort s = [] /\ to_wake s = 0 /\
  (shutdown_pc s = SdNotCalled \/ shutdown_pc s = SdReturned) /\
  (loop_pc s = LoopExited \/ (loop_pc s = LoopWaiting /\ async_pending s = false)).

#[global] Instance quiescent_dec (s : Sys) : Decision (quiescent s).
Proof. unfold quiescent. apply _. Defined.

(** One call of each of the three functions with no other thread in
    between, as a schedule: [ScheduleReactorTask(t)], one invocation of
    [AsyncHandler], [Shutdown()]. *)
Definition schedule_pass (s : Sys) (t : TaskPtr) : list Step :=
  CallSchedule t ::
  (if closing_ (reactor s) then [ScheduleAbort t] else [ScheduleWake]).

Definition handler_pass (s : Sys) : list Step :=
  AsyncBegin ::
  (if closing (reactor s) then []
   else AsyncDrain ::
        repeat AsyncRun (length (pending_tasks_ (reactor s))) ++ [AsyncReturn]).

Definition shutdown_pass (s : Sys) : list Step :=
  CallShutdown ::
  (if closing_ (reactor s) then []
   else ShutdownWake ::
        repeat ShutdownAbort (length (pending_tasks_ (reactor s))) ++
        [ShutdownReturn]).

(** How often a task was run, aborted, or is waiting somewhere. *)
Fixpoint count_if {A} (f : A -> bool) (l : list A) : nat :=
  match l with
  | [] => 0
  | x :: l' => (if f x then 1 else 0) + count_if f l'
  end.

Definition is_run (t : TaskPtr) (a : Action) : bool :=
  match a with Run t' => bool_decide (t' = t) | _ => false end.
Definition is_abort (t : TaskPtr) (a : Action) : bool :=
  match a with Abort t' _ => bool_decide (t' = t) | _ => false end.
Definition is_task (t : TaskPtr) (t' : TaskPtr) : bool := bool_decide (t' = t).

Definition times_run (t : TaskPtr) (s : Sys) : nat := count_if (is_run t) (history s).
Definition times_aborted (t : TaskPtr) (s : Sys) : nat :=
  count_if (is_abort t) (history s).
Definition times_scheduled (t : TaskPtr) (s : Sys) : nat :=
  count_if (is_task t) (scheduled s).
Definition times_waiting (t : TaskPtr) (s : Sys) : nat :=
  count_if (is_task t) (pending_tasks_ (reactor s)) +
  count_if (is_task t) (local_tasks (loop_pc s)) +
  count_if (is_task t) (to_abort s).

(** An upper bound on the internal steps still possible. *)
Definition budget (s : Sys) : nat :=
  length (to_abort s) + 4 * to_wake s + (if async_pending s then 3 else 0) +
  length (pending_tasks_ (reactor s)) +
  match loop_pc s with
  | LoopWaiting => 0 | LoopEntered => 2
  | LoopRunning tasks => 1 + length tasks | LoopExited => 0
  end +
  match shutdown_pc s with
  | SdNotCalled => 0 | SdFlagSet => 5 | SdDraining => 1 | SdReturned => 0
  end.

Local Close Scope nat_scope.

(** ** Derived notions used to state the properties *)

(** What the three callees of [FindOrStartConnection] hand back; each
    depends on the answers of the outside world only. *)
Definition CreateClientSocket_result (env : Env) : Status :=
  if Status.ok (sock_Init env) then sock_SetNoDelay env else sock_Init env.

Definition StartConnect_result (env : Env) : Status :=
  if Status.ok (sock_Connect env) then sock_Connect env
  else if IsTemporarySocketError env (Status.posix_code (sock_Connect env))
          || (Status.posix_code (sock_Connect env) =? EINPROGRESS)
       then Status.OK
       else sock_Connect env.

Definition StartConnectionNegotiation_result (env : Env) : Status :=
  if negb (Status.ok (SubmitFutureTask env)) then SubmitFutureTask env
  else Status.OK.

(** The first error among the three steps of opening a connection. *)
Inductive OpenStage := SocketCreation | Connect | NegotiationSubmission.

Definition first_error (env : Env) : option (OpenStage * Status) :=
  if negb (Status.ok (CreateClientSocket_result env))
  then Some (SocketCreation, CreateClientSocket_result env)
  else if negb (Status.ok (StartConnect_result env))
  then Some (Connect, StartConnect_result env)
  else if negb (Status.ok (StartConnectionNegotiation_result env))
  then Some (NegotiationSubmission, StartConnectionNegotiation_result env)
  else None.

(** The effects added between two states end with [call->SetFailed]. *)
Definition marked_failed (call : OutboundCall) (rt rt' : ReactorThread) : bool :=
  match last (drop (length (effects rt)) (effects rt')) with
  | Some (CallSetFailed c _) => bool_decide (c = call)
  | _ => false
  end.

Definition is_set_failed (e : Effect) : bool :=
  match e with CallSetFailed _ _ => true | _ => false end.

(** No socket was created and no negotiation submitted. *)
Definition opens_nothing (e : Effect) : bool :=
  match e with
  | SocketInit | SocketSetNoDelay | SocketConnect _ | SubmitNegotiation _ _ _ => false
  | _ => true
  end.

(** The idle test of [ScanIdleConnections] on connection [c]: it reports
    idle and has been so for strictly longer than the keepalive, by the
    cached coarse clock. *)
Definition timed_out (rt : ReactorThread) (c : ConnPtr) : bool :=
  idle_ (heap rt c) &&
  (connection_keepalive_time_ rt <? cur_time_ rt - last_activity_time_ (heap rt c)).

(** ** Sample data for the concrete checks *)

Definition sample_env : Env :=
  {| now_fine := 5000; now_coarse := 5000;
     MonoTime_Max := 2 ^ 63 - 1;
     MonoDelta_ToString := fun _ => "65.000";
     IsTemporarySocketError := fun e => (e =? 11) || (e =? 4);
     FLAGS_server_negotiation_timeout := 3000;
     sock_Init := Status.OK; sock_SetNoDelay := Status.OK;
     sock_Connect := Status.OK; sock_Release := 7;
     SubmitFutureTask := Status.OK |}.

(** The same world, but the negotiation executor refuses the task with
    [st]. *)
Definition env_submit_fails (st : Status) : Env :=
  {| now_fine := 5000; now_coarse := 5000;
     MonoTime_Max := 2 ^ 63 - 1;
     MonoDelta_ToString := fun _ => "65.000";
     IsTemporarySocketError := fun e => (e =? 11) || (e =? 4);
     FLAGS_server_negotiation_timeout := 3000;
     sock_Init := Status.OK; sock_SetNoDelay := Status.OK;
     sock_Connect := Status.OK; sock_Release := 7;
     SubmitFutureTask := st |}.

Definition pool_closing : Status := Status.IllegalState "ThreadPool is closing".
Definition pool_full : Status :=
  Status.ServiceUnavailable "Thread pool queue is full" "" (-1).

(** A fresh inbound connection, as [RegisterInboundSocket] builds it. *)
Definition inbound_conn : Connection :=
  ConnectionOps.new (167772161%N, 40000%N) 9 SERVER 0.

(** A loop with empty tables; address 0 holds an inbound connection that
    is not registered yet. *)
Definition sample_thread : ReactorThread :=
  {| cur_time_ := 0; connection_keepalive_time_ := 65000000000;
     client_conns_ := ∅; server_conns_ := [];
     heap := fun _ => inbound_conn; next_conn := 1%nat; effects := [] |}.

Definition sample_id : ConnectionId :=
  mkConnectionId (167772162%N, 7050%N) "kudu.rpc.Calculator" "alice".

Definition sample_call (tag : nat) (timeout : MonoDelta) : OutboundCall :=
  {| call_tag := tag; call_method := "Add"; call_conn_id := sample_id;
     call_timeout := timeout |}.

(** An outbound connection whose identity is not in the client table. *)
Definition stray_client_conn : Connection :=
  ConnectionOps.set_user_credentials
    (ConnectionOps.set_service_name
       (ConnectionOps.new (167772162%N, 7050%N) 8 CLIENT 0) "kudu.rpc.Calculator")
    "alice".

(** A loop whose address 0 holds that outbound connection, with an empty
    client table. *)
Definition stray_thread : ReactorThread :=
  {| cur_time_ := 0; connection_keepalive_time_ := 65000000000;
     client_conns_ := ∅; server_conns_ := [];
     heap := fun _ => stray_client_conn; next_conn := 1%nat; effects := [] |}.

(** The loop after one call with a 1 ms timeout has been assigned. *)
Definition thread_after_first_call : ReactorThread :=
  match AssignOutboundCall sample_env (sample_call 1 1000000) sample_thread with
  | Ok _ rt => rt
  | CheckFailed _ => sample_thread
  end.

(** Three registered inbound connections at time 100 s with a keepalive
    of 65 s: address 1 is busy, address 2 has been idle for 90 s,
    address 3 has been idle for exactly 65 s. *)
Definition scan_thread : ReactorThread :=
  {| cur_time_ := 100000000000; connection_keepalive_time_ := 65000000000;
     client_conns_ := {[ sample_id := 4%nat ]};
     server_conns_ := [1%nat; 2%nat; 3%nat];
     heap := fun p =>
       {| direction_ := SERVER; remote_ := (167772161%N, 40000%N);
          socket_ := 9; service_name_ := ""; user_credentials_ := "";
          idle_ := negb (p =? 1)%nat;
          last_activity_time_ :=
            if (p =? 2)%nat then 10000000000 else 35000000000;
          shutdown_status_ := None; outbound_calls_ := [] |};
     next_conn := 5%nat; effects := [] |}.

(** ** Notions for the interleaving properties *)

Local Open Scope nat_scope.

(** The tasks run in a stretch of history, in order. *)
Fixpoint tasks_run (h : list Action) : list TaskPtr :=
  match h with
  | [] => []
  | Run t :: h' => t :: tasks_run h'
  | _ :: h' => tasks_run h'
  end.

(** [n] calls of [Reactor::Shutdown] in a row, with all their actions. *)
Fixpoint shutdown_times (n : nat) (r : Reactor) : option (Reactor * list Action) :=
  match n with
  | 0 => Some (r, [])
  | S n' =>
      match Reactor_Shutdown r with
      | None => None
      | Some (r', acts) =>
          match shutdown_times n' r' with
          | None => None
          | Some (r'', acts') => Some (r'', acts ++ acts')
          end
      end
  end.

(** What holds of every reachable state. *)
Record reactor_inv (s : Sys) : Prop := {
  inv_accounting :
    forall t, times_scheduled t s = times_run t s + times_aborted t s + times_waiting t s;
  inv_abort_status :
    forall t st, Abort t st ∈ history s -> st = ShutdownError;
  inv_closing :
    closing_ (reactor s) = false <-> shutdown_pc s = SdNotCalled;
  inv_returned :
    shutdown_pc s = SdReturned -> pending_tasks_ (reactor s) = [];
  inv_exited :
    loop_pc s = LoopExited -> closing_ (reactor s) = true;
  inv_wake :
    closing_ (reactor s) = false -> pending_tasks_ (reactor s) <> [] ->
    async_pending s = true \/ loop_pc s = LoopEntered \/ to_wake s > 0
}.

(** Two tasks are submitted and drained; the loop has run the first when
    another thread calls [Shutdown], which finds nothing pending and
    returns. *)
Definition schedule_shutdown_during_drain : list Step :=
  [CallSchedule 1; ScheduleWake; CallSchedule 2; ScheduleWake;
   AsyncBegin; AsyncDrain; AsyncRun;
   CallShutdown; ShutdownWake; ShutdownReturn].

(** One task is run by the loop, one is caught by [Shutdown], one arrives
    after it; then everything comes to rest. *)
Definition schedule_run_abort_refuse : list Step :=
  [CallSchedule 1; ScheduleWake; AsyncBegin; AsyncDrain; AsyncRun; AsyncReturn;
   CallSchedule 2; CallShutdown; ShutdownWake; ShutdownAbort; ShutdownReturn;
   CallSchedule 3; ScheduleAbort 3; ScheduleWake; AsyncBegin].

(** The states those two schedules lead to. *)
Definition state_shutdown_during_drain : Sys :=
  Eval vm_compute in
    match run schedule_shutdown_during_drain init with
    | Some s => s
    | None => init
    end.

Definition state_at_rest : Sys :=
  Eval vm_compute in
    match run schedule_run_abort_refuse init with
    | Some s => s
    | None => init
    end.

(** What the loop and a late caller do after [Shutdown] has returned. *)
Definition schedule_after_shutdown : list Step :=
  [CallSchedule 3; AsyncRun; ScheduleAbort 3; AsyncReturn; AsyncBegin].

Definition state_after_shutdown : Sys :=
  Eval vm_compute in
    match run schedule_after_shutdown state_shutdown_during_drain with
    | Some s => s
    | None => init
    end.

Local Close Scope nat_scope.

(** * Further code of the file *)

(** ** Completing a negotiation *)

(** Calls on a connection that leave no trace in the loop state. *)
Inductive ConnectionCall :=
| SetNonBlocking (on : bool)
| MarkNegotiationComplete
| EpollRegister.

(** glog's [LOG(DFATAL)]: fatal in a debug build, an error line in a
    release build. *)
Definition LOG_DFATAL (debug_build : bool) (what : string) : M unit :=
  if debug_build then (fun _ => CheckFailed what) else emit (LogError what).

(** [ReactorThread::CompleteConnectionNegotiation]; [set_non_blocking] is
    what [conn->SetNonBlocking(true)] answers.  Returns the calls made on
    the connection. *)
Definition CompleteConnectionNegotiation (debug_build : bool)
    (set_non_blocking : Status) (conn : ConnPtr) (status : Status)
  : M (list ConnectionCall) :=
  if negb (Status.ok status)
  then DestroyConnection conn status ;;; ret []
  else
    c <- deref conn ;;
    if bool_decide (service_name_ c = "")
    then
      let s := Status.IllegalState "Failed to set connection service name!" in
      LOG_DFATAL debug_build "Unexpected connection negotiation error" ;;;
      DestroyConnection conn s ;;;
      ret []
    else
      let s := set_non_blocking in
      if negb (Status.ok s)
      then
        LOG_DFATAL debug_build "Unable to set connection to non-blocking mode" ;;;
        DestroyConnection conn s ;;;
        ret [SetNonBlocking true]
      else ret [SetNonBlocking true; MarkNegotiationComplete; EpollRegister].

(** ** The task classes of the file *)

Inductive ReactorTask :=
| GetMetricsTask
| RegisterConnectionTask (conn_ : ConnPtr)
| AssignOutboundCallTask (call_ : OutboundCall).

(** How a task ends: a [GetMetricsTask] counts its latch down, with the
    metrics filled in or with an abort status; the other two delete
    themselves. *)
Inductive Finished :=
| LatchMetrics (num_client_connections_ num_server_connections_ : nat)
| LatchStatus (status_ : Status)
| Deleted.

(** The three [Run] methods, on the loop thread. *)
Definition ReactorTask_Run (env : Env) (task : ReactorTask) : M Finished :=
  match task with
  | GetMetricsTask =>
      metrics <- GetMetricsInternal ;;
      ret (LatchMetrics metrics.1 metrics.2)
  | RegisterConnectionTask conn => RegisterConnection env conn ;;; ret Deleted
  | AssignOutboundCallTask call => AssignOutboundCall env call ;;; ret Deleted
  end.

(** The three [Abort] methods; they run on the caller's thread and touch
    no loop state. *)
Definition ReactorTask_Abort (task : ReactorTask) (status : Status)
  : list Effect * Finished :=
  match task with
  | GetMetricsTask => ([], LatchStatus status)
  | RegisterConnectionTask _ => ([], Deleted)
  | AssignOutboundCallTask call => ([CallSetFailed call status], Deleted)
  end.

(** The task objects in memory. *)
Definition TaskStore : Type := TaskPtr -> ReactorTask.

Definition store_task (objs : TaskStore) (task : TaskPtr) (obj : ReactorTask)
  : TaskStore :=
  fun t => if decide (t = task) then obj else objs t.

(** [Reactor::QueueOutboundCall]; [task] is the address [new] returns. *)
Definition QueueOutboundCall (r : Reactor) (objs : TaskStore) (task : TaskPtr)
    (call : OutboundCall) : Reactor * TaskStore * list Action :=
  let objs := store_task objs task (AssignOutboundCallTask call) in
  let scheduled := ScheduleReactorTask r task in
  (scheduled.1, objs, scheduled.2).

(** [Reactor::RegisterInboundSocket]; the connection object is created by
    the calling thread. *)
Definition RegisterInboundSocket (env : Env) (r : Reactor) (objs : TaskStore)
    (task : TaskPtr) (remote : Sockaddr)
  : M (ConnPtr * (Reactor * TaskStore * list Action)) :=
  conn <- alloc (ConnectionOps.new remote (sock_Release env) SERVER
                                   (now_coarse env)) ;;
  let objs := store_task objs task (RegisterConnectionTask conn) in
  let scheduled := ScheduleReactorTask r task in
  ret (conn, (scheduled.1, objs, scheduled.2)).

(** [Reactor::GetMetrics] up to [task.Wait()]: the task lives on the
    caller's stack at [task]. *)
Definition GetMetrics_submit (r : Reactor) (objs : TaskStore) (task : TaskPtr)
  : Reactor * TaskStore * list Action :=
  let objs := store_task objs task GetMetricsTask in
  let scheduled := ScheduleReactorTask r task in
  (scheduled.1, objs, scheduled.2).

(** ... and after it: [return task.status()], with the metrics the
    caller finds in its out-parameter, if any were written. *)
Definition GetMetrics_return (done : Finished) : Status * option (nat * nat) :=
  match done with
  | LatchMetrics c s => (Status.OK, Some (c, s))
  | LatchStatus st => (st, None)
  | Deleted => (Status.OK, None)
  end.

(** What the [Abort] calls among [acts] do, on the caller's thread. *)
Fixpoint perform_aborts (objs : TaskStore) (acts : list Action)
  : list Effect * list Finished :=
  match acts with
  | [] => ([], [])
  | Abort t st :: rest =>
      let one := ReactorTask_Abort (objs t) st in
      let more := perform_aborts objs rest in
      (one.1 ++ more.1, one.2 :: more.2)
  | _ :: rest => perform_aborts objs rest
  end.

(** What the [Run] calls among [acts] do, on the loop thread. *)
Fixpoint perform_runs (env : Env) (objs : TaskStore) (acts : list Action)
  : M (list Finished) :=
  match acts with
  | [] => ret []
  | Run t :: rest =>
      one <- ReactorTask_Run env (objs t) ;;
      more <- perform_runs env objs rest ;;
      ret (one :: more)
  | _ :: rest => perform_runs env objs rest
  end.

(** ** Notions for the further properties *)

(** Submitting a list of tasks one after the other. *)
Fixpoint schedule_all (r : Reactor) (tasks : list TaskPtr)
  : Reactor * list Action :=
  match tasks with
  | [] => (r, [])
  | t :: rest =>
      let one := ScheduleReactorTask r t in
      let more := schedule_all one.1 rest in
      (more.1, one.2 ++ more.2)
  end.

(** How far [Shutdown] has got. *)
Definition shutdown_rank (pc : ShutdownPc) : nat :=
  match pc with
  | SdNotCalled => 0%nat | SdFlagSet => 1%nat
  | SdDraining => 2%nat | SdReturned => 3%nat
  end.

(** The identity under which the client table knows connection [c]. *)
Definition identity_of (c : Connection) : ConnectionId :=
  mkConnectionId (remote_ c) (service_name_ c) (user_credentials_ c).

(** [DestroyConnection] finds [conn] where it looks for it: a SERVER
    connection is looked for in the list, where absence is tolerated, a
    CLIENT connection under its identity, where the [CHECK] wants it. *)
Definition can_destroy (rt : ReactorThread) (conn : ConnPtr) : Prop :=
  direction_ (heap rt conn) = SERVER \/
  is_Some (client_conns_ rt !! identity_of (heap rt conn)).

(** A world in which connect is still in progress when it returns. *)
Definition env_connect_in_progress : Env :=
  {| now_fine := 5000; now_coarse := 5000;
     MonoTime_Max := 2 ^ 63 - 1;
     MonoDelta_ToString := fun _ => "65.000";
     IsTemporarySocketError := fun e => (e =? 11) || (e =? 4);
     FLAGS_server_negotiation_timeout := 3000;
     sock_Init := Status.OK; sock_SetNoDelay := Status.OK;
     sock_Connect := Status.make Status.kNetworkError "connect" "in progress" EINPROGRESS;
     sock_Release := 7;
     SubmitFutureTask := Status.OK |}.

(** A world in which the socket cannot be created. *)
Definition env_no_socket : Env :=
  {| now_fine := 5000; now_coarse := 5000;
     MonoTime_Max := 2 ^ 63 - 1;
     MonoDelta_ToString := fun _ => "65.000";
     IsTemporarySocketError := fun e => (e =? 11) || (e =? 4);
     FLAGS_server_negotiation_timeout := 3000;
     sock_Init := Status.make Status.kNetworkError "socket" "too many open files" 24;
     sock_SetNoDelay := Status.OK;
     sock_Connect := Status.OK; sock_Release := 7;
     SubmitFutureTask := Status.OK |}.

(** The sample loop after a connection to [sample_id] has been opened. *)
Definition thread_with_client : ReactorThread :=
  match FindOrStartConnection sample_env sample_id 9000 sample_thread with
  | Ok _ rt => rt
  | CheckFailed _ => sample_thread
  end.

(** A task store holding one task of each class. *)
Definition sample_tasks : TaskStore :=
  store_task (store_task (fun _ => GetMetricsTask) 2%nat
                         (RegisterConnectionTask 0%nat))
             3%nat (AssignOutboundCallTask (sample_call 1 1000000)).

(** Steps of the loop thread, and of a caller on its way to wake it. *)
Definition loop_or_wake (st : Step) : bool :=
  match st with
  | ScheduleWake | AsyncBegin | AsyncDrain | AsyncRun | AsyncReturn => true
  | _ => false
  end.

(** Submission order: what was run, then what the loop holds, then the
    rest, which is the pending queue as long as the flag is not set. *)
Definition in_submission_order (s : Sys) : Prop :=
  exists rest,
    scheduled s = tasks_run (history s) ++ local_tasks (loop_pc s) ++ rest /\
    (closing_ (reactor s) = false -> rest = pending_tasks_ (reactor s)).

(** * Properties *)

(** ** Reasoning about handlers *)

Arguments DestroyConnection : simpl never.
Arguments StartConnectionNegotiation : simpl never.
Arguments CreateClientSocket : simpl never.
Arguments StartConnect : simpl never.
Arguments FindOrStartConnection : simpl never.
Arguments call_deadline : simpl never.

Ltac unfold_m :=
  unfold bind, ret, get, modify, emit, when, CHECK, deref, update, alloc.

Lemma heap_set_eq (h : Heap) p c : heap_set h p c p = c.
Proof. unfold heap_set. destruct (decide (p = p)); congruence. Qed.

Lemma heap_set_ne (h : Heap) p q c : q <> p -> heap_set h p c q = h q.
Proof. intros Hne. unfold heap_set. destruct (decide (q = p)); congruence. Qed.

Lemma erase_first_absent conn (l : list ConnPtr) :
  conn ∉ l -> erase_first conn l = l.
Proof.
  induction l as [|p l IH]; simpl; intros Hnot; [reflexivity|].
  destruct (decide (p = conn)) as [->|Hne].
  - exfalso. apply Hnot. left.
  - f_equal. apply IH. intros Hin. apply Hnot. right. exact Hin.
Qed.

Lemma StartConnectionNegotiation_spec env conn deadline rt :
  StartConnectionNegotiation env conn deadline rt =
  Ok (StartConnectionNegotiation_result env)
     (with_effects
        (effects rt ++ [SubmitNegotiation conn (direction_ (heap rt conn)) deadline])
        rt).
Proof.
  unfold StartConnectionNegotiation, StartConnectionNegotiation_result.
  unfold_m. simpl.
  destruct (Status.ok (SubmitFutureTask env)); reflexivity.
Qed.

Lemma DestroyConnection_server rt conn st :
  direction_ (heap rt conn) = SERVER ->
  DestroyConnection conn st rt =
  Ok tt (with_server_conns (erase_first conn (server_conns_ rt))
           (with_heap (heap_set (heap rt) conn
                         (ConnectionOps.Shutdown (heap rt conn) st)) rt)).
Proof.
  intros Hdir. unfold DestroyConnection. unfold_m. simpl.
  rewrite heap_set_eq. simpl. rewrite Hdir. reflexivity.
Qed.

Lemma DestroyConnection_client_absent rt conn st :
  direction_ (heap rt conn) = CLIENT ->
  client_conns_ rt !! mkConnectionId (remote_ (heap rt conn))
                        (service_name_ (heap rt conn))
                        (user_credentials_ (heap rt conn)) = None ->
  DestroyConnection conn st rt = CheckFailed "Couldn't find connection".
Proof.
  intros Hdir Habs. unfold DestroyConnection. unfold_m. simpl.
  rewrite heap_set_eq. simpl. rewrite Hdir.
  unfold with_heap. simpl. rewrite Habs.
  rewrite bool_decide_eq_false_2; [reflexivity|].
  intros [x Hx]. discriminate.
Qed.

(** ** C10 *)

(** C10. [DestroyConnection] on a SERVER connection that is not in
    [server_conns_] shuts the connection down with the given status and
    leaves both tables as they are, with no fatal check; on a CLIENT
    connection whose rebuilt [ConnectionId] is not a key of
    [client_conns_] it dies in the presence [CHECK].  The failure path of
    [RegisterConnection] calls it in the first situation: the connection
    it destroys has not been appended at that point, and the call
    returns. *)
Theorem DestroyConnection_tolerates_absent_server_conn :
  forall (env : Env) (rt : ReactorThread) (conn : ConnPtr) (st : Status),
    (direction_ (heap rt conn) = SERVER -> conn ∉ server_conns_ rt ->
     exists rt',
       DestroyConnection conn st rt = Ok tt rt' /\
       heap rt' conn = ConnectionOps.Shutdown (heap rt conn) st /\
       shutdown_status_ (heap rt' conn) = Some st /\
       (forall q, q <> conn -> heap rt' q = heap rt q) /\
       server_conns_ rt' = server_conns_ rt /\
       client_conns_ rt' = client_conns_ rt) /\
    (direction_ (heap rt conn) = CLIENT ->
     client_conns_ rt !! mkConnectionId (remote_ (heap rt conn))
                           (service_name_ (heap rt conn))
                           (user_credentials_ (heap rt conn)) = None ->
     DestroyConnection conn st rt = CheckFailed "Couldn't find connection") /\
    (direction_ (heap rt conn) = SERVER -> conn ∉ server_conns_ rt ->
     Status.ok (SubmitFutureTask env) = false ->
     exists rt1 rt2,
       StartConnectionNegotiation env conn
          (MonoTimeOps.AddDelta (now_fine env)
             (MonoDeltaOps.FromMilliseconds (FLAGS_server_negotiation_timeout env)))
          rt = Ok (SubmitFutureTask env) rt1 /\
       (conn ∉ server_conns_ rt1) /\
       DestroyConnection conn (SubmitFutureTask env)
         (with_effects
            (effects rt1 ++ [LogError "Server connection negotiation failed"]) rt1)
         = Ok tt rt2 /\
       server_conns_ rt2 = server_conns_ rt /\
       RegisterConnection env conn rt =
         Ok tt (with_server_conns (server_conns_ rt2 ++ [conn]) rt2)).
Proof.
  intros env rt conn st. split; [|split].
  - intros Hdir Hnot. eexists. split; [apply DestroyConnection_server, Hdir|].
    simpl. rewrite heap_set_eq. repeat split.
    + intros q Hq. apply heap_set_ne, Hq.
    + apply erase_first_absent, Hnot.
  - apply DestroyConnection_client_absent.
  - intros Hdir Hnot Hfail.
    rewrite StartConnectionNegotiation_spec.
    unfold StartConnectionNegotiation_result. rewrite Hfail. simpl.
    eexists _, _. split; [reflexivity|].
    split; [exact Hnot|].
    split; [apply DestroyConnection_server; exact Hdir|].
    split; [simpl; apply erase_first_absent, Hnot|].
    unfold RegisterConnection, bind.
    rewrite StartConnectionNegotiation_spec.
    unfold StartConnectionNegotiation_result. rewrite Hfail. simpl.
    unfold when, emit, modify. simpl. rewrite Hfail. simpl.
    rewrite DestroyConnection_server by exact Hdir.
    reflexivity.
Qed.

Lemma DestroyConnection_tolerates_absent_server_conn_witness :
  (exists rt',
     DestroyConnection 0%nat pool_full sample_thread = Ok tt rt' /\
     shutdown_status_ (heap rt' 0%nat) = Some pool_full /\
     server_conns_ rt' = []) /\
  DestroyConnection 0%nat pool_full stray_thread
    = CheckFailed "Couldn't find connection" /\
  (exists rt3,
     RegisterConnection (env_submit_fails pool_full) 0%nat sample_thread
       = Ok tt rt3).
Proof.
  destruct (DestroyConnection_tolerates_absent_server_conn
              (env_submit_fails pool_full) sample_thread 0%nat pool_full)
    as (Hserver & _ & Hregister).
  destruct (DestroyConnection_tolerates_absent_server_conn
              sample_env stray_thread 0%nat pool_full)
    as (_ & Hclient & _).
  split; [|split].
  - destruct Hserver as (rt' & Hrun & _ & Hst & _ & Hsrv & _);
      [reflexivity | apply not_elem_of_nil |].
    exists rt'. repeat split; assumption.
  - apply Hclient; reflexivity.
  - destruct Hregister as (rt1 & rt2 & _ & _ & _ & _ & Hreg);
      [reflexivity | apply not_elem_of_nil | reflexivity |].
    eexists. exact Hreg.
Defined.

(** ** C3 *)

(** C3 (as the code behaves). When the submission to
    [StartConnectionNegotiation] fails, [RegisterConnection] destroys the
    SERVER connection with that error and then still appends it to
    [server_conns_]: the failure branch does not return. *)
Theorem RegisterConnection_appends_after_failed_submission :
  forall (env : Env) (rt : ReactorThread) (conn : ConnPtr),
    direction_ (heap rt conn) = SERVER ->
    Status.ok (SubmitFutureTask env) = false ->
    exists rt',
      RegisterConnection env conn rt = Ok tt rt' /\
      shutdown_status_ (heap rt' conn) = Some (SubmitFutureTask env) /\
      conn ∈ server_conns_ rt' /\
      server_conns_ rt' = erase_first conn (server_conns_ rt) ++ [conn].
Proof.
  intros env rt conn Hdir Hfail.
  unfold RegisterConnection, bind.
  rewrite StartConnectionNegotiation_spec.
  unfold StartConnectionNegotiation_result. rewrite Hfail. simpl.
  unfold when, emit, modify. simpl. rewrite Hfail. simpl.
  rewrite DestroyConnection_server by exact Hdir.
  eexists. split; [reflexivity|]. simpl. rewrite heap_set_eq.
  split; [reflexivity|]. split; [|reflexivity].
  apply elem_of_app. right. apply list_elem_of_singleton. reflexivity.
Qed.

Lemma RegisterConnection_appends_after_failed_submission_witness :
  exists rt',
    RegisterConnection (env_submit_fails pool_full) 0%nat sample_thread
      = Ok tt rt' /\
    shutdown_status_ (heap rt' 0%nat) = Some pool_full /\
    server_conns_ rt' = [0%nat].
Proof.
  destruct (RegisterConnection_appends_after_failed_submission
              (env_submit_fails pool_full) sample_thread 0%nat)
    as (rt' & Hrun & Hst & _ & Hsrv); [reflexivity | reflexivity |].
  exists rt'. repeat split; assumption.
Defined.

(** When the submission succeeds the connection is appended, untouched. *)
Lemma RegisterConnection_success env rt conn :
  Status.ok (SubmitFutureTask env) = true ->
  exists rt',
    RegisterConnection env conn rt = Ok tt rt' /\
    server_conns_ rt' = server_conns_ rt ++ [conn] /\
    heap rt' = heap rt /\ client_conns_ rt' = client_conns_ rt.
Proof.
  intros Hok. unfold RegisterConnection, bind.
  rewrite StartConnectionNegotiation_spec.
  unfold StartConnectionNegotiation_result. rewrite Hok. simpl.
  eexists. split; [reflexivity|]. repeat split.
Qed.

(** ** Opening a client connection *)

(** [CreateClientSocket] and [StartConnect] only add effects, none of
    them a [SetFailed]. *)

Lemma CreateClientSocket_spec env rt :
  exists es,
    CreateClientSocket env rt =
    Ok (CreateClientSocket_result env) (with_effects (effects rt ++ es) rt) /\
    forallb (fun e => negb (is_set_failed e)) es = true.
Proof.
  unfold CreateClientSocket, CreateClientSocket_result. unfold_m. simpl.
  destruct (Status.ok (sock_Init env)) eqn:Hinit; simpl.
  - destruct (Status.ok (sock_SetNoDelay env)); simpl;
      rewrite <- ?app_assoc; eexists; (split; [reflexivity|]); reflexivity.
  - rewrite Hinit. simpl. rewrite <- ?app_assoc.
    eexists; (split; [reflexivity|]); reflexivity.
Qed.

Lemma StartConnect_spec env remote rt :
  exists es in_progress,
    StartConnect env remote rt =
    Ok (StartConnect_result env, in_progress)
       (with_effects (effects rt ++ es) rt) /\
    forallb (fun e => negb (is_set_failed e)) es = true.
Proof.
  unfold StartConnect, StartConnect_result. unfold_m. simpl.
  destruct (Status.ok (sock_Connect env)); simpl;
    [eexists _, _; (split; [reflexivity|]); reflexivity|].
  destruct (IsTemporarySocketError env (Status.posix_code (sock_Connect env))
            || (Status.posix_code (sock_Connect env) =? EINPROGRESS));
    simpl; rewrite <- ?app_assoc; eexists _, _;
    (split; [reflexivity|]); reflexivity.
Qed.

Lemma ok_IsIllegalState s : Status.IsIllegalState s = true -> Status.ok s = false.
Proof.
  unfold Status.IsIllegalState, Status.ok. intros H.
  apply bool_decide_eq_true in H. apply bool_decide_eq_false. congruence.
Qed.

Lemma ok_CloneAndPrepend s msg :
  Status.ok (Status.CloneAndPrepend s msg) = Status.ok s.
Proof. reflexivity. Qed.

(** What the three callees return is what the [_result] functions say,
    whatever the loop state. *)
Lemma callee_results env :
  (forall rt, exists rt',
      CreateClientSocket env rt = Ok (CreateClientSocket_result env) rt') /\
  (forall remote rt, exists in_progress rt',
      StartConnect env remote rt = Ok (StartConnect_result env, in_progress) rt') /\
  (forall conn deadline rt, exists rt',
      StartConnectionNegotiation env conn deadline rt
        = Ok (StartConnectionNegotiation_result env) rt').
Proof.
  split; [|split].
  - intros rt. destruct (CreateClientSocket_spec env rt) as (es & Hrun & _).
    eexists. exact Hrun.
  - intros remote rt.
    destruct (StartConnect_spec env remote rt) as (es & ip & Hrun & _).
    eexists _, _. exact Hrun.
  - intros conn deadline rt. eexists. apply StartConnectionNegotiation_spec.
Qed.

(** A hit in the client table: the stored connection, the state as it
    was. *)
Lemma FindOrStartConnection_found env conn_id deadline rt c :
  client_conns_ rt !! conn_id = Some c ->
  FindOrStartConnection env conn_id deadline rt = Ok (Status.OK, Some c) rt.
Proof.
  intros Hfound. unfold FindOrStartConnection. unfold_m. simpl.
  rewrite Hfound. reflexivity.
Qed.

Lemma FindOrStartConnection_new env conn_id deadline rt :
  client_conns_ rt !! conn_id = None ->
  exists st conn rt',
    FindOrStartConnection env conn_id deadline rt = Ok (st, conn) rt' /\
    server_conns_ rt' = server_conns_ rt /\
    (exists es, effects rt' = effects rt ++ es /\
                forallb (fun e => negb (is_set_failed e)) es = true) /\
    (forall p, heap rt' p = heap rt p \/
               (p = next_conn rt /\ outbound_calls_ (heap rt' p) = [])) /\
    (Status.ok st = true -> conn = Some (next_conn rt)) /\
    match first_error env with
    | Some (SocketCreation, e) | Some (Connect, e) =>
        st = e /\ conn = None /\ client_conns_ rt' = client_conns_ rt
    | Some (NegotiationSubmission, e) =>
        st = (if Status.IsIllegalState e
              then Status.ServiceUnavailable "Client RPC Messenger shutting down" "" (-1)
              else Status.CloneAndPrepend e "Unable to start connection negotiation thread") /\
        conn = Some (next_conn rt) /\
        client_conns_ rt' = client_conns_ rt
    | None =>
        st = Status.OK /\ conn = Some (next_conn rt) /\
        client_conns_ rt' = <[conn_id := next_conn rt]> (client_conns_ rt)
    end.
Proof.
  intros Hnew. unfold FindOrStartConnection, first_error.
  unfold bind at 1. unfold get at 1. rewrite Hnew.
  unfold bind at 1.
  destruct (CreateClientSocket_spec env rt) as (es1 & -> & Hes1).
  destruct (Status.ok (CreateClientSocket_result env)) eqn:Hsock; simpl.
  2:{ eexists _, _, _. split; [reflexivity|]. simpl.
      split; [reflexivity|]. split; [eauto|]. split; [auto|].
      split; [congruence|]. repeat split. }
  unfold bind at 1.
  match goal with
  | |- context [StartConnect env ?r ?s] =>
      destruct (StartConnect_spec env r s) as (es2 & ip & -> & Hes2)
  end.
  simpl.
  destruct (Status.ok (StartConnect_result env)) eqn:Hconn; simpl.
  2:{ eexists _, _, _. split; [reflexivity|]. simpl.
      split; [reflexivity|].
      split; [exists (es1 ++ es2); rewrite app_assoc, forallb_app, Hes1, Hes2; auto|].
      split; [auto|]. split; [congruence|]. repeat split. }
  unfold_m. simpl. rewrite StartConnectionNegotiation_spec. simpl.
  assert (Heff : forall e,
             is_set_failed e = false ->
             exists es, ((effects rt ++ es1) ++ es2) ++ [e] = effects rt ++ es /\
                        forallb (fun e => negb (is_set_failed e)) es = true).
  { intros e He. exists (es1 ++ es2 ++ [e]).
    rewrite <- !app_assoc. split; [reflexivity|].
    rewrite !forallb_app, Hes1, Hes2. simpl. rewrite He. reflexivity. }
  assert (Hheap : forall (h : Heap) p,
             (p <> next_conn rt -> h p = heap rt p) ->
             outbound_calls_ (h (next_conn rt)) = [] ->
             h p = heap rt p \/ (p = next_conn rt /\ outbound_calls_ (h p) = [])).
  { intros h p Hother Hfresh. destruct (decide (p = next_conn rt)) as [->|Hne].
    - right. split; [reflexivity|exact Hfresh].
    - left. apply Hother, Hne. }
  destruct (Status.IsIllegalState (StartConnectionNegotiation_result env)) eqn:Hill.
  { rewrite (ok_IsIllegalState _ Hill). simpl.
    eexists _, _, _. split; [reflexivity|]. simpl.
    split; [reflexivity|]. split; [apply Heff; reflexivity|].
    split; [intros p; apply Hheap;
            [intros Hne; rewrite !heap_set_ne by exact Hne; reflexivity
            |rewrite !heap_set_eq; reflexivity]|].
    split; [reflexivity|]. rewrite Hill. repeat split. }
  destruct (Status.ok (StartConnectionNegotiation_result env)) eqn:Hneg; simpl.
  - eexists _, _, _. split; [reflexivity|]. simpl.
    split; [reflexivity|]. split; [apply Heff; reflexivity|].
    split; [intros p; apply Hheap;
            [intros Hne; rewrite !heap_set_ne by exact Hne; reflexivity
            |rewrite !heap_set_eq; reflexivity]|].
    split; [reflexivity|].
    split; [reflexivity|]. split; [reflexivity|].
    unfold conn_map_insert. rewrite Hnew. reflexivity.
  - eexists _, _, _. split; [reflexivity|]. simpl.
    split; [reflexivity|]. split; [apply Heff; reflexivity|].
    split; [intros p; apply Hheap;
            [intros Hne; rewrite !heap_set_ne by exact Hne; reflexivity
            |rewrite !heap_set_eq; reflexivity]|].
    split; [reflexivity|]. rewrite Hill. repeat split.
Qed.

Lemma first_error_not_ok env stage e :
  first_error env = Some (stage, e) -> Status.ok e = false.
Proof.
  unfold first_error.
  destruct (Status.ok (CreateClientSocket_result env)) eqn:H1; simpl;
    [|intros [= <- <-]; exact H1].
  destruct (Status.ok (StartConnect_result env)) eqn:H2; simpl;
    [|intros [= <- <-]; exact H2].
  destruct (Status.ok (StartConnectionNegotiation_result env)) eqn:H3; simpl;
    [discriminate|intros [= <- <-]; exact H3].
Qed.

(** ** C4 *)

(** C4 (as stated) fails: with an empty client table and a negotiation
    executor that refuses the task with illegal-state "ThreadPool is
    closing", [FindOrStartConnection] does not return that error but a
    service-unavailable status. *)
Lemma FindOrStartConnection_does_not_return_submission_error :
  client_conns_ sample_thread !! sample_id = None /\
  first_error (env_submit_fails pool_closing)
    = Some (NegotiationSubmission, pool_closing) /\
  exists st conn rt',
    FindOrStartConnection (env_submit_fails pool_closing) sample_id 9000
      sample_thread = Ok (st, conn) rt' /\
    st <> pool_closing /\
    Status.code st = Status.kServiceUnavailable /\
    Status.code pool_closing = Status.kIllegalState.
Proof.
  split; [reflexivity|]. split; [reflexivity|].
  destruct (FindOrStartConnection_new (env_submit_fails pool_closing)
              sample_id 9000 sample_thread eq_refl)
    as (st & conn & rt' & Hrun & _ & _ & _ & _ & Hcases).
  change (first_error (env_submit_fails pool_closing))
    with (Some (NegotiationSubmission, pool_closing)) in Hcases.
  destruct Hcases as (Hst & _ & _).
  change (Status.IsIllegalState pool_closing) with true in Hst.
  exists st, conn, rt'. split; [exact Hrun|]. subst st.
  split; [discriminate|]. split; reflexivity.
Qed.

(** C4 (amended). For a [ConnectionId] that is not a key of
    [client_conns_]: if socket creation, connect or negotiation
    submission fails, [FindOrStartConnection] returns an error -- the
    error itself for socket creation and connect; for negotiation
    submission the service-unavailable remapping of an illegal-state
    error, or else the error with the prefix put before it -- and
    [client_conns_] is unchanged.  The table changes on the all-success
    path only, by the insertion of the new connection under that id,
    and OK is returned. *)
Theorem FindOrStartConnection_failure_keeps_client_conns :
  forall (env : Env) (conn_id : ConnectionId) (deadline : MonoTime)
         (rt : ReactorThread),
    client_conns_ rt !! conn_id = None ->
    ((forall rt0, exists rt1,
         CreateClientSocket env rt0 = Ok (CreateClientSocket_result env) rt1) /\
     (forall remote rt0, exists in_progress rt1,
         StartConnect env remote rt0
           = Ok (StartConnect_result env, in_progress) rt1) /\
     (forall conn d rt0, exists rt1,
         StartConnectionNegotiation env conn d rt0
           = Ok (StartConnectionNegotiation_result env) rt1)) /\
    exists st conn rt',
      FindOrStartConnection env conn_id deadline rt = Ok (st, conn) rt' /\
      match first_error env with
      | Some (stage, e) =>
          Status.ok st = false /\
          client_conns_ rt' = client_conns_ rt /\
          st = match stage with
               | SocketCreation | Connect => e
               | NegotiationSubmission =>
                   if Status.IsIllegalState e
                   then Status.ServiceUnavailable
                          "Client RPC Messenger shutting down" "" (-1)
                   else Status.CloneAndPrepend e
                          "Unable to start connection negotiation thread"
               end
      | None =>
          st = Status.OK /\
          exists c, conn = Some c /\
                    client_conns_ rt' = <[conn_id := c]> (client_conns_ rt)
      end.
Proof.
  intros env conn_id deadline rt Hnew.
  split; [apply callee_results|].
  destruct (FindOrStartConnection_new env conn_id deadline rt Hnew)
    as (st & conn & rt' & Hrun & _ & _ & _ & _ & Hcases).
  exists st, conn, rt'. split; [exact Hrun|].
  destruct (first_error env) as [[stage e]|] eqn:Herr.
  - pose proof (first_error_not_ok _ _ _ Herr) as Hbad.
    destruct stage; destruct Hcases as (-> & _ & Htable);
      (split; [|split; [exact Htable|reflexivity]]); try exact Hbad.
    destruct (Status.IsIllegalState e); [reflexivity|].
    rewrite ok_CloneAndPrepend. exact Hbad.
  - destruct Hcases as (-> & -> & Htable). split; [reflexivity|].
    eexists. split; [reflexivity|exact Htable].
Qed.

Lemma FindOrStartConnection_failure_keeps_client_conns_witness :
  exists st conn rt',
    FindOrStartConnection (env_submit_fails pool_full) sample_id 9000
      sample_thread = Ok (st, conn) rt' /\
    Status.ok st = false /\
    client_conns_ rt' = ∅ /\
    st = Status.CloneAndPrepend pool_full
           "Unable to start connection negotiation thread".
Proof.
  destruct (FindOrStartConnection_failure_keeps_client_conns
              (env_submit_fails pool_full) sample_id 9000 sample_thread)
    as (_ & st & conn & rt' & Hrun & Hcases); [reflexivity|].
  exists st, conn, rt'. split; [exact Hrun|]. exact Hcases.
Defined.

(** ** C5 *)

(** C5. When [StartConnectionNegotiation] hands an illegal-state error to
    [FindOrStartConnection], the caller gets service-unavailable with
    the message "Client RPC Messenger shutting down"; any other
    submission error keeps its code and errno and gets the prefix
    "Unable to start connection negotiation thread". *)
Theorem FindOrStartConnection_negotiation_errors :
  forall (env : Env) (conn_id : ConnectionId) (deadline : MonoTime)
         (rt : ReactorThread),
    client_conns_ rt !! conn_id = None ->
    Status.ok (CreateClientSocket_result env) = true ->
    Status.ok (StartConnect_result env) = true ->
    Status.ok (StartConnectionNegotiation_result env) = false ->
    (forall c d rt0, exists rt1,
        StartConnectionNegotiation env c d rt0
          = Ok (StartConnectionNegotiation_result env) rt1) /\
    exists st conn rt',
      FindOrStartConnection env conn_id deadline rt = Ok (st, conn) rt' /\
      (Status.IsIllegalState (StartConnectionNegotiation_result env) = true ->
       st = Status.ServiceUnavailable "Client RPC Messenger shutting down" "" (-1) /\
       Status.IsServiceUnavailable st = true /\
       Status.message st = "Client RPC Messenger shutting down") /\
      (Status.IsIllegalState (StartConnectionNegotiation_result env) = false ->
       st = Status.CloneAndPrepend (StartConnectionNegotiation_result env)
              "Unable to start connection negotiation thread" /\
       Status.code st = Status.code (StartConnectionNegotiation_result env) /\
       Status.posix_code st
         = Status.posix_code (StartConnectionNegotiation_result env) /\
       exists rest,
         Status.message st
           = "Unable to start connection negotiation thread" +:+ rest /\
         (Status.message (StartConnectionNegotiation_result env) <> "" ->
          rest = ": " +:+ Status.message (StartConnectionNegotiation_result env))).
Proof.
  intros env conn_id deadline rt Hnew Hsock Hconn Hneg.
  split; [apply callee_results|].
  destruct (FindOrStartConnection_new env conn_id deadline rt Hnew)
    as (st & conn & rt' & Hrun & _ & _ & _ & _ & Hcases).
  exists st, conn, rt'. split; [exact Hrun|].
  unfold first_error in Hcases. rewrite Hsock, Hconn, Hneg in Hcases.
  simpl in Hcases. destruct Hcases as (-> & _ & _).
  split; intros ->.
  - repeat split.
  - split; [reflexivity|]. split; [reflexivity|]. split; [reflexivity|].
    unfold Status.CloneAndPrepend, Status.make. simpl.
    destruct (decide (Status.message (StartConnectionNegotiation_result env) = ""))
      as [Hempty|Hfull].
    + exists "". split; [reflexivity|]. intros Hne. contradiction.
    + eexists. split; [reflexivity|]. intros _. reflexivity.
Qed.

Lemma FindOrStartConnection_negotiation_errors_witness :
  (exists conn rt',
     FindOrStartConnection (env_submit_fails pool_closing) sample_id 9000
       sample_thread
     = Ok (Status.ServiceUnavailable "Client RPC Messenger shutting down" "" (-1),
           conn) rt') /\
  (exists st conn rt',
     FindOrStartConnection (env_submit_fails pool_full) sample_id 9000
       sample_thread = Ok (st, conn) rt' /\
     Status.code st = Status.kServiceUnavailable /\
     Status.message st
       = "Unable to start connection negotiation thread: Thread pool queue is full").
Proof.
  split.
  - destruct (FindOrStartConnection_negotiation_errors
                (env_submit_fails pool_closing) sample_id 9000 sample_thread)
      as (_ & st & conn & rt' & Hrun & Hillegal & _);
      [reflexivity | reflexivity | reflexivity | reflexivity |].
    destruct Hillegal as (-> & _); [reflexivity|].
    exists conn, rt'. exact Hrun.
  - destruct (FindOrStartConnection_negotiation_errors
                (env_submit_fails pool_full) sample_id 9000 sample_thread)
      as (_ & st & conn & rt' & Hrun & _ & Hother);
      [reflexivity | reflexivity | reflexivity | reflexivity |].
    destruct Hother as (-> & _); [reflexivity|].
    eexists. exists conn, rt'. split; [exact Hrun|]. split; reflexivity.
Defined.

(** ** Assigning outbound calls *)

Lemma call_deadline_zero env call rt :
  call_timeout call = 0 ->
  call_deadline env call rt =
  Ok (MonoTime_Max env)
     (with_effects
        (effects rt ++ [LogWarning ("Client call " +:+ call_method call +:+
                                    " has no timeout set for connection id")])
        rt).
Proof.
  intros Hzero. unfold call_deadline, MonoDeltaOps.ToNanoseconds.
  rewrite Hzero. reflexivity.
Qed.

Lemma call_deadline_nonzero env call rt :
  call_timeout call <> 0 ->
  call_deadline env call rt =
  Ok (MonoTimeOps.AddDelta (now_fine env) (call_timeout call)) rt.
Proof.
  intros Hnz. unfold call_deadline, MonoDeltaOps.ToNanoseconds.
  destruct (call_timeout call =? 0) eqn:Heq; [|reflexivity].
  apply Z.eqb_eq in Heq. contradiction.
Qed.

Lemma call_deadline_frame env call rt :
  exists deadline rt1 es,
    call_deadline env call rt = Ok deadline rt1 /\
    effects rt1 = effects rt ++ es /\
    forallb (fun e => negb (is_set_failed e)) es = true /\
    forallb opens_nothing es = true /\
    client_conns_ rt1 = client_conns_ rt /\
    server_conns_ rt1 = server_conns_ rt /\
    heap rt1 = heap rt /\ next_conn rt1 = next_conn rt.
Proof.
  destruct (decide (call_timeout call = 0)) as [Hzero|Hnz].
  - rewrite (call_deadline_zero _ _ _ Hzero).
    eexists _, _, _. split; [reflexivity|]. simpl. repeat split.
  - rewrite (call_deadline_nonzero _ _ _ Hnz).
    exists (MonoTimeOps.AddDelta (now_fine env) (call_timeout call)), rt, [].
    rewrite app_nil_r. repeat split.
Qed.

Lemma marked_failed_yes call rt rt' es st :
  effects rt' = effects rt ++ es ++ [CallSetFailed call st] ->
  marked_failed call rt rt' = true.
Proof.
  intros Heff. unfold marked_failed. rewrite Heff, drop_app_length, last_snoc.
  apply bool_decide_eq_true. reflexivity.
Qed.

Lemma marked_failed_no call rt rt' es :
  effects rt' = effects rt ++ es ->
  forallb (fun e => negb (is_set_failed e)) es = true ->
  marked_failed call rt rt' = false.
Proof.
  intros Heff Hes. unfold marked_failed. rewrite Heff, drop_app_length.
  destruct (last es) as [e|] eqn:Hlast; [|reflexivity].
  apply last_Some_elem_of in Hlast.
  rewrite forallb_forall in Hes.
  apply list_elem_of_In, Hes in Hlast.
  destruct e; try reflexivity. discriminate.
Qed.

Lemma AssignOutboundCall_found env call rt c :
  client_conns_ rt !! call_conn_id call = Some c ->
  exists rt' es,
    AssignOutboundCall env call rt = Ok tt rt' /\
    client_conns_ rt' = client_conns_ rt /\
    server_conns_ rt' = server_conns_ rt /\
    next_conn rt' = next_conn rt /\
    heap rt' = heap_set (heap rt) c (ConnectionOps.QueueOutboundCall (heap rt c) call) /\
    effects rt' = effects rt ++ es /\
    forallb (fun e => negb (is_set_failed e)) es = true /\
    forallb opens_nothing es = true.
Proof.
  intros Hfound. unfold AssignOutboundCall.
  destruct (call_deadline_frame env call rt)
    as (d & rt1 & es & Hd & Heff & Hnf & Hno & Hcl & Hsrv & Hheap & Hnext).
  unfold bind at 1. rewrite Hd.
  unfold bind at 1.
  rewrite (FindOrStartConnection_found env _ d rt1 c) by (rewrite Hcl; exact Hfound).
  simpl. unfold update, modify. simpl.
  eexists _, es. split; [reflexivity|]. simpl.
  rewrite Hheap. repeat split; assumption.
Qed.

Lemma AssignOutboundCall_new env call rt :
  client_conns_ rt !! call_conn_id call = None ->
  exists rt',
    AssignOutboundCall env call rt = Ok tt rt' /\
    ((marked_failed call rt rt' = true /\
      client_conns_ rt' = client_conns_ rt) \/
     (marked_failed call rt rt' = false /\
      exists c, client_conns_ rt' !! call_conn_id call = Some c /\
                call ∈ outbound_calls_ (heap rt' c))).
Proof.
  intros Hnew. unfold AssignOutboundCall.
  destruct (call_deadline_frame env call rt)
    as (d & rt1 & es & Hd & Heff & Hnf & Hno & Hcl & Hsrv & Hheap & Hnext).
  unfold bind at 1. rewrite Hd.
  unfold bind at 1.
  destruct (FindOrStartConnection_new env (call_conn_id call) d rt1)
    as (st & conn & rt2 & -> & _ & (es2 & Heff2 & Hnf2) & _ & Hconn & Hcases);
    [rewrite Hcl; exact Hnew|].
  simpl. destruct (Status.ok st) eqn:Hok; simpl.
  - rewrite (Hconn eq_refl). unfold update, modify. simpl.
    eexists. split; [reflexivity|]. right. split.
    + apply (marked_failed_no _ _ _ (es ++ es2)).
      * simpl. rewrite Heff2, Heff, app_assoc. reflexivity.
      * rewrite forallb_app, Hnf, Hnf2. reflexivity.
    + destruct (first_error env) as [[stage e]|] eqn:Herr.
      * exfalso. pose proof (first_error_not_ok _ _ _ Herr) as Hbad.
        destruct stage; destruct Hcases as (-> & _); try congruence.
        destruct (Status.IsIllegalState e); [discriminate|].
        rewrite ok_CloneAndPrepend in Hok. congruence.
      * destruct Hcases as (_ & _ & Htable).
        exists (next_conn rt1). simpl. rewrite Htable, lookup_insert_eq.
        split; [reflexivity|]. rewrite heap_set_eq. simpl.
        apply elem_of_app. right. apply list_elem_of_singleton. reflexivity.
  - unfold emit, modify. simpl.
    eexists. split; [reflexivity|]. left. split.
    + apply (marked_failed_yes _ _ _ (es ++ es2) st).
      simpl. rewrite Heff2, Heff, <- !app_assoc. reflexivity.
    + simpl. destruct (first_error env) as [[stage e]|] eqn:Herr.
      * rewrite <- Hcl. destruct stage; destruct Hcases as (_ & _ & Ht); exact Ht.
      * destruct Hcases as (-> & _). discriminate.
Qed.

Lemma map_to_list_one_entry `{Countable K} {V} (m : gmap K V) (k : K) (v : V) :
  m !! k = Some v ->
  filter (fun kv => kv.1 = k) (map_to_list m) = [(k, v)].
Proof.
  intros Hk. apply Permutation_singleton_r.
  rewrite <- (map_to_list_delete m k v Hk).
  rewrite filter_cons. simpl. destruct (decide (k = k)) as [_|Hne]; [|congruence].
  apply Permutation_skip.
  assert (Hnone : filter (fun kv : K * V => kv.1 = k) (map_to_list (delete k m)) = []).
  { destruct (filter (fun kv : K * V => kv.1 = k) (map_to_list (delete k m)))
      as [|[k' v'] rest] eqn:Hf; [reflexivity|]. exfalso.
    assert (Hin : (k', v') ∈ filter (fun kv : K * V => kv.1 = k)
                               (map_to_list (delete k m)))
      by (rewrite Hf; left).
    apply list_elem_of_filter in Hin as [Heq Hin]. simpl in Heq. subst k'.
    apply elem_of_map_to_list in Hin.
    rewrite lookup_delete_eq in Hin. discriminate. }
  rewrite Hnone. reflexivity.
Qed.

(** ** C6 *)

(** C6. A [ConnectionId] that is already a key of [client_conns_] makes
    [FindOrStartConnection] return the existing connection and leave the
    loop state as it is (no socket, no new entry).  Hence, after a
    successful [AssignOutboundCall], a second one with an equal
    [ConnectionId] succeeds by lookup alone: the table does not change
    and holds exactly one entry for that id, no connection object is
    created, no socket is opened and no negotiation submitted, and both
    calls sit in the queue of the same connection. *)
Theorem client_connection_reuse :
  forall (env1 env2 : Env) (call1 call2 : OutboundCall) (deadline : MonoTime)
         (rt rt1 : ReactorThread),
    (forall c,
        client_conns_ rt !! call_conn_id call1 = Some c ->
        FindOrStartConnection env1 (call_conn_id call1) deadline rt
          = Ok (Status.OK, Some c) rt) /\
    (call_conn_id call1 = call_conn_id call2 ->
     AssignOutboundCall env1 call1 rt = Ok tt rt1 ->
     marked_failed call1 rt rt1 = false ->
     exists c rt2 es,
       AssignOutboundCall env2 call2 rt1 = Ok tt rt2 /\
       marked_failed call2 rt1 rt2 = false /\
       client_conns_ rt1 !! call_conn_id call1 = Some c /\
       client_conns_ rt2 = client_conns_ rt1 /\
       filter (fun kv => kv.1 = call_conn_id call1)
              (map_to_list (client_conns_ rt2)) = [(call_conn_id call1, c)] /\
       next_conn rt2 = next_conn rt1 /\
       effects rt2 = effects rt1 ++ es /\
       forallb opens_nothing es = true /\
       call1 ∈ outbound_calls_ (heap rt2 c) /\
       call2 ∈ outbound_calls_ (heap rt2 c)).
Proof.
  intros env1 env2 call1 call2 deadline rt rt1. split.
  - intros c Hfound. apply FindOrStartConnection_found, Hfound.
  - intros Hid Hfirst Hok1.
    assert (Hreg : exists c, client_conns_ rt1 !! call_conn_id call1 = Some c /\
                             call1 ∈ outbound_calls_ (heap rt1 c)).
    { destruct (client_conns_ rt !! call_conn_id call1) as [c|] eqn:Hlook.
      - destruct (AssignOutboundCall_found env1 call1 rt c Hlook)
          as (rt1' & es & Hrun & Hcl & _ & _ & Hheap & _).
        rewrite Hrun in Hfirst. injection Hfirst as <-.
        exists c. rewrite Hcl, Hheap, heap_set_eq. split; [exact Hlook|].
        simpl. apply elem_of_app. right. apply list_elem_of_singleton. reflexivity.
      - destruct (AssignOutboundCall_new env1 call1 rt Hlook)
          as (rt1' & Hrun & [[Hfailed _]|[_ Hdone]]);
          rewrite Hrun in Hfirst; injection Hfirst as <-.
        + congruence.
        + exact Hdone. }
    destruct Hreg as (c & Hc & Hq1).
    destruct (AssignOutboundCall_found env2 call2 rt1 c)
      as (rt2 & es & Hrun & Hcl & _ & Hnext & Hheap & Heff & Hnf & Hno);
      [rewrite <- Hid; exact Hc|].
    exists c, rt2, es. split; [exact Hrun|].
    split; [exact (marked_failed_no _ _ _ _ Heff Hnf)|].
    split; [exact Hc|]. split; [exact Hcl|].
    split; [apply map_to_list_one_entry; rewrite Hcl; exact Hc|].
    split; [exact Hnext|]. split; [exact Heff|]. split; [exact Hno|].
    rewrite Hheap, heap_set_eq. simpl.
    split; apply elem_of_app; [left; exact Hq1|right].
    apply list_elem_of_singleton. reflexivity.
Qed.

Lemma client_connection_reuse_witness :
  exists c rt2,
    AssignOutboundCall sample_env (sample_call 2 0) thread_after_first_call
      = Ok tt rt2 /\
    client_conns_ rt2 = client_conns_ thread_after_first_call /\
    filter (fun kv => kv.1 = sample_id) (map_to_list (client_conns_ rt2))
      = [(sample_id, c)] /\
    sample_call 1 1000000 ∈ outbound_calls_ (heap rt2 c) /\
    sample_call 2 0 ∈ outbound_calls_ (heap rt2 c).
Proof.
  destruct (client_connection_reuse sample_env sample_env
              (sample_call 1 1000000) (sample_call 2 0) 0
              sample_thread thread_after_first_call)
    as (_ & Hsecond).
  destruct Hsecond
    as (c & rt2 & es & Hrun & _ & _ & Hcl & Hone & _ & _ & _ & Hq1 & Hq2);
    [reflexivity | reflexivity | reflexivity |].
  exists c, rt2. repeat split; assumption.
Defined.

(** ** C9 *)

(** C9. In [AssignOutboundCall] a zero timeout gives the deadline
    [MonoTime::Max()] and logs a warning; a non-zero timeout gives the
    fine clock's now plus the timeout.  That deadline is passed to
    [FindOrStartConnection]; if it fails, the call is marked failed with
    the status it returned and no queue of any connection changes;
    otherwise the call is appended to the outbound queue of the
    connection it returned. *)
Theorem AssignOutboundCall_deadline_and_dispatch :
  forall (env : Env) (call : OutboundCall) (rt : ReactorThread),
    (call_timeout call = 0 ->
     call_deadline env call rt =
     Ok (MonoTime_Max env)
        (with_effects
           (effects rt ++ [LogWarning ("Client call " +:+ call_method call +:+
                                       " has no timeout set for connection id")])
           rt)) /\
    (call_timeout call <> 0 ->
     call_deadline env call rt = Ok (now_fine env + call_timeout call) rt) /\
    exists deadline rt1 st conn rt2 rt',
      call_deadline env call rt = Ok deadline rt1 /\
      heap rt1 = heap rt /\
      FindOrStartConnection env (call_conn_id call) deadline rt1
        = Ok (st, conn) rt2 /\
      AssignOutboundCall env call rt = Ok tt rt' /\
      (Status.ok st = false ->
       rt' = with_effects (effects rt2 ++ [CallSetFailed call st]) rt2 /\
       forall p, outbound_calls_ (heap rt' p) = outbound_calls_ (heap rt p) \/
                 outbound_calls_ (heap rt' p) = []) /\
      (Status.ok st = true ->
       exists c,
         conn = Some c /\
         rt' = with_heap
                 (heap_set (heap rt2) c
                    (ConnectionOps.QueueOutboundCall (heap rt2 c) call)) rt2 /\
         outbound_calls_ (heap rt' c) = outbound_calls_ (heap rt2 c) ++ [call]).
Proof.
  intros env call rt.
  split; [apply call_deadline_zero|]. split; [apply call_deadline_nonzero|].
  destruct (call_deadline_frame env call rt)
    as (d & rt1 & es & Hd & Heff & Hnf & Hno & Hcl & Hsrv & Hheap & Hnext).
  assert (Hfind : exists st conn rt2,
             FindOrStartConnection env (call_conn_id call) d rt1 = Ok (st, conn) rt2 /\
             (forall p, heap rt2 p = heap rt1 p \/ outbound_calls_ (heap rt2 p) = []) /\
             (Status.ok st = true -> exists c, conn = Some c)).
  { destruct (client_conns_ rt1 !! call_conn_id call) as [c|] eqn:Hlook.
    - exists Status.OK, (Some c), rt1.
      split; [apply FindOrStartConnection_found, Hlook|].
      split; [auto|]. intros _. exists c. reflexivity.
    - destruct (FindOrStartConnection_new env (call_conn_id call) d rt1 Hlook)
        as (st & conn & rt2 & Hrun & _ & _ & Hh & Hconn & _).
      exists st, conn, rt2. split; [exact Hrun|]. split.
      + intros p. destruct (Hh p) as [Hsame|[_ Hempty]]; auto.
      + intros Hok. eexists. apply Hconn, Hok. }
  destruct Hfind as (st & conn & rt2 & Hrun & Hh & Hconn).
  unfold AssignOutboundCall. unfold bind at 1. rewrite Hd.
  unfold bind at 1. rewrite Hrun. simpl.
  destruct (Status.ok st) eqn:Hok; simpl.
  - destruct (Hconn eq_refl) as [c ->]. unfold update, modify. simpl.
    eexists d, rt1, st, (Some c), rt2, _.
    split; [reflexivity|]. split; [exact Hheap|].
    split; [exact Hrun|]. split; [reflexivity|].
    split; [intros Hno'; congruence|]. intros _. exists c.
    split; [reflexivity|]. split; [reflexivity|].
    simpl. rewrite heap_set_eq. reflexivity.
  - unfold emit, modify. simpl.
    eexists d, rt1, st, conn, rt2, _.
    split; [reflexivity|]. split; [exact Hheap|].
    split; [exact Hrun|]. split; [reflexivity|].
    split; [|intros Hyes; congruence]. intros _. split; [reflexivity|].
    intros p. simpl. destruct (Hh p) as [Hsame|Hempty].
    + left. rewrite Hsame, Hheap. reflexivity.
    + right. exact Hempty.
Qed.

Lemma AssignOutboundCall_deadline_and_dispatch_witness :
  (exists rt1,
     call_deadline sample_env (sample_call 2 0) sample_thread
       = Ok (2 ^ 63 - 1) rt1 /\
     effects rt1 =
       [LogWarning "Client call Add has no timeout set for connection id"]) /\
  call_deadline sample_env (sample_call 1 1000000) sample_thread
    = Ok 1005000 sample_thread.
Proof.
  destruct (AssignOutboundCall_deadline_and_dispatch
              sample_env (sample_call 2 0) sample_thread) as (Hzero & _ & _).
  destruct (AssignOutboundCall_deadline_and_dispatch
              sample_env (sample_call 1 1000000) sample_thread) as (_ & Hnz & _).
  split.
  - eexists. split; [apply Hzero; reflexivity|]. reflexivity.
  - apply Hnz. discriminate.
Defined.

(** ** Scanning for idle connections *)

Lemma timed_out_iff rt c :
  timed_out rt c = true <->
  idle_ (heap rt c) = true /\
  (connection_keepalive_time_ rt < cur_time_ rt - last_activity_time_ (heap rt c))%Z.
Proof.
  unfold timed_out. rewrite andb_true_iff, Z.ltb_lt. reflexivity.
Qed.

Lemma timed_out_after_shutdown rt c st c' :
  timed_out (with_heap (heap_set (heap rt) c
                          (ConnectionOps.Shutdown (heap rt c) st)) rt) c'
  = timed_out rt c'.
Proof.
  unfold timed_out, heap_set. simpl.
  destruct (decide (c' = c)) as [->|_]; reflexivity.
Qed.

Lemma with_heap_same rt : with_heap (heap rt) rt = rt.
Proof. destruct rt; reflexivity. Qed.

Lemma scan_from_spec env l :
  forall n rt,
    exists n' h',
      scan_from env l n rt =
      Ok (filter (fun c => timed_out rt c = false) l, n') (with_heap h' rt) /\
      (forall c, c ∈ l -> timed_out rt c = true ->
                 h' c = ConnectionOps.Shutdown (heap rt c)
                          (timed_out_error env (connection_keepalive_time_ rt))) /\
      (forall c, c ∉ l \/ timed_out rt c = false -> h' c = heap rt c).
Proof.
  induction l as [|c rest IH]; intros n rt.
  - exists n, (heap rt). simpl. unfold ret. rewrite with_heap_same.
    split; [reflexivity|]. split; [|reflexivity].
    intros c Hin. apply elem_of_nil in Hin. contradiction.
  - assert (Hkeep : timed_out rt c = false ->
            exists n' h',
              (r <- scan_from env rest n ;; ret (c :: r.1, r.2)) rt =
              Ok (filter (fun c0 => timed_out rt c0 = false) (c :: rest), n')
                 (with_heap h' rt) /\
              (forall c0, c0 ∈ c :: rest -> timed_out rt c0 = true ->
                 h' c0 = ConnectionOps.Shutdown (heap rt c0)
                           (timed_out_error env (connection_keepalive_time_ rt))) /\
              (forall c0, c0 ∉ c :: rest \/ timed_out rt c0 = false ->
                 h' c0 = heap rt c0)).
    { intros Hc. destruct (IH n rt) as (n' & h' & Hrun & Hshut & Hsame).
      exists n', h'. unfold bind. rewrite Hrun. unfold ret. simpl.
      rewrite filter_cons, decide_True by exact Hc.
      split; [reflexivity|]. split.
      - intros c0 Hin Hto. apply elem_of_cons in Hin as [->|Hin]; [congruence|].
        apply Hshut; assumption.
      - intros c0 [Hnot|Hto].
        + apply Hsame. left. intros Hin. apply Hnot. right. exact Hin.
        + apply Hsame. right. exact Hto. }
    simpl scan_from. unfold bind at 1. unfold deref, bind at 1, get.
    unfold ret at 1. cbv beta iota.
    destruct (idle_ (heap rt c)) eqn:Hidle; cbn [negb].
    2:{ destruct Hkeep as (n' & h' & Hk);
          [unfold timed_out; rewrite Hidle; reflexivity|].
        exists n', h'. exact Hk. }
    unfold bind at 1. cbv beta iota.
    destruct (MonoDeltaOps.MoreThan
                (MonoTimeOps.GetDeltaSince (cur_time_ rt)
                   (last_activity_time_ (heap rt c)))
                (connection_keepalive_time_ rt)) eqn:Hmore.
    2:{ destruct Hkeep as (n' & h' & Hk);
          [unfold timed_out; rewrite Hidle; exact Hmore|].
        exists n', h'. exact Hk. }
    assert (Hc : timed_out rt c = true).
    { unfold timed_out. rewrite Hidle. exact Hmore. }
    unfold bind at 1. unfold update, modify. cbv beta iota.
    match goal with
    | |- context [scan_from env rest ?m ?s] =>
        destruct (IH m s) as (n' & h' & Hrun & Hshut & Hsame); rewrite Hrun
    end.
    exists n', h'. simpl connection_keepalive_time_ in *.
    split.
    + rewrite filter_cons, decide_False by congruence.
      f_equal. f_equal.
      apply list_filter_iff. intros c0.
      rewrite timed_out_after_shutdown. reflexivity.
    + split.
      * intros c0 Hin Hto. destruct (decide (c0 ∈ rest)) as [Hrest|Hrest].
        -- rewrite (Hshut c0 Hrest) by (rewrite timed_out_after_shutdown; exact Hto).
           simpl. unfold heap_set.
           destruct (decide (c0 = c)) as [->|_]; reflexivity.
        -- apply elem_of_cons in Hin as [->|Hin]; [|contradiction].
           rewrite Hsame by (left; exact Hrest).
           simpl. apply heap_set_eq.
      * intros c0 Hcase.
        assert (Hne : c0 <> c).
        { intros ->. destruct Hcase as [Hnot|Hto]; [|congruence].
          apply Hnot. left. }
        rewrite Hsame.
        -- simpl. apply heap_set_ne, Hne.
        -- destruct Hcase as [Hnot|Hto].
           ++ left. intros Hin. apply Hnot. right. exact Hin.
           ++ right. rewrite timed_out_after_shutdown. exact Hto.
Qed.

(** ** C7 *)

(** C7. [ScanIdleConnections] removes from [server_conns_] exactly the
    connections that report idle and whose time since the last activity,
    measured against the cached [cur_time_], is strictly greater than
    the keepalive, and shuts each of them down with a network error
    whose message starts with "connection timed out".  Every other
    connection stays in the list, in order, and is not touched; neither
    is [client_conns_]. *)
Theorem ScanIdleConnections_removes_timed_out :
  forall (env : Env) (rt : ReactorThread),
    exists rt',
      ScanIdleConnections env rt = Ok tt rt' /\
      server_conns_ rt' =
        filter (fun c => timed_out rt c = false) (server_conns_ rt) /\
      (forall c, c ∈ server_conns_ rt ->
         (c ∈ server_conns_ rt' <->
          ~ (idle_ (heap rt c) = true /\
             connection_keepalive_time_ rt
               < cur_time_ rt - last_activity_time_ (heap rt c)))) /\
      (forall c, c ∈ server_conns_ rt -> c ∉ server_conns_ rt' ->
         heap rt' c =
           ConnectionOps.Shutdown (heap rt c)
             (timed_out_error env (connection_keepalive_time_ rt))) /\
      (Status.code (timed_out_error env (connection_keepalive_time_ rt))
         = Status.kNetworkError /\
       exists rest,
         Status.message (timed_out_error env (connection_keepalive_time_ rt))
           = "connection timed out" +:+ rest) /\
      (forall c, c ∉ server_conns_ rt \/ c ∈ server_conns_ rt' ->
         heap rt' c = heap rt c) /\
      client_conns_ rt' = client_conns_ rt /\
      cur_time_ rt' = cur_time_ rt /\
      effects rt' = effects rt.
Proof.
  intros env rt. unfold ScanIdleConnections.
  unfold bind at 1. unfold get. unfold bind at 1.
  destruct (scan_from_spec env (server_conns_ rt) 0 rt)
    as (n' & h' & -> & Hshut & Hsame).
  unfold modify. simpl.
  eexists. split; [reflexivity|]. simpl.
  assert (Hmem : forall c, c ∈ server_conns_ rt ->
            (c ∈ filter (fun c => timed_out rt c = false) (server_conns_ rt)
             <-> timed_out rt c = false)).
  { intros c Hin. rewrite list_elem_of_filter. tauto. }
  split; [reflexivity|]. split.
  { intros c Hin. rewrite (Hmem c Hin), <- timed_out_iff.
    destruct (timed_out rt c); split; congruence. }
  split.
  { intros c Hin Hgone. apply Hshut; [exact Hin|].
    destruct (timed_out rt c) eqn:Hto; [reflexivity|].
    exfalso. apply Hgone. apply Hmem; assumption. }
  split.
  { split; [reflexivity|]. eexists. reflexivity. }
  split.
  { intros c [Hnot|Hkept]; apply Hsame; [left; exact Hnot|right].
    apply list_elem_of_filter in Hkept. tauto. }
  repeat split.
Qed.

(** On the sample loop the scan drops connection 2 only. *)
Lemma ScanIdleConnections_removes_timed_out_witness :
  exists rt',
    ScanIdleConnections sample_env scan_thread = Ok tt rt' /\
    server_conns_ rt' = [1%nat; 3%nat] /\
    shutdown_status_ (heap rt' 2%nat)
      = Some (Status.NetworkError "connection timed out after 65.000 seconds") /\
    heap rt' 1%nat = heap scan_thread 1%nat /\
    heap rt' 3%nat = heap scan_thread 3%nat /\
    client_conns_ rt' = client_conns_ scan_thread.
Proof.
  destruct (ScanIdleConnections_removes_timed_out sample_env scan_thread)
    as (rt' & Hrun & Hsrv & _ & Hshut & _ & Hsame & Hcl & _).
  change (filter (fun c => timed_out scan_thread c = false)
                 (server_conns_ scan_thread))
    with [1%nat; 3%nat] in Hsrv.
  exists rt'. split; [exact Hrun|]. split; [exact Hsrv|].
  split.
  - rewrite Hshut; [reflexivity| |].
    + apply list_elem_of_further, list_elem_of_here.
    + rewrite Hsrv. intros Hin.
      apply elem_of_cons in Hin as [Heq|Hin]; [discriminate|].
      apply elem_of_cons in Hin as [Heq|Hin]; [discriminate|].
      apply elem_of_nil in Hin. exact Hin.
  - split; [|split; [|exact Hcl]]; apply Hsame; right; rewrite Hsrv.
    + apply list_elem_of_here.
    + apply list_elem_of_further, list_elem_of_here.
Defined.

(** ** The reactor under interleaving *)

Local Open Scope nat_scope.

Lemma count_if_app {A} (f : A -> bool) (l k : list A) :
  count_if f (l ++ k) = count_if f l + count_if f k.
Proof. induction l as [|x l IH]; simpl; [reflexivity|]. rewrite IH. lia. Qed.

Lemma count_if_remove_caller t t0 (l : list TaskPtr) :
  t0 ∈ l ->
  count_if (is_task t) l =
  (if is_task t t0 then 1 else 0) + count_if (is_task t) (remove_caller t0 l).
Proof.
  induction l as [|p l IH]; intros Hin.
  - apply elem_of_nil in Hin. contradiction.
  - simpl. case_decide as Hne; [subst; reflexivity|].
    apply elem_of_cons in Hin as [->|Hin]; [congruence|].
    simpl. rewrite (IH Hin). lia.
Qed.

Lemma init_inv : reactor_inv init.
Proof.
  split; simpl; try reflexivity; try congruence.
  - intros t st Hin. apply elem_of_nil in Hin. contradiction.
  - split; reflexivity.
Qed.

Ltac step_cases Hstep :=
  unfold step_fn, ScheduleReactorTask, DrainTaskQueue, ReactorThread_Shutdown,
    WakeThread, closing in Hstep;
  repeat match type of Hstep with
         | context [if closing_ ?r then _ else _] =>
             destruct (closing_ r) eqn:?; simpl in Hstep
         | context [match ?x with _ => _ end] => destruct x eqn:?; simpl in Hstep
         end;
  try discriminate Hstep;
  rewrite ?app_nil_r in Hstep;
  injection Hstep as <-.

Lemma step_accounting st s s' t :
  step_fn st s = Some s' ->
  times_scheduled t s = times_run t s + times_aborted t s + times_waiting t s ->
  times_scheduled t s' = times_run t s' + times_aborted t s' + times_waiting t s'.
Proof.
  intros Hstep. unfold times_scheduled, times_run, times_aborted, times_waiting.
  destruct st; step_cases Hstep; simpl;
    repeat match goal with
           | H : _ = _ |- _ => rewrite H in *; simpl in *
           end;
    rewrite ?count_if_app; simpl; try lia.
  all: intros Hacc.
  - apply bool_decide_eq_true in Heqb.
    rewrite (count_if_remove_caller t _ _ Heqb) in Hacc.
    unfold is_task in *. case_bool_decide; lia.
  - unfold is_task in *. case_bool_decide; lia.
  - unfold is_task in *. case_bool_decide; lia.
Qed.

Lemma step_abort_status st s s' :
  step_fn st s = Some s' ->
  (forall t e, Abort t e ∈ history s -> e = ShutdownError) ->
  forall t e, Abort t e ∈ history s' -> e = ShutdownError.
Proof.
  intros Hstep Hold t e.
  destruct st; step_cases Hstep; simpl; try apply Hold;
    rewrite elem_of_app; intros [Hin|Hin]; try (apply (Hold _ _ Hin));
    apply list_elem_of_singleton in Hin; congruence.
Qed.

Ltac recall :=
  repeat match goal with
         | H : ?x = _ |- context [?x] => rewrite H
         end.

Lemma step_inv st s s' :
  step_fn st s = Some s' -> reactor_inv s -> reactor_inv s'.
Proof.
  intros Hstep [Hacc Habort Hclosing Hret Hexit Hwake].
  split.
  - intros t. apply (step_accounting _ _ _ _ Hstep), Hacc.
  - apply (step_abort_status _ _ _ Hstep), Habort.
  - destruct st; step_cases Hstep; simpl; recall; try exact Hclosing;
      try (split; congruence);
      try (destruct Hclosing as [H1 H2]; split; intros; congruence);
      try (split; intros H; [apply Hclosing in H|]; discriminate H).
  - destruct st; step_cases Hstep; simpl; recall; try exact Hret; try congruence;
      try (intros Hr; destruct Hclosing as [H1 H2];
           specialize (H1 eq_refl); congruence).
  - destruct st; step_cases Hstep; simpl; recall; try exact Hexit; try congruence.
  - destruct st; step_cases Hstep; simpl; recall; try exact Hwake; try congruence;
      try (intros; right; right; lia);
      try (intros; left; reflexivity);
      try (intros; right; left; reflexivity).
    all: intros Hc Hp;
      first [ solve [apply Hclosing in Hc; congruence]
            | destruct (Hwake Hc Hp) as [?|[?|?]];
              [left; assumption | discriminate | right; right; assumption] ].
Qed.

Lemma run_inv steps : forall s s',
  run steps s = Some s' -> reactor_inv s -> reactor_inv s'.
Proof.
  induction steps as [|st steps IH]; intros s s' Hrun Hinv; simpl in Hrun.
  - injection Hrun as <-. exact Hinv.
  - destruct (step_fn st s) as [s1|] eqn:Hstep; [|discriminate].
    apply (IH s1 s' Hrun). apply (step_inv _ _ _ Hstep Hinv).
Qed.

Lemma reachable_inv s : reachable s -> reactor_inv s.
Proof. intros [steps Hrun]. apply (run_inv _ _ _ Hrun init_inv). Qed.

Lemma length_remove_caller t (l : list TaskPtr) :
  t ∈ l -> length l = S (length (remove_caller t l)).
Proof.
  induction l as [|p l IH]; intros Hin.
  - apply elem_of_nil in Hin. contradiction.
  - simpl. case_decide as Hne; [reflexivity|].
    apply elem_of_cons in Hin as [->|Hin]; [congruence|].
    simpl. rewrite (IH Hin). reflexivity.
Qed.

Lemma step_budget st s s' :
  internal st = true -> step_fn st s = Some s' -> budget s' < budget s.
Proof.
  intros Hint Hstep. unfold budget.
  destruct st; try discriminate Hint; step_cases Hstep; simpl; recall; simpl;
    try lia.
  all: try (destruct (async_pending s); lia).
  apply bool_decide_eq_true in Heqb.
  rewrite (length_remove_caller _ _ Heqb). lia.
Qed.

Lemma not_quiescent_progress s :
  reactor_inv s -> ~ quiescent s ->
  exists st s', internal st = true /\ step_fn st s = Some s'.
Proof.
  intros Hinv Hbusy. unfold quiescent in Hbusy.
  destruct (to_abort s) as [|t rest] eqn:Habort.
  2:{ exists (ScheduleAbort t). simpl. rewrite Habort.
      rewrite bool_decide_eq_true_2 by left. eexists; split; reflexivity. }
  destruct (to_wake s) as [|n] eqn:Hwake.
  2:{ exists ScheduleWake. simpl. rewrite Hwake. eexists; split; reflexivity. }
  destruct (shutdown_pc s) eqn:Hsd.
  2:{ exists ShutdownWake. simpl. rewrite Hsd.
      unfold ReactorThread_Shutdown, closing.
      destruct (closing_ (reactor s)) eqn:Hcl; [eexists; split; reflexivity|].
      apply (inv_closing s Hinv) in Hcl. congruence. }
  2:{ destruct (pending_tasks_ (reactor s)) as [|t rest] eqn:Hpend.
      - exists ShutdownReturn. simpl. rewrite Hsd, Hpend.
        eexists; split; reflexivity.
      - exists ShutdownAbort. simpl. rewrite Hsd, Hpend.
        eexists; split; reflexivity. }
  all: destruct (loop_pc s) as [| |tasks|] eqn:Hpc;
    try (exists AsyncDrain; simpl; rewrite Hpc; eexists; split; reflexivity);
    try (destruct tasks as [|t tasks];
         [exists AsyncReturn|exists AsyncRun]; simpl; rewrite Hpc;
         eexists; split; reflexivity);
    try (exfalso; apply Hbusy; auto 10; fail).
  all: destruct (async_pending s) eqn:Hasync;
    try (exists AsyncBegin; simpl; rewrite Hpc, Hasync;
         eexists; split; reflexivity);
    exfalso; apply Hbusy; auto 10.
Qed.

Lemma quiescent_nothing_waiting s :
  reactor_inv s -> quiescent s ->
  pending_tasks_ (reactor s) = [] /\ local_tasks (loop_pc s) = [] /\
  to_abort s = [].
Proof.
  intros Hinv (Habort & Hwake & Hsd & Hloop).
  split; [|split; [|exact Habort]].
  - destruct Hsd as [Hsd|Hsd]; [|apply (inv_returned s Hinv Hsd)].
    apply (inv_closing s Hinv) in Hsd.
    destruct (pending_tasks_ (reactor s)) as [|t rest] eqn:Hpend; [reflexivity|].
    exfalso. destruct Hloop as [Hexit|[Hwait Hasync]].
    + apply (inv_exited s Hinv) in Hexit. congruence.
    + destruct (inv_wake s Hinv Hsd) as [H|[H|H]];
        [rewrite Hpend; discriminate | congruence | congruence | lia].
  - destruct Hloop as [->|[-> _]]; reflexivity.
Qed.

Lemma tasks_run_app h k : tasks_run (h ++ k) = tasks_run h ++ tasks_run k.
Proof.
  induction h as [|a h IH]; simpl; [reflexivity|].
  destruct a; simpl; rewrite IH; reflexivity.
Qed.

Lemma abort_pending_map pending :
  abort_pending pending = map (fun t => Abort t ShutdownError) pending.
Proof. induction pending as [|t l IH]; simpl; [|rewrite IH]; reflexivity. Qed.

Lemma run_tasks_map tasks : run_tasks tasks = map Run tasks.
Proof. induction tasks as [|t l IH]; simpl; [|rewrite IH]; reflexivity. Qed.

Lemma ScheduleReactorTask_closing r t :
  closing_ r = true -> ScheduleReactorTask r t = (r, [Abort t ShutdownError]).
Proof. intros H. unfold ScheduleReactorTask. rewrite H. reflexivity. Qed.

Lemma DrainTaskQueue_closing r tasks :
  closing_ r = true -> DrainTaskQueue r tasks = (false, r, tasks).
Proof. intros H. unfold DrainTaskQueue. rewrite H. reflexivity. Qed.

Lemma Reactor_Shutdown_closing r :
  closing_ r = true -> Reactor_Shutdown r = Some (r, []).
Proof. intros H. unfold Reactor_Shutdown. rewrite H. reflexivity. Qed.

Lemma Reactor_Shutdown_first r :
  closing_ r = false ->
  Reactor_Shutdown r =
  Some ({| closing_ := true; pending_tasks_ := [] |},
        AsyncSend :: map (fun t => Abort t ShutdownError) (pending_tasks_ r)).
Proof.
  intros H. unfold Reactor_Shutdown. rewrite H. simpl.
  rewrite abort_pending_map. reflexivity.
Qed.

(** Once the flag is set, a step keeps it set, takes nothing out of the
    pending queue for running, and runs at most the head of the loop's
    local list. *)
Lemma step_after_closing st s s' :
  closing_ (reactor s) = true ->
  step_fn st s = Some s' ->
  closing_ (reactor s') = true /\
  (shutdown_pc s = SdReturned -> shutdown_pc s' = SdReturned) /\
  (pending_tasks_ (reactor s) = [] -> pending_tasks_ (reactor s') = []) /\
  exists new,
    history s' = history s ++ new /\
    local_tasks (loop_pc s) = tasks_run new ++ local_tasks (loop_pc s').
Proof.
  intros Hcl Hstep.
  destruct st; step_cases Hstep; simpl; recall; try congruence;
    (split; [try reflexivity; try assumption|]);
    (split; [try congruence; try tauto|]);
    (split; [try congruence; try tauto|]);
    try (exists []; rewrite app_nil_r; split; reflexivity);
    try (eexists; split; reflexivity).
Qed.

Lemma run_after_closing more : forall s s',
  closing_ (reactor s) = true ->
  run more s = Some s' ->
  closing_ (reactor s') = true /\
  (shutdown_pc s = SdReturned -> shutdown_pc s' = SdReturned) /\
  (pending_tasks_ (reactor s) = [] -> pending_tasks_ (reactor s') = []) /\
  exists new,
    history s' = history s ++ new /\
    local_tasks (loop_pc s) = tasks_run new ++ local_tasks (loop_pc s').
Proof.
  induction more as [|st more IH]; intros s s' Hcl Hrun; simpl in Hrun.
  - injection Hrun as <-. repeat split; try tauto.
    exists []. rewrite app_nil_r. split; reflexivity.
  - destruct (step_fn st s) as [s1|] eqn:Hstep; [|discriminate].
    destruct (step_after_closing _ _ _ Hcl Hstep)
      as (Hcl1 & Hsd1 & Hp1 & new1 & Hh1 & Hl1).
    destruct (IH s1 s' Hcl1 Hrun) as (Hcl2 & Hsd2 & Hp2 & new2 & Hh2 & Hl2).
    repeat split; try tauto.
    exists (new1 ++ new2). rewrite Hh2, Hh1, Hl1, Hl2, tasks_run_app.
    rewrite <- !app_assoc. split; reflexivity.
Qed.

Lemma run_app steps more : forall s s1 s2,
  run steps s = Some s1 -> run more s1 = Some s2 -> run (steps ++ more) s = Some s2.
Proof.
  induction steps as [|st steps IH]; intros s s1 s2 H1 H2; simpl in *.
  - injection H1 as <-. exact H2.
  - destruct (step_fn st s); [|discriminate]. eapply IH; eassumption.
Qed.

(** ** C8 *)

(** C8. The first call of [Reactor::Shutdown] sets the closing flag,
    wakes the loop and aborts every pending task with the shutdown
    error, leaving the queue empty; a call that finds the flag set
    returns the reactor as it is and does nothing, so any number of
    further calls changes neither the state nor what has been done.
    Under interleaving the locked region of such a call is a step that
    leaves the whole system as it is. *)
Theorem Reactor_Shutdown_idempotent :
  forall (r : Reactor) (n : nat) (s : Sys),
    (closing_ r = false ->
     Reactor_Shutdown r =
     Some ({| closing_ := true; pending_tasks_ := [] |},
           AsyncSend :: map (fun t => Abort t ShutdownError) (pending_tasks_ r))) /\
    (closing_ r = true -> Reactor_Shutdown r = Some (r, [])) /\
    shutdown_times (S n) r = Reactor_Shutdown r /\
    (closing_ (reactor s) = true -> step_fn CallShutdown s = Some s).
Proof.
  intros r n s.
  split; [apply Reactor_Shutdown_first|].
  split; [apply Reactor_Shutdown_closing|].
  split.
  - assert (Hrest : forall m r', closing_ r' = true ->
                                 shutdown_times m r' = Some (r', [])).
    { induction m as [|m IH]; intros r' Hcl; simpl; [reflexivity|].
      rewrite (Reactor_Shutdown_closing _ Hcl), (IH _ Hcl). reflexivity. }
    simpl. destruct (closing_ r) eqn:Hcl.
    + rewrite (Reactor_Shutdown_closing _ Hcl), (Hrest _ _ Hcl). reflexivity.
    + rewrite (Reactor_Shutdown_first _ Hcl), Hrest by reflexivity.
      rewrite app_nil_r. reflexivity.
  - intros Hcl. simpl. rewrite Hcl. reflexivity.
Qed.

Lemma Reactor_Shutdown_idempotent_witness :
  Reactor_Shutdown {| closing_ := false; pending_tasks_ := [4; 5]%nat |}
    = Some ({| closing_ := true; pending_tasks_ := [] |},
            [AsyncSend; Abort 4%nat ShutdownError; Abort 5%nat ShutdownError]) /\
  Reactor_Shutdown {| closing_ := true; pending_tasks_ := [] |}
    = Some ({| closing_ := true; pending_tasks_ := [] |}, []) /\
  shutdown_times 3 {| closing_ := false; pending_tasks_ := [4; 5]%nat |}
    = Some ({| closing_ := true; pending_tasks_ := [] |},
            [AsyncSend; Abort 4%nat ShutdownError; Abort 5%nat ShutdownError]).
Proof.
  destruct (Reactor_Shutdown_idempotent
              {| closing_ := false; pending_tasks_ := [4; 5]%nat |} 2 init)
    as (Hfirst & _ & Htimes & _).
  destruct (Reactor_Shutdown_idempotent
              {| closing_ := true; pending_tasks_ := [] |} 0 init)
    as (_ & Hagain & _).
  split; [apply Hfirst; reflexivity|].
  split; [apply Hagain; reflexivity|].
  rewrite Htimes. apply Hfirst. reflexivity.
Defined.

(** ** C1 *)

(** The loops of [AsyncHandler] and of [Shutdown], run to their end. *)
Lemma run_local_list tasks : forall s,
  loop_pc s = LoopRunning tasks ->
  exists s',
    run (repeat AsyncRun (length tasks) ++ [AsyncReturn]) s = Some s' /\
    loop_pc s' = LoopWaiting /\ reactor s' = reactor s /\
    history s' = history s ++ map Run tasks.
Proof.
  induction tasks as [|t tasks IH]; intros s Hpc; simpl.
  - rewrite Hpc. eexists. split; [reflexivity|]. simpl.
    rewrite app_nil_r. auto.
  - rewrite Hpc.
    match goal with
    | |- context [run _ ?s1] =>
        destruct (IH s1 eq_refl) as (s' & Hrun & Hw & Hr & Hh)
    end.
    exists s'. split; [exact Hrun|]. simpl in *.
    rewrite Hh, <- app_assoc. auto.
Qed.

Lemma run_drain_loop pending : forall s,
  shutdown_pc s = SdDraining ->
  pending_tasks_ (reactor s) = pending ->
  exists s',
    run (repeat ShutdownAbort (length pending) ++ [ShutdownReturn]) s = Some s' /\
    shutdown_pc s' = SdReturned /\
    reactor s' = {| closing_ := closing_ (reactor s); pending_tasks_ := [] |} /\
    history s' = history s ++ map (fun t => Abort t ShutdownError) pending.
Proof.
  induction pending as [|t pending IH]; intros s Hsd Hpend; simpl.
  - rewrite Hsd, Hpend. eexists. split; [reflexivity|]. simpl.
    rewrite app_nil_r. destruct (reactor s); simpl in *. subst. auto.
  - rewrite Hsd, Hpend.
    match goal with
    | |- context [run _ ?s1] =>
        destruct (IH s1 eq_refl eq_refl) as (s' & Hrun & Hret & Hr & Hh)
    end.
    exists s'. split; [exact Hrun|]. simpl in *.
    rewrite Hh, <- app_assoc. auto.
Qed.

Lemma ShutdownInternal_empties rt :
  exists rt',
    ShutdownInternal rt = Ok tt rt' /\
    client_conns_ rt' = ∅ /\ server_conns_ rt' = [].
Proof.
  unfold ShutdownInternal. unfold_m. simpl.
  eexists. split; [reflexivity|]. split; reflexivity.
Qed.

(** Each of the three functions, called with no other thread in between,
    is one path of the interleaving: the path ends in the reactor the
    function returns and has added to the history the actions the
    function takes. *)
Lemma schedule_pass_refines s t :
  exists s',
    run (schedule_pass s t) s = Some s' /\
    reactor s' = (ScheduleReactorTask (reactor s) t).1 /\
    history s' = history s ++ (ScheduleReactorTask (reactor s) t).2 /\
    scheduled s' = scheduled s ++ [t].
Proof.
  unfold schedule_pass, ScheduleReactorTask.
  destruct (closing_ (reactor s)) eqn:Hcl; simpl;
    unfold ScheduleReactorTask; rewrite Hcl; simpl.
  - rewrite bool_decide_eq_true_2
      by (apply elem_of_app; right; apply list_elem_of_singleton; reflexivity).
    eexists. split; [reflexivity|]. simpl. auto.
  - eexists. split; [reflexivity|]. simpl. auto.
Qed.

Lemma handler_pass_refines s rt :
  loop_pc s = LoopWaiting -> async_pending s = true ->
  exists s' acts rt',
    run (handler_pass s) s = Some s' /\
    AsyncHandler (reactor s) rt = Ok (reactor s', acts) rt' /\
    history s' = history s ++ acts /\
    loop_pc s' = (if closing (reactor s) then LoopExited else LoopWaiting).
Proof.
  intros Hpc Hsent. unfold handler_pass, AsyncHandler, closing.
  destruct (closing_ (reactor s)) eqn:Hcl.
  - destruct (ShutdownInternal_empties rt) as (rt' & Hdown & _).
    cbn [run step_fn]. rewrite Hpc, Hsent. unfold closing. rewrite Hcl.
    eexists _, [BreakLoop], rt'. split; [reflexivity|]. simpl.
    unfold bind, ret. rewrite Hdown. auto.
  - cbn [run]. cbn [step_fn]. rewrite Hpc, Hsent. unfold closing. rewrite Hcl.
    cbn [run]. cbn [step_fn loop_pc]. unfold DrainTaskQueue. cbn [reactor].
    rewrite Hcl. cbn [fst snd].
    match goal with
    | |- context [run _ ?s1] =>
        destruct (run_local_list (pending_tasks_ (reactor s)) s1 eq_refl)
          as (s' & Hrun & Hw & Hr & Hh)
    end.
    exists s', (map Run (pending_tasks_ (reactor s))), rt.
    split; [exact Hrun|]. simpl in Hr, Hh. rewrite Hr, Hh, run_tasks_map.
    unfold ret. auto.
Qed.

Lemma shutdown_pass_refines s :
  exists s' acts,
    run (shutdown_pass s) s = Some s' /\
    Reactor_Shutdown (reactor s) = Some (reactor s', acts) /\
    history s' = history s ++ acts.
Proof.
  unfold shutdown_pass.
  destruct (closing_ (reactor s)) eqn:Hcl.
  - exists s, []. cbn [run step_fn]. rewrite Hcl.
    rewrite (Reactor_Shutdown_closing _ Hcl), app_nil_r. auto.
  - cbn [run]. cbn [step_fn]. rewrite Hcl.
    cbn [run]. cbn [step_fn shutdown_pc reactor].
    unfold ReactorThread_Shutdown, closing. cbn [closing_].
    match goal with
    | |- context [run _ ?s1] =>
        destruct (run_drain_loop (pending_tasks_ (reactor s)) s1 eq_refl eq_refl)
          as (s' & Hrun & Hret & Hr & Hh)
    end.
    exists s', (AsyncSend :: map (fun t => Abort t ShutdownError)
                                 (pending_tasks_ (reactor s))).
    split; [exact Hrun|]. simpl in Hr, Hh.
    rewrite Hr, Hh, (Reactor_Shutdown_first _ Hcl), <- app_assoc. auto.
Qed.

(** Left to themselves, the threads at work come to rest. *)
Lemma settles n : forall s,
  reactor_inv s -> budget s < n ->
  exists sched s',
    forallb internal sched = true /\ run sched s = Some s' /\ quiescent s'.
Proof.
  induction n as [|n IH]; intros s Hinv Hlt; [lia|].
  destruct (decide (quiescent s)) as [Hq|Hbusy].
  - exists [], s. auto.
  - destruct (not_quiescent_progress s Hinv Hbusy) as (st & s1 & Hint & Hstep).
    pose proof (step_budget _ _ _ Hint Hstep) as Hless.
    destruct (IH s1 (step_inv _ _ _ Hstep Hinv))
      as (sched & s' & Hall & Hrun & Hq); [lia|].
    exists (st :: sched), s'. split; [simpl; rewrite Hint; exact Hall|].
    split; [cbn [run]; rewrite Hstep; exact Hrun | exact Hq].
Qed.

(** C1. Every task handed to [ScheduleReactorTask] is accounted for at
    all times: the number of times it was submitted is the number of
    times it was run plus the number of times it was aborted plus the
    number of places where it still waits (pending queue, the loop's
    local list, a caller about to abort it).  So a task submitted once
    is never both run and aborted, and never dropped.  The three ways
    out are the ones of the code.  [ScheduleReactorTask] on a closing
    reactor enqueues nothing and has its caller abort the task with the
    shutdown error; on a running reactor it enqueues the task and has
    its caller send the wake-up, which is what makes the loop come for
    it.  [AsyncHandler] on a running reactor runs all that is pending;
    on a closing one it tears the connections down and breaks the loop
    without running anything.  [Shutdown] aborts what is pending.  Each
    of the three, called with no other thread in between, is a path of
    the interleaving that ends in the reactor the function returns and
    adds to the history the actions the function takes.  And every task
    does get out: each step of the threads at work uses up budget, they
    can always take a step until nothing is in flight, so left to
    themselves they come to rest, and when nothing is in flight every
    submitted task has been run or aborted, exactly once if it was
    submitted once. *)
Theorem no_task_leak :
  forall (steps : list Step) (s : Sys),
    run steps init = Some s ->
    (forall t,
        times_scheduled t s = times_run t s + times_aborted t s + times_waiting t s) /\
    (forall t, times_scheduled t s = 1 -> times_run t s + times_aborted t s <= 1) /\
    (forall t st, Abort t st ∈ history s ->
                  st = ShutdownError /\ Status.ok st = false) /\
    (forall t,
        closing_ (reactor s) = true ->
        ScheduleReactorTask (reactor s) t = (reactor s, [Abort t ShutdownError]) /\
        exists s1 s2,
          step_fn (CallSchedule t) s = Some s1 /\
          pending_tasks_ (reactor s1) = pending_tasks_ (reactor s) /\
          step_fn (ScheduleAbort t) s1 = Some s2 /\
          history s2 = history s ++ [Abort t ShutdownError]) /\
    (forall t,
        closing_ (reactor s) = false ->
        ScheduleReactorTask (reactor s) t =
          ({| closing_ := false;
              pending_tasks_ := pending_tasks_ (reactor s) ++ [t] |},
           [AsyncSend]) /\
        exists s1 s2,
          step_fn (CallSchedule t) s = Some s1 /\
          pending_tasks_ (reactor s1) = pending_tasks_ (reactor s) ++ [t] /\
          to_wake s1 =
            sends_in (ScheduleReactorTask (reactor s) t).2 + to_wake s /\
          step_fn ScheduleWake s1 = Some s2 /\
          async_pending s2 = true /\
          history s2 = history s ++ [AsyncSend]) /\
    (forall rt,
        closing_ (reactor s) = false ->
        AsyncHandler (reactor s) rt =
        Ok ({| closing_ := false; pending_tasks_ := [] |},
            map Run (pending_tasks_ (reactor s))) rt) /\
    (forall rt,
        closing_ (reactor s) = true ->
        exists rt',
          AsyncHandler (reactor s) rt = Ok (reactor s, [BreakLoop]) rt' /\
          client_conns_ rt' = ∅ /\ server_conns_ rt' = []) /\
    (closing_ (reactor s) = false ->
     Reactor_Shutdown (reactor s) =
     Some ({| closing_ := true; pending_tasks_ := [] |},
           AsyncSend ::
           map (fun t => Abort t ShutdownError) (pending_tasks_ (reactor s)))) /\
    (forall t,
        exists s',
          run (schedule_pass s t) s = Some s' /\
          reactor s' = (ScheduleReactorTask (reactor s) t).1 /\
          history s' = history s ++ (ScheduleReactorTask (reactor s) t).2 /\
          scheduled s' = scheduled s ++ [t]) /\
    (forall rt,
        loop_pc s = LoopWaiting -> async_pending s = true ->
        exists s' acts rt',
          run (handler_pass s) s = Some s' /\
          AsyncHandler (reactor s) rt = Ok (reactor s', acts) rt' /\
          history s' = history s ++ acts /\
          loop_pc s' = (if closing (reactor s) then LoopExited else LoopWaiting)) /\
    (exists s' acts,
        run (shutdown_pass s) s = Some s' /\
        Reactor_Shutdown (reactor s) = Some (reactor s', acts) /\
        history s' = history s ++ acts) /\
    (forall st s', internal st = true -> step_fn st s = Some s' ->
                   budget s' < budget s) /\
    (~ quiescent s -> exists st s', internal st = true /\ step_fn st s = Some s') /\
    (exists sched s',
        forallb internal sched = true /\ run sched s = Some s' /\ quiescent s') /\
    (quiescent s ->
     forall t,
       times_scheduled t s = times_run t s + times_aborted t s /\
       (times_scheduled t s = 1 ->
        (times_run t s = 1 /\ times_aborted t s = 0) \/
        (times_run t s = 0 /\ times_aborted t s = 1))).
Proof.
  intros steps s Hrun.
  assert (Hinv : reactor_inv s) by (apply reachable_inv; exists steps; exact Hrun).
  split; [apply (inv_accounting s Hinv)|].
  split.
  { intros t Hone. pose proof (inv_accounting s Hinv t). lia. }
  split.
  { intros t st Hin. rewrite (inv_abort_status s Hinv t st Hin).
    split; reflexivity. }
  split.
  { intros t Hcl. split; [apply ScheduleReactorTask_closing, Hcl|].
    eexists _, _. simpl. unfold ScheduleReactorTask. rewrite Hcl. simpl.
    split; [reflexivity|]. split; [reflexivity|].
    rewrite bool_decide_eq_true_2
      by (apply elem_of_app; right; apply list_elem_of_singleton; reflexivity).
    split; reflexivity. }
  split.
  { intros t Hcl. unfold ScheduleReactorTask, WakeThread. rewrite Hcl.
    split; [reflexivity|].
    eexists _, _. simpl. unfold ScheduleReactorTask, WakeThread. rewrite Hcl.
    simpl. repeat split. }
  split.
  { intros rt Hcl. unfold AsyncHandler, closing, DrainTaskQueue.
    rewrite Hcl. simpl. rewrite run_tasks_map. reflexivity. }
  split.
  { intros rt Hcl. destruct (ShutdownInternal_empties rt) as (rt' & Hdown & Hc & Hsv).
    exists rt'. unfold AsyncHandler, closing. rewrite Hcl.
    unfold bind, ret. rewrite Hdown. auto. }
  split; [apply Reactor_Shutdown_first|].
  split; [intros t; apply schedule_pass_refines|].
  split; [intros rt; apply handler_pass_refines|].
  split; [apply shutdown_pass_refines|].
  split; [intros st s'; apply step_budget|].
  split; [apply not_quiescent_progress, Hinv|].
  split; [apply (settles (S (budget s))); [exact Hinv|lia]|].
  intros Hq t.
  destruct (quiescent_nothing_waiting s Hinv Hq) as (Hp & Hl & Ha).
  pose proof (inv_accounting s Hinv t) as Hacc.
  unfold times_waiting in Hacc. rewrite Hp, Hl, Ha in Hacc. simpl in Hacc.
  split; lia.
Qed.

Lemma no_task_leak_witness :
  run schedule_run_abort_refuse init = Some state_at_rest /\
  quiescent state_at_rest /\
  (times_run 1 state_at_rest = 1 /\ times_aborted 1 state_at_rest = 0) /\
  (times_run 2 state_at_rest = 0 /\ times_aborted 2 state_at_rest = 1) /\
  (times_run 3 state_at_rest = 0 /\ times_aborted 3 state_at_rest = 1).
Proof.
  assert (Hrun : run schedule_run_abort_refuse init = Some state_at_rest)
    by (vm_compute; reflexivity).
  assert (Hq : quiescent state_at_rest).
  { repeat split; [right; reflexivity | left; reflexivity]. }
  destruct (no_task_leak schedule_run_abort_refuse state_at_rest Hrun)
    as (_ & _ & _ & _ & _ & _ & _ & _ & _ & _ & _ & _ & _ & _ & Hdone).
  specialize (Hdone Hq).
  split; [exact Hrun|]. split; [exact Hq|].
  split; [|split].
  - destruct (Hdone 1) as (_ & [H|[H1 H2]]);
      [vm_compute; reflexivity | exact H | vm_compute in H1; discriminate H1].
  - destruct (Hdone 2) as (_ & [[H1 H2]|H]);
      [vm_compute; reflexivity | vm_compute in H1; discriminate H1 | exact H].
  - destruct (Hdone 3) as (_ & [[H1 H2]|H]);
      [vm_compute; reflexivity | vm_compute in H1; discriminate H1 | exact H].
Defined.

(** ** C2 *)

(** C2 (as stated) fails: two tasks are submitted and drained, the loop
    runs the first, another thread calls [Shutdown], which returns, and
    then the loop runs the second task. *)
Lemma task_run_after_Shutdown_returned :
  exists s s',
    run schedule_shutdown_during_drain init = Some s /\
    shutdown_pc s = SdReturned /\
    closing_ (reactor s) = true /\
    loop_pc s = LoopRunning [2] /\
    step_fn AsyncRun s = Some s' /\
    history s' = history s ++ [Run 2].
Proof.
  exists state_shutdown_during_drain. eexists.
  split; [vm_compute; reflexivity|]. split; [reflexivity|].
  split; [reflexivity|]. split; [reflexivity|]. split; reflexivity.
Qed.

(** C2 (amended). After [Reactor::Shutdown] has returned, no task is
    taken from the pending queue to be run any more: the flag stays set
    and the queue stays empty, every later [ScheduleReactorTask] aborts
    its argument with the shutdown error instead of enqueueing it,
    [DrainTaskQueue] returns false and moves nothing, and the tasks run
    from then on are exactly tasks that the loop had already drained
    into its local list, in that order; a loop that is not in the middle
    of such a list runs none. *)
Theorem no_task_drained_after_Shutdown :
  forall (steps more : list Step) (s s' : Sys),
    run steps init = Some s ->
    shutdown_pc s = SdReturned ->
    run more s = Some s' ->
    shutdown_pc s' = SdReturned /\
    closing_ (reactor s') = true /\
    pending_tasks_ (reactor s') = [] /\
    (Status.code ShutdownError = Status.kServiceUnavailable /\
     Status.posix_code ShutdownError = ESHUTDOWN /\
     Status.message ShutdownError = "reactor is shutting down") /\
    (forall t,
        ScheduleReactorTask (reactor s') t = (reactor s', [Abort t ShutdownError]) /\
        exists s1 s2,
          step_fn (CallSchedule t) s' = Some s1 /\
          pending_tasks_ (reactor s1) = [] /\
          step_fn (ScheduleAbort t) s1 = Some s2 /\
          history s2 = history s' ++ [Abort t ShutdownError]) /\
    (forall tasks, DrainTaskQueue (reactor s') tasks = (false, reactor s', tasks)) /\
    (exists new,
        history s' = history s ++ new /\
        local_tasks (loop_pc s) = tasks_run new ++ local_tasks (loop_pc s') /\
        (local_tasks (loop_pc s) = [] -> tasks_run new = []) /\
        (forall t st, Abort t st ∈ new -> st = ShutdownError)).
Proof.
  intros steps more s s' Hrun Hret Hmore.
  assert (Hinv : reactor_inv s) by (apply reachable_inv; exists steps; exact Hrun).
  assert (Hinv' : reactor_inv s').
  { apply reachable_inv. exists (steps ++ more). eapply run_app; eassumption. }
  assert (Hcl : closing_ (reactor s) = true).
  { destruct (closing_ (reactor s)) eqn:Hc; [reflexivity|].
    apply (inv_closing s Hinv) in Hc. congruence. }
  destruct (run_after_closing more s s' Hcl Hmore)
    as (Hcl' & Hsd & Hp & new & Hh & Hl).
  split; [apply Hsd, Hret|].
  split; [exact Hcl'|].
  assert (Hp' : pending_tasks_ (reactor s') = []).
  { apply Hp, (inv_returned s Hinv Hret). }
  split; [exact Hp'|].
  split; [repeat split|].
  split.
  { intros t. split; [apply ScheduleReactorTask_closing, Hcl'|].
    eexists _, _. simpl. unfold ScheduleReactorTask. rewrite Hcl'. simpl.
    split; [reflexivity|]. split; [exact Hp'|].
    rewrite bool_decide_eq_true_2
      by (apply elem_of_app; right; apply list_elem_of_singleton; reflexivity).
    split; reflexivity. }
  split; [intros tasks; apply DrainTaskQueue_closing, Hcl'|].
  exists new. split; [exact Hh|]. split; [exact Hl|]. split.
  - intros Hnil. rewrite Hnil in Hl. symmetry in Hl.
    apply app_eq_nil in Hl. tauto.
  - intros t st Hin. apply (inv_abort_status s' Hinv' t st).
    rewrite Hh. apply elem_of_app. right. exact Hin.
Qed.

Lemma no_task_drained_after_Shutdown_witness :
  run schedule_shutdown_during_drain init = Some state_shutdown_during_drain /\
  shutdown_pc state_shutdown_during_drain = SdReturned /\
  run schedule_after_shutdown state_shutdown_during_drain
    = Some state_after_shutdown /\
  pending_tasks_ (reactor state_after_shutdown) = [] /\
  exists new,
    history state_after_shutdown = history state_shutdown_during_drain ++ new /\
    [2] = tasks_run new ++ [].
Proof.
  assert (Hrun : run schedule_shutdown_during_drain init
                 = Some state_shutdown_during_drain)
    by (vm_compute; reflexivity).
  assert (Hmore : run schedule_after_shutdown state_shutdown_during_drain
                  = Some state_after_shutdown)
    by (vm_compute; reflexivity).
  destruct (no_task_drained_after_Shutdown
              schedule_shutdown_during_drain schedule_after_shutdown
              state_shutdown_during_drain state_after_shutdown
              Hrun eq_refl Hmore)
    as (_ & _ & Hp & _ & _ & _ & new & Hh & Hl & _).
  split; [exact Hrun|]. split; [reflexivity|]. split; [exact Hmore|].
  split; [exact Hp|]. exists new. split; [exact Hh|exact Hl].
Defined.

Local Close Scope nat_scope.

(** * Further properties *)

(** ** Tearing everything down *)

Lemma foldl_shutdown st (l : list ConnPtr) : forall (h : Heap) p,
  foldl (fun h p => heap_set h p (ConnectionOps.Shutdown (h p) st)) h l p =
  if decide (p ∈ l) then ConnectionOps.Shutdown (h p) st else h p.
Proof.
  induction l as [|q l IH]; intros h p; simpl.
  - destruct (decide (p ∈ [])) as [Hin|_]; [|reflexivity].
    apply elem_of_nil in Hin. contradiction.
  - rewrite IH. unfold heap_set.
    destruct (decide (p ∈ l)) as [Hin|Hnot];
      destruct (decide (p = q)) as [->|Hne];
      destruct (decide (_ ∈ q :: l)) as [Hin'|Hnot']; try reflexivity.
    + exfalso. apply Hnot'. left.
    + exfalso. apply Hnot'. right. exact Hin.
    + exfalso. apply Hnot'. left.
    + exfalso. apply elem_of_cons in Hin' as [Heq|Hin']; contradiction.
Qed.

(** X1. [ShutdownInternal] leaves both tables empty; every connection
    that was in one of them has been shut down with the shutdown error,
    every other connection object is as it was, and the metrics read
    afterwards are zero. *)
Theorem ShutdownInternal_clears_tables :
  forall (rt : ReactorThread),
    exists rt',
      ShutdownInternal rt = Ok tt rt' /\
      client_conns_ rt' = ∅ /\
      server_conns_ rt' = [] /\
      (forall p,
          (exists id, client_conns_ rt !! id = Some p) \/ p ∈ server_conns_ rt ->
          heap rt' p = ConnectionOps.Shutdown (heap rt p) ShutdownError /\
          shutdown_status_ (heap rt' p) = Some ShutdownError) /\
      (forall p,
          (forall id, client_conns_ rt !! id <> Some p) -> p ∉ server_conns_ rt ->
          heap rt' p = heap rt p) /\
      effects rt' = effects rt /\
      GetMetricsInternal rt' = Ok (0%nat, 0%nat) rt'.
Proof.
  intros rt. unfold ShutdownInternal. unfold_m. simpl.
  eexists. split; [reflexivity|]. simpl.
  split; [reflexivity|]. split; [reflexivity|].
  assert (Hval : forall p, p ∈ (map_to_list (client_conns_ rt)).*2 <->
                           exists id, client_conns_ rt !! id = Some p).
  { intros p. rewrite list_elem_of_fmap. split.
    - intros ([id q] & -> & Hin). exists id.
      apply elem_of_map_to_list in Hin. exact Hin.
    - intros (id & Hid). exists (id, p). split; [reflexivity|].
      apply elem_of_map_to_list. exact Hid. }
  split; [|split; [|split]].
  - intros p Hreg. rewrite !foldl_shutdown.
    assert (Heq : (if decide (p ∈ server_conns_ rt)
             then ConnectionOps.Shutdown
                    (if decide (p ∈ (map_to_list (client_conns_ rt)).*2)
                     then ConnectionOps.Shutdown (heap rt p) ShutdownError
                     else heap rt p) ShutdownError
             else if decide (p ∈ (map_to_list (client_conns_ rt)).*2)
                  then ConnectionOps.Shutdown (heap rt p) ShutdownError
                  else heap rt p)
            = ConnectionOps.Shutdown (heap rt p) ShutdownError).
    { destruct (decide (p ∈ server_conns_ rt)) as [Hs|Hs];
        destruct (decide (p ∈ (map_to_list (client_conns_ rt)).*2)) as [Hc|Hc];
        try reflexivity.
      exfalso. destruct Hreg as [Hreg|Hreg]; [|contradiction].
      apply Hc, Hval, Hreg. }
    rewrite Heq. split; reflexivity.
  - intros p Hc Hs. rewrite !foldl_shutdown.
    rewrite (decide_False _ _ Hs).
    rewrite decide_False; [reflexivity|].
    intros Hin. apply Hval in Hin as (id & Hid). exact (Hc id Hid).
  - reflexivity.
  - unfold GetMetricsInternal. unfold_m. simpl. reflexivity.
Qed.

Lemma ShutdownInternal_clears_tables_witness :
  exists rt',
    ShutdownInternal scan_thread = Ok tt rt' /\
    client_conns_ rt' = ∅ /\ server_conns_ rt' = [] /\
    shutdown_status_ (heap rt' 4%nat) = Some ShutdownError /\
    shutdown_status_ (heap rt' 2%nat) = Some ShutdownError /\
    heap rt' 7%nat = heap scan_thread 7%nat.
Proof.
  destruct (ShutdownInternal_clears_tables scan_thread)
    as (rt' & Hrun & Hcl & Hsrv & Hshut & Hkeep & _).
  exists rt'. split; [exact Hrun|]. split; [exact Hcl|]. split; [exact Hsrv|].
  split; [|split].
  - apply Hshut. left. exists sample_id. reflexivity.
  - apply Hshut. right. simpl. right. left.
  - apply Hkeep.
    + intros id Hid. simpl in Hid.
      apply lookup_singleton_Some in Hid as [_ Hid]. discriminate.
    + simpl. intros Hin.
      repeat (apply elem_of_cons in Hin as [Hin|Hin]; [discriminate|]).
      apply elem_of_nil in Hin. exact Hin.
Defined.

(** ** Destroying a registered connection *)

Lemma erase_first_split conn (l : list ConnPtr) :
  conn ∈ l ->
  exists before after,
    l = before ++ (conn :: after) /\ (conn ∉ before) /\
    erase_first conn l = before ++ after.
Proof.
  induction l as [|p l IH]; intros Hin.
  - apply elem_of_nil in Hin. contradiction.
  - simpl. case_decide as Hp.
    + subst p. exists [], l. split; [reflexivity|]. split; [|reflexivity].
      apply not_elem_of_nil.
    + apply elem_of_cons in Hin as [->|Hin]; [congruence|].
      destruct (IH Hin) as (before & after & -> & Hnot & ->).
      exists (p :: before), after. split; [reflexivity|]. split; [|reflexivity].
      intros Hin'. apply elem_of_cons in Hin' as [->|Hin']; [congruence|].
      contradiction.
Qed.

(** X2. [DestroyConnection] on a CLIENT connection whose identity is a
    key of [client_conns_] shuts the connection down and erases that key:
    a lookup of the identity finds nothing afterwards, every other entry
    and [server_conns_] are as before.  The entry is found by identity,
    not by pointer: whichever connection [c] was stored under the key is
    unlinked, and if it is another object it is not shut down. *)
Theorem DestroyConnection_client_registered :
  forall (rt : ReactorThread) (conn c : ConnPtr) (st : Status),
    direction_ (heap rt conn) = CLIENT ->
    client_conns_ rt !! identity_of (heap rt conn) = Some c ->
    exists rt',
      DestroyConnection conn st rt = Ok tt rt' /\
      client_conns_ rt' = delete (identity_of (heap rt conn)) (client_conns_ rt) /\
      client_conns_ rt' !! identity_of (heap rt conn) = None /\
      (forall id, id <> identity_of (heap rt conn) ->
                  client_conns_ rt' !! id = client_conns_ rt !! id) /\
      S (size (client_conns_ rt')) = size (client_conns_ rt) /\
      server_conns_ rt' = server_conns_ rt /\
      shutdown_status_ (heap rt' conn) = Some st /\
      (forall q, q <> conn -> heap rt' q = heap rt q).
Proof.
  intros rt conn c st Hdir Hreg.
  unfold DestroyConnection. unfold_m. simpl.
  rewrite heap_set_eq. simpl. rewrite Hdir.
  unfold with_heap. simpl. unfold identity_of in *.
  rewrite Hreg.
  rewrite bool_decide_eq_true_2 by (eexists; reflexivity).
  eexists. split; [reflexivity|]. simpl.
  split; [reflexivity|].
  split; [apply lookup_delete_eq|].
  split; [intros id Hne; apply lookup_delete_ne; congruence|].
  split.
  { rewrite <- (insert_delete_id (client_conns_ rt) _ _ Hreg) at 2.
    rewrite map_size_insert_None by apply lookup_delete_eq. reflexivity. }
  split; [reflexivity|].
  split; [rewrite heap_set_eq; reflexivity|].
  intros q Hq. apply heap_set_ne, Hq.
Qed.

Lemma DestroyConnection_client_registered_witness :
  exists rt',
    DestroyConnection 1%nat pool_full thread_with_client = Ok tt rt' /\
    client_conns_ rt' !! sample_id = None /\
    shutdown_status_ (heap rt' 1%nat) = Some pool_full.
Proof.
  destruct (DestroyConnection_client_registered
              thread_with_client 1%nat 1%nat pool_full)
    as (rt' & Hrun & _ & Hgone & _ & _ & _ & Hst & _);
    [reflexivity | reflexivity |].
  exists rt'. split; [exact Hrun|]. split; [exact Hgone|exact Hst].
Defined.

(** X3. [DestroyConnection] on a SERVER connection that is in
    [server_conns_] shuts it down and unlinks its first occurrence only:
    the list shrinks by one and keeps the order of the rest; if the list
    holds no connection twice, the connection is gone from it.
    [client_conns_] is not touched. *)
Theorem DestroyConnection_server_registered :
  forall (rt : ReactorThread) (conn : ConnPtr) (st : Status),
    direction_ (heap rt conn) = SERVER ->
    conn ∈ server_conns_ rt ->
    exists rt' before after,
      DestroyConnection conn st rt = Ok tt rt' /\
      server_conns_ rt = before ++ (conn :: after) /\
      (conn ∉ before) /\
      server_conns_ rt' = before ++ after /\
      S (length (server_conns_ rt')) = length (server_conns_ rt) /\
      (NoDup (server_conns_ rt) -> conn ∉ server_conns_ rt') /\
      (forall q, q <> conn -> (q ∈ server_conns_ rt' <-> q ∈ server_conns_ rt)) /\
      client_conns_ rt' = client_conns_ rt /\
      shutdown_status_ (heap rt' conn) = Some st /\
      (forall q, q <> conn -> heap rt' q = heap rt q).
Proof.
  intros rt conn st Hdir Hin.
  rewrite (DestroyConnection_server _ _ _ Hdir).
  destruct (erase_first_split conn _ Hin) as (before & after & Hl & Hnot & Her).
  eexists _, before, after. split; [reflexivity|]. simpl.
  split; [exact Hl|]. split; [exact Hnot|]. split; [exact Her|].
  split; [rewrite Her, Hl, !length_app; simpl; lia|].
  split.
  { intros Hnd. rewrite Hl in Hnd. apply NoDup_app in Hnd as (_ & Hdisj & Hnd).
    apply NoDup_cons in Hnd as [Hafter _].
    rewrite Her. intros Hin'. apply elem_of_app in Hin' as [Hb|Ha]; contradiction. }
  split.
  { intros q Hq. rewrite Her, Hl, !elem_of_app, elem_of_cons.
    split; [tauto|]. intros [Hb|[Heq|Ha]]; [tauto|congruence|tauto]. }
  split; [reflexivity|].
  split; [rewrite heap_set_eq; reflexivity|].
  intros q Hq. apply heap_set_ne, Hq.
Qed.

Lemma DestroyConnection_server_registered_witness :
  exists rt',
    DestroyConnection 2%nat pool_full scan_thread = Ok tt rt' /\
    server_conns_ rt' = [1%nat; 3%nat] /\
    shutdown_status_ (heap rt' 2%nat) = Some pool_full.
Proof.
  destruct (DestroyConnection_server_registered scan_thread 2%nat pool_full)
    as (rt' & before & after & Hrun & Hl & Hnot & Hsrv & _ & _ & _ & _ & Hst & _).
  - reflexivity.
  - simpl. right. left.
  - exists rt'. split; [exact Hrun|]. split; [|exact Hst].
    rewrite (DestroyConnection_server scan_thread 2%nat pool_full eq_refl) in Hrun.
    injection Hrun as <-. reflexivity.
Defined.

(** ** A new client connection and its end *)

Lemma first_error_None env :
  first_error env = None ->
  Status.ok (CreateClientSocket_result env) = true /\
  Status.ok (StartConnect_result env) = true /\
  Status.ok (StartConnectionNegotiation_result env) = true.
Proof.
  unfold first_error.
  destruct (Status.ok (CreateClientSocket_result env)); simpl; [|discriminate].
  destruct (Status.ok (StartConnect_result env)); simpl; [|discriminate].
  destruct (Status.ok (StartConnectionNegotiation_result env)); simpl;
    [auto|discriminate].
Qed.

Lemma ok_not_IllegalState s : Status.ok s = true -> Status.IsIllegalState s = false.
Proof.
  unfold Status.IsIllegalState, Status.ok. intros H.
  apply bool_decide_eq_true in H. apply bool_decide_eq_false. congruence.
Qed.

Lemma identity_of_new conn_id fd now :
  identity_of
    (ConnectionOps.set_user_credentials
       (ConnectionOps.set_service_name
          (ConnectionOps.new (cid_remote conn_id) fd CLIENT now)
          (cid_service_name conn_id))
       (cid_user_credentials conn_id)) = conn_id.
Proof. destruct conn_id as [[r s] u]. reflexivity. Qed.

(** When nothing fails, the new connection is a CLIENT object at the next
    free address, carries the identity it is registered under, and no
    other object is touched. *)
Lemma FindOrStartConnection_success env conn_id deadline rt :
  client_conns_ rt !! conn_id = None ->
  first_error env = None ->
  exists rt',
    FindOrStartConnection env conn_id deadline rt
      = Ok (Status.OK, Some (next_conn rt)) rt' /\
    heap rt' (next_conn rt) =
      ConnectionOps.set_user_credentials
        (ConnectionOps.set_service_name
           (ConnectionOps.new (cid_remote conn_id) (sock_Release env) CLIENT
                              (now_coarse env))
           (cid_service_name conn_id))
        (cid_user_credentials conn_id) /\
    (forall q, q <> next_conn rt -> heap rt' q = heap rt q) /\
    next_conn rt' = S (next_conn rt) /\
    client_conns_ rt' = <[conn_id := next_conn rt]> (client_conns_ rt) /\
    server_conns_ rt' = server_conns_ rt.
Proof.
  intros Hnew Hok. destruct (first_error_None env Hok) as (Hsock & Hconn & Hneg).
  unfold FindOrStartConnection.
  unfold bind at 1. unfold get at 1. rewrite Hnew.
  unfold bind at 1.
  destruct (CreateClientSocket_spec env rt) as (es1 & -> & _).
  rewrite Hsock. simpl.
  unfold bind at 1.
  match goal with
  | |- context [StartConnect env ?r ?s] =>
      destruct (StartConnect_spec env r s) as (es2 & ip & -> & _)
  end.
  simpl. rewrite Hconn. simpl.
  unfold_m. simpl. rewrite StartConnectionNegotiation_spec. simpl.
  rewrite (ok_not_IllegalState _ Hneg), Hneg. simpl.
  eexists. split; [reflexivity|]. simpl.
  split; [rewrite !heap_set_eq; reflexivity|].
  split; [intros q Hq; rewrite !heap_set_ne by exact Hq; reflexivity|].
  split; [reflexivity|]. split; [|reflexivity].
  unfold conn_map_insert. rewrite Hnew. reflexivity.
Qed.

Lemma DestroyConnection_returns conn st rt rt' :
  DestroyConnection conn st rt = Ok tt rt' ->
  shutdown_status_ (heap rt' conn) = Some st /\
  (forall q, q <> conn -> heap rt' q = heap rt q) /\
  effects rt' = effects rt.
Proof.
  unfold DestroyConnection. unfold_m. simpl. rewrite heap_set_eq. simpl.
  destruct (direction_ (heap rt conn)).
  - destruct (bool_decide _); [|discriminate].
    intros [= <-]. simpl. rewrite heap_set_eq.
    split; [reflexivity|]. split; [|reflexivity].
    intros q Hq. apply heap_set_ne, Hq.
  - intros [= <-]. simpl. rewrite heap_set_eq.
    split; [reflexivity|]. split; [|reflexivity].
    intros q Hq. apply heap_set_ne, Hq.
Qed.

Lemma DestroyConnection_can_destroy conn st rt :
  can_destroy rt conn ->
  exists rt',
    DestroyConnection conn st rt = Ok tt rt' /\
    shutdown_status_ (heap rt' conn) = Some st /\
    effects rt' = effects rt.
Proof.
  intros Hcan.
  assert (Hret : exists rt', DestroyConnection conn st rt = Ok tt rt').
  { destruct (direction_ (heap rt conn)) eqn:Hdir.
    - destruct Hcan as [Hsrv|[c Hreg]]; [congruence|].
      unfold DestroyConnection. unfold_m. simpl.
      rewrite heap_set_eq. simpl. rewrite Hdir.
      unfold with_heap. simpl. unfold identity_of in Hreg. rewrite Hreg.
      rewrite bool_decide_eq_true_2 by (eexists; reflexivity).
      eexists. reflexivity.
    - rewrite (DestroyConnection_server _ _ _ Hdir). eexists. reflexivity. }
  destruct Hret as (rt' & Hret). exists rt'. split; [exact Hret|].
  destruct (DestroyConnection_returns _ _ _ _ Hret) as (Hs & _ & He). auto.
Qed.

Lemma DestroyConnection_cannot_destroy conn st rt :
  ~ can_destroy rt conn ->
  DestroyConnection conn st rt = CheckFailed "Couldn't find connection".
Proof.
  intros Hnot. apply DestroyConnection_client_absent.
  - destruct (direction_ (heap rt conn)) eqn:Hdir; [reflexivity|].
    exfalso. apply Hnot. left. exact Hdir.
  - destruct (client_conns_ rt !! _) as [c|] eqn:Hreg; [|reflexivity].
    exfalso. apply Hnot. right. exists c. exact Hreg.
Qed.

Lemma can_destroy_frame rt rt' conn :
  heap rt' = heap rt -> client_conns_ rt' = client_conns_ rt ->
  can_destroy rt' conn <-> can_destroy rt conn.
Proof. intros Hh Hc. unfold can_destroy. rewrite Hh, Hc. reflexivity. Qed.

Lemma CompleteConnectionNegotiation_explicit debug_build snb conn status rt :
  CompleteConnectionNegotiation debug_build snb conn status rt =
  let destroy st rt calls :=
    match DestroyConnection conn st rt with
    | Ok _ rt' => Ok calls rt'
    | CheckFailed msg => CheckFailed msg
    end in
  let logged what := with_effects (effects rt ++ [LogError what]) rt in
  if negb (Status.ok status) then destroy status rt []
  else if bool_decide (service_name_ (heap rt conn) = "") then
    if debug_build then CheckFailed "Unexpected connection negotiation error"
    else destroy (Status.IllegalState "Failed to set connection service name!")
                 (logged "Unexpected connection negotiation error") []
  else if negb (Status.ok snb) then
    if debug_build then CheckFailed "Unable to set connection to non-blocking mode"
    else destroy snb (logged "Unable to set connection to non-blocking mode")
                 [SetNonBlocking true]
  else Ok [SetNonBlocking true; MarkNegotiationComplete; EpollRegister] rt.
Proof.
  unfold CompleteConnectionNegotiation, LOG_DFATAL. cbv zeta.
  destruct (Status.ok status); cbn [negb].
  2:{ unfold bind, ret. destruct (DestroyConnection conn status rt) as [[] ?|];
        reflexivity. }
  unfold bind at 1. unfold deref, bind at 1, get, ret at 1. cbv beta iota.
  destruct (bool_decide (service_name_ (heap rt conn) = "")).
  { destruct debug_build; [reflexivity|].
    unfold bind at 1. unfold emit, modify. cbv beta iota. unfold bind, ret.
    match goal with
    | |- context [DestroyConnection conn ?s ?r] =>
        destruct (DestroyConnection conn s r) as [[] ?|]; reflexivity
    end. }
  destruct (Status.ok snb); cbn [negb]; [reflexivity|].
  destruct debug_build; [reflexivity|].
  unfold bind at 1. unfold emit, modify. cbv beta iota. unfold bind, ret.
  match goal with
  | |- context [DestroyConnection conn ?s ?r] =>
      destruct (DestroyConnection conn s r) as [[] ?|]; reflexivity
  end.
Qed.

(** X4. [CompleteConnectionNegotiation] marks the negotiation complete
    and registers the connection with the event loop exactly when the
    negotiation status is OK, the service name is not empty and the
    socket went back to non-blocking mode; it then changes nothing in
    the loop state.  A negotiation error goes to [DestroyConnection]:
    the connection is shut down with that error, unless it is a client
    connection that the table does not know, where the presence check
    is fatal.  For an empty service name and for a socket that does not
    go back to non-blocking mode the build decides: in a debug build
    [LOG(DFATAL)] ends the process there, before [DestroyConnection] is
    reached, so that nothing is shut down or unlinked; in a release
    build an error is logged and the connection is destroyed like after
    a negotiation error, with illegal-state or with the socket's error.
    So whenever the function returns without registering the
    connection, the connection has been shut down with an error. *)
Theorem CompleteConnectionNegotiation_ready_or_shut_down :
  forall (debug_build : bool) (set_non_blocking status : Status)
         (conn : ConnPtr) (rt : ReactorThread),
    (Status.ok status = true ->
     service_name_ (heap rt conn) <> "" ->
     Status.ok set_non_blocking = true ->
     CompleteConnectionNegotiation debug_build set_non_blocking conn status rt
       = Ok [SetNonBlocking true; MarkNegotiationComplete; EpollRegister] rt) /\
    (Status.ok status = false ->
     (can_destroy rt conn ->
      exists rt',
        CompleteConnectionNegotiation debug_build set_non_blocking conn status rt
          = Ok [] rt' /\
        shutdown_status_ (heap rt' conn) = Some status /\
        effects rt' = effects rt) /\
     (~ can_destroy rt conn ->
      CompleteConnectionNegotiation debug_build set_non_blocking conn status rt
        = CheckFailed "Couldn't find connection")) /\
    (Status.ok status = true ->
     service_name_ (heap rt conn) = "" ->
     (debug_build = true ->
      CompleteConnectionNegotiation debug_build set_non_blocking conn status rt
        = CheckFailed "Unexpected connection negotiation error") /\
     (debug_build = false ->
      (can_destroy rt conn ->
       exists rt',
         CompleteConnectionNegotiation debug_build set_non_blocking conn status rt
           = Ok [] rt' /\
         shutdown_status_ (heap rt' conn) =
           Some (Status.IllegalState "Failed to set connection service name!") /\
         effects rt' =
           effects rt ++ [LogError "Unexpected connection negotiation error"]) /\
      (~ can_destroy rt conn ->
       CompleteConnectionNegotiation debug_build set_non_blocking conn status rt
         = CheckFailed "Couldn't find connection"))) /\
    (Status.ok status = true ->
     service_name_ (heap rt conn) <> "" ->
     Status.ok set_non_blocking = false ->
     (debug_build = true ->
      CompleteConnectionNegotiation debug_build set_non_blocking conn status rt
        = CheckFailed "Unable to set connection to non-blocking mode") /\
     (debug_build = false ->
      (can_destroy rt conn ->
       exists rt',
         CompleteConnectionNegotiation debug_build set_non_blocking conn status rt
           = Ok [SetNonBlocking true] rt' /\
         shutdown_status_ (heap rt' conn) = Some set_non_blocking /\
         effects rt' =
           effects rt ++ [LogError "Unable to set connection to non-blocking mode"]) /\
      (~ can_destroy rt conn ->
       CompleteConnectionNegotiation debug_build set_non_blocking conn status rt
         = CheckFailed "Couldn't find connection"))) /\
    (forall (calls : list ConnectionCall) (rt' : ReactorThread),
        CompleteConnectionNegotiation debug_build set_non_blocking conn status rt
          = Ok calls rt' ->
        (Status.ok status = true /\
         service_name_ (heap rt conn) <> "" /\
         Status.ok set_non_blocking = true /\
         calls = [SetNonBlocking true; MarkNegotiationComplete; EpollRegister] /\
         rt' = rt) \/
        ((MarkNegotiationComplete ∉ calls) /\ (EpollRegister ∉ calls) /\
         exists st,
           shutdown_status_ (heap rt' conn) = Some st /\ Status.ok st = false /\
           ((Status.ok status = false /\ st = status /\ calls = []) \/
            (Status.ok status = true /\ service_name_ (heap rt conn) = "" /\
             st = Status.IllegalState "Failed to set connection service name!" /\
             calls = [] /\ debug_build = false) \/
            (Status.ok status = true /\ service_name_ (heap rt conn) <> "" /\
             st = set_non_blocking /\ calls = [SetNonBlocking true] /\
             debug_build = false)))).
Proof.
  intros debug_build snb status conn rt.
  assert (Hlogged : forall what,
             can_destroy (with_effects (effects rt ++ [LogError what]) rt) conn
             <-> can_destroy rt conn).
  { intros what. apply can_destroy_frame; reflexivity. }
  assert (Hdestroy : forall st r (calls : list ConnectionCall),
             can_destroy r conn ->
             exists rt',
               match DestroyConnection conn st r
                     return Res (list ConnectionCall) with
               | Ok _ rt' => Ok calls rt'
               | CheckFailed msg => CheckFailed msg
               end = Ok calls rt' /\
               shutdown_status_ (heap rt' conn) = Some st /\
               effects rt' = effects r).
  { intros st r calls Hcan.
    destruct (DestroyConnection_can_destroy conn st r Hcan) as (rt' & Hd & Hs & He).
    exists rt'. rewrite Hd. auto. }
  assert (Hfatal : forall st r (calls : list ConnectionCall),
             ~ can_destroy r conn ->
             match DestroyConnection conn st r
                   return Res (list ConnectionCall) with
             | Ok _ rt' => Ok calls rt'
             | CheckFailed msg => CheckFailed msg
             end = CheckFailed "Couldn't find connection").
  { intros st r calls Hnot.
    rewrite (DestroyConnection_cannot_destroy _ _ _ Hnot). reflexivity. }
  split.
  { intros Hst Hname Hsnb. rewrite CompleteConnectionNegotiation_explicit.
    cbv zeta. rewrite Hst, Hsnb. cbn [negb].
    rewrite bool_decide_eq_false_2 by exact Hname. reflexivity. }
  split.
  { intros Hst. rewrite CompleteConnectionNegotiation_explicit.
    cbv zeta. rewrite Hst. cbn [negb]. split.
    - apply Hdestroy.
    - apply Hfatal. }
  split.
  { intros Hst Hname. rewrite CompleteConnectionNegotiation_explicit.
    cbv zeta. rewrite Hst. cbn [negb].
    rewrite bool_decide_eq_true_2 by exact Hname.
    split; intros ->; [reflexivity|]. split.
    - intros Hcan. apply (Hdestroy _ _ _ (proj2 (Hlogged _) Hcan)).
    - intros Hnot. apply Hfatal. intros Hcan. exact (Hnot (proj1 (Hlogged _) Hcan)). }
  split.
  { intros Hst Hname Hsnb. rewrite CompleteConnectionNegotiation_explicit.
    cbv zeta. rewrite Hst, Hsnb. cbn [negb].
    rewrite bool_decide_eq_false_2 by exact Hname.
    split; intros ->; [reflexivity|]. split.
    - intros Hcan. apply (Hdestroy _ _ _ (proj2 (Hlogged _) Hcan)).
    - intros Hnot. apply Hfatal. intros Hcan. exact (Hnot (proj1 (Hlogged _) Hcan)). }
  intros calls rt'.
  assert (Hnotin0 : (MarkNegotiationComplete ∉ ([] : list ConnectionCall)) /\
                    (EpollRegister ∉ ([] : list ConnectionCall))).
  { split; apply not_elem_of_nil. }
  assert (Hnotin1 : (MarkNegotiationComplete ∉ [SetNonBlocking true]) /\
                    (EpollRegister ∉ [SetNonBlocking true])).
  { split; intros Hin; apply list_elem_of_singleton in Hin; discriminate. }
  unfold CompleteConnectionNegotiation.
  destruct (Status.ok status) eqn:Hst; simpl.
  2:{ unfold bind, ret.
      destruct (DestroyConnection conn status rt) as [[] rt1|] eqn:Hd; [|discriminate].
      intros [= <- <-]. right. destruct Hnotin0. split; [assumption|].
      split; [assumption|].
      destruct (DestroyConnection_returns _ _ _ _ Hd) as (Hs & _).
      exists status. split; [exact Hs|]. split; [exact Hst|]. left. auto. }
  unfold bind at 1. unfold deref, bind at 1, get, ret at 1. cbv beta iota.
  case_bool_decide as Hname.
  { unfold LOG_DFATAL. destruct debug_build.
    { unfold bind. discriminate. }
    unfold bind at 1. unfold emit, modify. cbv beta iota.
    unfold bind, ret.
    match goal with
    | |- context [DestroyConnection conn ?s ?r] =>
        destruct (DestroyConnection conn s r) as [[] rt1|] eqn:Hd; [|discriminate]
    end.
    intros [= <- <-]. right. destruct Hnotin0. split; [assumption|].
    split; [assumption|].
    destruct (DestroyConnection_returns _ _ _ _ Hd) as (Hs & _).
    eexists. split; [exact Hs|]. split; [reflexivity|]. right. left. auto. }
  destruct (Status.ok snb) eqn:Hsnb; simpl.
  { unfold ret. intros [= <- <-]. left. auto. }
  unfold LOG_DFATAL. destruct debug_build.
  { unfold bind. discriminate. }
  unfold bind at 1. unfold emit, modify. cbv beta iota.
  unfold bind, ret.
  match goal with
  | |- context [DestroyConnection conn ?s ?r] =>
      destruct (DestroyConnection conn s r) as [[] rt1|] eqn:Hd; [|discriminate]
  end.
  intros [= <- <-]. right. destruct Hnotin1. split; [assumption|].
  split; [assumption|].
  destruct (DestroyConnection_returns _ _ _ _ Hd) as (Hs & _).
  exists snb. split; [exact Hs|]. split; [exact Hsnb|]. right. right. auto.
Qed.

Lemma CompleteConnectionNegotiation_ready_or_shut_down_witness :
  CompleteConnectionNegotiation false Status.OK 1%nat Status.OK thread_with_client
    = Ok [SetNonBlocking true; MarkNegotiationComplete; EpollRegister]
         thread_with_client /\
  CompleteConnectionNegotiation true pool_full 1%nat Status.OK thread_with_client
    = CheckFailed "Unable to set connection to non-blocking mode" /\
  exists rt',
    CompleteConnectionNegotiation false pool_full 1%nat Status.OK thread_with_client
      = Ok [SetNonBlocking true] rt' /\
    shutdown_status_ (heap rt' 1%nat) = Some pool_full.
Proof.
  assert (Hname : service_name_ (heap thread_with_client 1%nat) <> "")
    by (vm_compute; discriminate).
  assert (Hcan : can_destroy thread_with_client 1%nat).
  { right. vm_compute. eexists. reflexivity. }
  destruct (CompleteConnectionNegotiation_ready_or_shut_down
              false Status.OK Status.OK 1%nat thread_with_client)
    as (Hready & _).
  destruct (CompleteConnectionNegotiation_ready_or_shut_down
              true pool_full Status.OK 1%nat thread_with_client)
    as (_ & _ & _ & Hdebug & _).
  destruct (CompleteConnectionNegotiation_ready_or_shut_down
              false pool_full Status.OK 1%nat thread_with_client)
    as (_ & _ & _ & Hrelease & _).
  split; [apply Hready; [reflexivity | exact Hname | reflexivity]|].
  split.
  - apply (Hdebug eq_refl Hname eq_refl). reflexivity.
  - destruct (Hrelease eq_refl Hname eq_refl) as (_ & Hrel).
    destruct (Hrel eq_refl) as (Hok & _).
    destruct (Hok Hcan) as (rt' & Hrun & Hs & _).
    exists rt'. split; [exact Hrun | exact Hs].
Defined.

(** X5. A client connection that [FindOrStartConnection] has just
    registered can always be destroyed: the identity rebuilt from the
    connection is the key it was inserted under, so the presence check
    holds.  When its negotiation then completes with an error,
    [CompleteConnectionNegotiation] shuts it down with that error and
    [client_conns_] is again what it was before the connection was
    opened, so that the next call for the same identity opens a new
    connection, a different object. *)
Theorem failed_negotiation_undoes_registration :
  forall (debug_build : bool) (set_non_blocking status : Status)
         (env env2 : Env) (conn_id : ConnectionId) (deadline deadline2 : MonoTime)
         (rt : ReactorThread),
    client_conns_ rt !! conn_id = None ->
    first_error env = None ->
    first_error env2 = None ->
    Status.ok status = false ->
    exists c rt1 rt2 c2 rt3,
      FindOrStartConnection env conn_id deadline rt = Ok (Status.OK, Some c) rt1 /\
      client_conns_ rt1 !! conn_id = Some c /\
      identity_of (heap rt1 c) = conn_id /\
      CompleteConnectionNegotiation debug_build set_non_blocking c status rt1
        = Ok [] rt2 /\
      client_conns_ rt2 = client_conns_ rt /\
      server_conns_ rt2 = server_conns_ rt /\
      shutdown_status_ (heap rt2 c) = Some status /\
      FindOrStartConnection env2 conn_id deadline2 rt2
        = Ok (Status.OK, Some c2) rt3 /\
      c2 <> c /\
      shutdown_status_ (heap rt3 c2) = None.
Proof.
  intros debug_build snb status env env2 conn_id deadline deadline2 rt
         Hnew Hok Hok2 Hbad.
  destruct (FindOrStartConnection_success env conn_id deadline rt Hnew Hok)
    as (rt1 & Hrun1 & Hobj & Hothers & Hnext & Hcl & Hsrv).
  assert (Hid : identity_of (heap rt1 (next_conn rt)) = conn_id).
  { rewrite Hobj. apply identity_of_new. }
  assert (Hreg : client_conns_ rt1 !! conn_id = Some (next_conn rt)).
  { rewrite Hcl. apply lookup_insert_eq. }
  destruct (DestroyConnection_client_registered rt1 (next_conn rt) (next_conn rt) status)
    as (rt2 & Hrun2 & Hdel & _ & _ & _ & Hsrv2 & Hst & Hothers2).
  { rewrite Hobj. reflexivity. }
  { rewrite Hid. exact Hreg. }
  assert (Hcl2 : client_conns_ rt2 = client_conns_ rt).
  { rewrite Hdel, Hid, Hcl. apply delete_insert_id, Hnew. }
  assert (Hnext2 : next_conn rt2 = S (next_conn rt)).
  { unfold DestroyConnection in Hrun2. revert Hrun2. unfold_m. simpl.
    rewrite heap_set_eq. simpl.
    destruct (direction_ (heap rt1 (next_conn rt))).
    - destruct (bool_decide _); [|discriminate]. intros [= <-]. exact Hnext.
    - intros [= <-]. exact Hnext. }
  destruct (FindOrStartConnection_success env2 conn_id deadline2 rt2)
    as (rt3 & Hrun3 & Hobj3 & _); [rewrite Hcl2; exact Hnew | exact Hok2 |].
  exists (next_conn rt), rt1, rt2, (next_conn rt2), rt3.
  split; [exact Hrun1|]. split; [exact Hreg|]. split; [exact Hid|].
  split.
  { unfold CompleteConnectionNegotiation. rewrite Hbad. simpl.
    unfold bind. rewrite Hrun2. reflexivity. }
  split; [exact Hcl2|]. split; [rewrite Hsrv2; exact Hsrv|].
  split; [exact Hst|]. split; [exact Hrun3|].
  split; [rewrite Hnext2; lia|].
  rewrite Hobj3. reflexivity.
Qed.

Lemma failed_negotiation_undoes_registration_witness :
  exists c rt1 rt2,
    FindOrStartConnection sample_env sample_id 9000 sample_thread
      = Ok (Status.OK, Some c) rt1 /\
    CompleteConnectionNegotiation true Status.OK c pool_full rt1 = Ok [] rt2 /\
    client_conns_ rt2 = ∅.
Proof.
  destruct (failed_negotiation_undoes_registration
              true Status.OK pool_full sample_env sample_env sample_id
              9000 9000 sample_thread)
    as (c & rt1 & rt2 & _ & _ & Hrun1 & _ & _ & Hrun2 & Hcl & _);
    [reflexivity | reflexivity | reflexivity | reflexivity |].
  exists c, rt1, rt2. split; [exact Hrun1|]. split; [exact Hrun2|exact Hcl].
Defined.

(** ** Connect in progress *)

Lemma StartConnect_result_cases env :
  Status.ok (sock_Connect env) = false ->
  (IsTemporarySocketError env (Status.posix_code (sock_Connect env)) = true \/
   Status.posix_code (sock_Connect env) = EINPROGRESS ->
   StartConnect_result env = Status.OK) /\
  (IsTemporarySocketError env (Status.posix_code (sock_Connect env)) = false ->
   Status.posix_code (sock_Connect env) <> EINPROGRESS ->
   StartConnect_result env = sock_Connect env).
Proof.
  intros Hbad. unfold StartConnect_result. rewrite Hbad. split.
  - intros [Htemp| ->]; [rewrite Htemp; reflexivity|].
    rewrite Z.eqb_refl, orb_true_r. reflexivity.
  - intros Htemp Hne. rewrite Htemp. apply Z.eqb_neq in Hne. rewrite Hne.
    reflexivity.
Qed.

(** X6. A connect that does not finish at once is not a failure: when
    [Socket::Connect] answers with [EINPROGRESS] or with an errno that
    [IsTemporarySocketError] accepts, [StartConnect] returns OK with the
    in-progress flag set and logs nothing, and [FindOrStartConnection]
    goes on to register the connection.  With any other errno
    [StartConnect] logs a warning and returns the error without setting
    the flag, and [FindOrStartConnection] returns that error, hands back
    no connection and leaves [client_conns_] alone. *)
Theorem connect_in_progress_is_not_a_failure :
  forall (env : Env) (conn_id : ConnectionId) (deadline : MonoTime)
         (rt : ReactorThread),
    client_conns_ rt !! conn_id = None ->
    Status.ok (CreateClientSocket_result env) = true ->
    Status.ok (sock_Connect env) = false ->
    Status.ok (StartConnectionNegotiation_result env) = true ->
    (IsTemporarySocketError env (Status.posix_code (sock_Connect env)) = true \/
     Status.posix_code (sock_Connect env) = EINPROGRESS ->
     StartConnect env (cid_remote conn_id) rt =
       Ok (Status.OK, Some true)
          (with_effects (effects rt ++ [SocketConnect (cid_remote conn_id)]) rt) /\
     exists c rt',
       FindOrStartConnection env conn_id deadline rt = Ok (Status.OK, Some c) rt' /\
       client_conns_ rt' !! conn_id = Some c /\
       direction_ (heap rt' c) = CLIENT) /\
    (IsTemporarySocketError env (Status.posix_code (sock_Connect env)) = false ->
     Status.posix_code (sock_Connect env) <> EINPROGRESS ->
     StartConnect env (cid_remote conn_id) rt =
       Ok (sock_Connect env, None)
          (with_effects
             (effects rt ++
              [SocketConnect (cid_remote conn_id);
               LogWarning "failed to create an outbound connection because connect failed"])
             rt) /\
     exists rt',
       FindOrStartConnection env conn_id deadline rt
         = Ok (sock_Connect env, None) rt' /\
       client_conns_ rt' = client_conns_ rt).
Proof.
  intros env conn_id deadline rt Hnew Hsock Hbad Hneg.
  destruct (StartConnect_result_cases env Hbad) as (Hprog & Hfail).
  split.
  - intros Hcase. split.
    + unfold StartConnect. unfold_m. simpl. rewrite Hbad.
      destruct Hcase as [Htemp|Heq].
      * rewrite Htemp. reflexivity.
      * rewrite Heq, Z.eqb_refl, orb_true_r. reflexivity.
    + assert (Hnone : first_error env = None).
      { unfold first_error. rewrite Hsock, (Hprog Hcase), Hneg. reflexivity. }
      destruct (FindOrStartConnection_success env conn_id deadline rt Hnew Hnone)
        as (rt' & Hrun & Hobj & _ & _ & Hcl & _).
      exists (next_conn rt), rt'. split; [exact Hrun|].
      split; [rewrite Hcl; apply lookup_insert_eq|].
      rewrite Hobj. reflexivity.
  - intros Htemp Hne. split.
    + unfold StartConnect. unfold_m. simpl. rewrite Hbad, Htemp.
      apply Z.eqb_neq in Hne. rewrite Hne. simpl.
      rewrite <- app_assoc. reflexivity.
    + destruct (FindOrStartConnection_new env conn_id deadline rt Hnew)
        as (st & conn & rt' & Hrun & _ & _ & _ & _ & Hcases).
      unfold first_error in Hcases.
      rewrite Hsock, (Hfail Htemp Hne), Hbad in Hcases. simpl in Hcases.
      destruct Hcases as (-> & -> & Hcl).
      exists rt'. split; [exact Hrun|exact Hcl].
Qed.

Lemma connect_in_progress_is_not_a_failure_witness :
  exists c rt',
    FindOrStartConnection env_connect_in_progress sample_id 9000 sample_thread
      = Ok (Status.OK, Some c) rt' /\
    client_conns_ rt' !! sample_id = Some c.
Proof.
  destruct (connect_in_progress_is_not_a_failure
              env_connect_in_progress sample_id 9000 sample_thread)
    as (Hprog & _); [reflexivity | reflexivity | reflexivity | reflexivity |].
  destruct Hprog as (_ & c & rt' & Hrun & Hreg & _); [right; reflexivity|].
  exists c, rt'. split; [exact Hrun|exact Hreg].
Defined.

(** ** A socket that cannot be created *)

Lemma CreateClientSocket_explicit env rt :
  CreateClientSocket env rt =
  Ok (CreateClientSocket_result env)
     (with_effects
        (effects rt ++
         SocketInit ::
         (if Status.ok (sock_Init env) then [SocketSetNoDelay] else []) ++
         (if Status.ok (CreateClientSocket_result env) then []
          else [LogWarning "failed to create an outbound connection because a new socket could not be created"]))
        rt).
Proof.
  unfold CreateClientSocket, CreateClientSocket_result. unfold_m. simpl.
  destruct (Status.ok (sock_Init env)) eqn:Hinit; simpl.
  - destruct (Status.ok (sock_SetNoDelay env)); simpl;
      rewrite <- ?app_assoc; reflexivity.
  - rewrite Hinit. simpl. rewrite <- ?app_assoc. reflexivity.
Qed.

(** X7. When the client socket cannot be created, [FindOrStartConnection]
    stops there: it returns the socket's error ([Init]'s own error if
    [Init] failed, in which case [SetNoDelay] is not attempted), logs a
    warning, does not connect, does not submit a negotiation, creates no
    connection object and leaves both tables as they are. *)
Theorem socket_failure_stops_early :
  forall (env : Env) (conn_id : ConnectionId) (deadline : MonoTime)
         (rt : ReactorThread),
    client_conns_ rt !! conn_id = None ->
    Status.ok (CreateClientSocket_result env) = false ->
    exists es,
      FindOrStartConnection env conn_id deadline rt
        = Ok (CreateClientSocket_result env, None)
             (with_effects (effects rt ++ es) rt) /\
      (es = [SocketInit;
             LogWarning "failed to create an outbound connection because a new socket could not be created"]
       /\ Status.ok (sock_Init env) = false
       /\ CreateClientSocket_result env = sock_Init env
       \/
       es = [SocketInit; SocketSetNoDelay;
             LogWarning "failed to create an outbound connection because a new socket could not be created"]
       /\ Status.ok (sock_Init env) = true
       /\ CreateClientSocket_result env = sock_SetNoDelay env).
Proof.
  intros env conn_id deadline rt Hnew Hbad.
  unfold FindOrStartConnection.
  unfold bind at 1. unfold get at 1. rewrite Hnew.
  unfold bind at 1.
  rewrite CreateClientSocket_explicit, Hbad. simpl.
  eexists. split; [reflexivity|].
  unfold CreateClientSocket_result in *.
  destruct (Status.ok (sock_Init env)) eqn:Hinit; simpl; [right|left]; auto.
Qed.

Lemma socket_failure_stops_early_witness :
  exists rt',
    FindOrStartConnection env_no_socket sample_id 9000 sample_thread
      = Ok (sock_Init env_no_socket, None) rt' /\
    effects rt' =
      [SocketInit;
       LogWarning "failed to create an outbound connection because a new socket could not be created"].
Proof.
  destruct (socket_failure_stops_early env_no_socket sample_id 9000 sample_thread)
    as (es & Hrun & [(-> & _ & _)|(_ & Hinit & _)]);
    [reflexivity | reflexivity | | discriminate Hinit].
  eexists. split; [exact Hrun|]. reflexivity.
Defined.

(** ** The timer *)

Lemma ScanIdleConnections_spec env rt :
  exists h',
    ScanIdleConnections env rt =
    Ok tt (with_server_conns
             (filter (fun c => timed_out rt c = false) (server_conns_ rt))
             (with_heap h' rt)) /\
    (forall c, c ∈ server_conns_ rt -> timed_out rt c = true ->
               h' c = ConnectionOps.Shutdown (heap rt c)
                        (timed_out_error env (connection_keepalive_time_ rt))) /\
    (forall c, c ∉ server_conns_ rt \/ timed_out rt c = false -> h' c = heap rt c).
Proof.
  unfold ScanIdleConnections. unfold bind at 1. unfold get. unfold bind at 1.
  destruct (scan_from_spec env (server_conns_ rt) 0 rt)
    as (n' & h' & -> & Hshut & Hsame).
  unfold modify. simpl. exists h'. split; [reflexivity|]. split; assumption.
Qed.

(** X8. A timer event without the error bit sets the cached time to the
    coarse clock and scans against that new time: afterwards no
    connection left in [server_conns_] reports idle with a last activity
    more than the keepalive before the tick.  A timer event with the
    error bit only logs a warning: the cached time, the tables and the
    connection objects stay as they are. *)
Theorem TimerHandler_tick :
  forall (env : Env) (revents : Z) (rt : ReactorThread),
    (Z.land EV_ERROR revents = 0 ->
     exists rt',
       TimerHandler env revents rt = Ok tt rt' /\
       cur_time_ rt' = now_coarse env /\
       (forall c, c ∈ server_conns_ rt' ->
                  c ∈ server_conns_ rt /\
                  heap rt' c = heap rt c /\
                  (idle_ (heap rt' c) = true ->
                   now_coarse env - last_activity_time_ (heap rt' c)
                     <= connection_keepalive_time_ rt')) /\
       (forall c, c ∈ server_conns_ rt -> c ∉ server_conns_ rt' ->
                  idle_ (heap rt c) = true /\
                  connection_keepalive_time_ rt
                    < now_coarse env - last_activity_time_ (heap rt c) /\
                  shutdown_status_ (heap rt' c)
                    = Some (timed_out_error env (connection_keepalive_time_ rt))) /\
       client_conns_ rt' = client_conns_ rt) /\
    (Z.land EV_ERROR revents <> 0 ->
     TimerHandler env revents rt =
     Ok tt (with_effects
              (effects rt ++ [LogWarning "Reactor got an error in the timer handler."])
              rt)).
Proof.
  intros env revents rt. split.
  - intros Hok. unfold TimerHandler. rewrite Hok. simpl.
    unfold bind, modify.
    destruct (ScanIdleConnections_spec env (with_cur_time (now_coarse env) rt))
      as (h' & -> & Hshut & Hsame).
    set (rt1 := with_cur_time (now_coarse env) rt) in *.
    eexists. split; [reflexivity|]. simpl.
    split; [reflexivity|]. split; [|split; [|reflexivity]].
    + intros c Hin. apply list_elem_of_filter in Hin as [Hto Hin].
      split; [exact Hin|].
      rewrite (Hsame c) by (right; exact Hto).
      split; [reflexivity|].
      intros Hidle. unfold timed_out in Hto. simpl in Hto, Hidle.
      rewrite Hidle in Hto. simpl in Hto. apply Z.ltb_ge in Hto. exact Hto.
    + intros c Hin Hgone.
      assert (Hto : timed_out rt1 c = true).
      { destruct (timed_out rt1 c) eqn:Hto; [reflexivity|].
        exfalso. apply Hgone. apply list_elem_of_filter. split; assumption. }
      rewrite (Hshut c Hin Hto). simpl.
      apply timed_out_iff in Hto. simpl in Hto.
      destruct Hto as [Hidle Hlong]. split; [exact Hidle|].
      split; [exact Hlong|reflexivity].
  - intros Herr. unfold TimerHandler.
    apply Z.eqb_neq in Herr. rewrite Herr. reflexivity.
Qed.

Lemma TimerHandler_tick_witness :
  exists rt',
    TimerHandler sample_env 1 scan_thread = Ok tt rt' /\
    cur_time_ rt' = 5000 /\
    client_conns_ rt' = client_conns_ scan_thread.
Proof.
  destruct (TimerHandler_tick sample_env 1 scan_thread) as (Htick & _).
  destruct Htick as (rt' & Hrun & Htime & _ & _ & Hcl); [reflexivity|].
  exists rt'. split; [exact Hrun|]. split; [exact Htime|exact Hcl].
Defined.

(** ** Scanning again, and how many connections go *)

Lemma filter_all_true {A} (P : A -> Prop) `{forall x, Decision (P x)} (l : list A) :
  (forall x, x ∈ l -> P x) -> filter P l = l.
Proof.
  induction l as [|x l IH]; intros Hall; [reflexivity|].
  rewrite filter_cons, decide_True by (apply Hall; left).
  f_equal. apply IH. intros y Hy. apply Hall. right. exact Hy.
Qed.

Lemma length_filter_split {A} (f : A -> bool) (l : list A) :
  (length (filter (fun x => f x = false) l) +
   length (filter (fun x => f x = true) l))%nat = length l.
Proof.
  induction l as [|x l IH]; [reflexivity|].
  rewrite !filter_cons. destruct (f x) eqn:Hf.
  - rewrite decide_False by congruence. rewrite decide_True by reflexivity.
    simpl. lia.
  - rewrite decide_True by reflexivity. rewrite decide_False by congruence.
    simpl. lia.
Qed.

(** X9. Scanning twice in a row is scanning once: a second
    [ScanIdleConnections] with the same cached time removes no
    connection, shuts none down and changes no connection object. *)
Theorem ScanIdleConnections_twice :
  forall (env : Env) (rt rt1 : ReactorThread),
    ScanIdleConnections env rt = Ok tt rt1 ->
    exists rt2,
      ScanIdleConnections env rt1 = Ok tt rt2 /\
      server_conns_ rt2 = server_conns_ rt1 /\
      (forall c, heap rt2 c = heap rt1 c) /\
      client_conns_ rt2 = client_conns_ rt1 /\
      effects rt2 = effects rt1.
Proof.
  intros env rt rt1 Hfirst.
  destruct (ScanIdleConnections_spec env rt) as (h1 & Hrun1 & Hshut1 & Hsame1).
  rewrite Hrun1 in Hfirst. injection Hfirst as <-.
  set (rt1 := with_server_conns _ (with_heap h1 rt)).
  assert (Hto : forall c, timed_out rt1 c = timed_out rt c).
  { intros c. unfold timed_out. simpl.
    destruct (decide (c ∈ server_conns_ rt)) as [Hin|Hnot].
    - destruct (timed_out rt c) eqn:Hc.
      + rewrite (Hshut1 c Hin Hc). reflexivity.
      + rewrite (Hsame1 c) by (right; exact Hc). reflexivity.
    - rewrite (Hsame1 c) by (left; exact Hnot). reflexivity. }
  destruct (ScanIdleConnections_spec env rt1) as (h2 & Hrun2 & Hshut2 & Hsame2).
  eexists. split; [exact Hrun2|]. simpl.
  assert (Hkept : forall c, c ∈ server_conns_ rt1 -> timed_out rt1 c = false).
  { intros c Hin. simpl in Hin. apply list_elem_of_filter in Hin as [Hc _].
    rewrite Hto. exact Hc. }
  split; [apply filter_all_true, Hkept|].
  split; [|split; reflexivity].
  intros c. apply Hsame2.
  destruct (decide (c ∈ server_conns_ rt1)) as [Hin|Hnot];
    [right; apply Hkept, Hin|left; exact Hnot].
Qed.

Lemma ScanIdleConnections_twice_witness :
  exists rt1 rt2,
    ScanIdleConnections sample_env scan_thread = Ok tt rt1 /\
    ScanIdleConnections sample_env rt1 = Ok tt rt2 /\
    server_conns_ rt2 = server_conns_ rt1.
Proof.
  destruct (ScanIdleConnections_spec sample_env scan_thread) as (h1 & Hrun1 & _).
  destruct (ScanIdleConnections_twice sample_env scan_thread _ Hrun1)
    as (rt2 & Hrun2 & Hsrv & _).
  eexists _, rt2. split; [exact Hrun1|]. split; [exact Hrun2|exact Hsrv].
Defined.

Lemma scan_from_counter env l : forall n rt,
  0 <= n < 2 ^ 64 ->
  exists kept rt',
    scan_from env l n rt =
    Ok (kept,
        (n + Z.of_nat (length (filter (fun c => timed_out rt c = true) l)))
          mod 2 ^ 64) rt'.
Proof.
  induction l as [|c rest IH]; intros n rt Hn.
  - simpl. unfold ret. rewrite Z.add_0_r, Z.mod_small by exact Hn.
    eexists _, _. reflexivity.
  - assert (Hkeep : timed_out rt c = false ->
              exists kept rt',
                (r <- scan_from env rest n ;; ret (c :: r.1, r.2)) rt =
                Ok (kept,
                    (n + Z.of_nat (length (filter (fun c0 => timed_out rt c0 = true)
                                                  (c :: rest)))) mod 2 ^ 64) rt').
    { intros Hc. destruct (IH n rt Hn) as (kept & rt' & Hrun).
      unfold bind. rewrite Hrun. unfold ret. simpl.
      rewrite filter_cons, decide_False by congruence.
      eexists _, _. reflexivity. }
    simpl scan_from. unfold bind at 1. unfold deref, bind at 1, get.
    unfold ret at 1. cbv beta iota.
    destruct (idle_ (heap rt c)) eqn:Hidle; cbn [negb].
    2:{ destruct Hkeep as (kept & rt' & Hk);
          [unfold timed_out; rewrite Hidle; reflexivity|].
        exists kept, rt'. exact Hk. }
    unfold bind at 1. cbv beta iota.
    destruct (MonoDeltaOps.MoreThan
                (MonoTimeOps.GetDeltaSince (cur_time_ rt)
                   (last_activity_time_ (heap rt c)))
                (connection_keepalive_time_ rt)) eqn:Hmore.
    2:{ destruct Hkeep as (kept & rt' & Hk);
          [unfold timed_out; rewrite Hidle; exact Hmore|].
        exists kept, rt'. exact Hk. }
    assert (Hc : timed_out rt c = true).
    { unfold timed_out. rewrite Hidle. exact Hmore. }
    unfold bind at 1. unfold update, modify. cbv beta iota.
    match goal with
    | |- context [scan_from env rest ?m ?s] =>
        destruct (IH m s) as (kept & rt' & Hrun);
          [apply Z.mod_pos_bound; lia|rewrite Hrun]
    end.
    exists kept, rt'. f_equal. f_equal.
    rewrite filter_cons, decide_True by exact Hc. simpl length.
    rewrite (list_filter_iff _ (fun c0 => timed_out rt c0 = true))
      by (intros c0; rewrite timed_out_after_shutdown; reflexivity).
    rewrite Zplus_mod_idemp_l. f_equal. lia.
Qed.

(** X10. [ScanIdleConnections] takes out of [server_conns_] as many
    connections as were timed out, so the server count the metrics
    report drops by exactly that number; and the loop's [timed_out]
    counter ends at that number (as a 64-bit value). *)
Theorem ScanIdleConnections_count :
  forall (env : Env) (rt : ReactorThread),
    exists rt' kept rt1,
      ScanIdleConnections env rt = Ok tt rt' /\
      (length (server_conns_ rt') +
       length (filter (fun c => timed_out rt c = true) (server_conns_ rt)))%nat
        = length (server_conns_ rt) /\
      GetMetricsInternal rt'
        = Ok (size (client_conns_ rt), length (server_conns_ rt')) rt' /\
      scan_from env (server_conns_ rt) 0 rt =
        Ok (kept,
            Z.of_nat (length (filter (fun c => timed_out rt c = true)
                                     (server_conns_ rt))) mod 2 ^ 64) rt1.
Proof.
  intros env rt.
  destruct (ScanIdleConnections_spec env rt) as (h' & Hrun & _).
  destruct (scan_from_counter env (server_conns_ rt) 0 rt) as (kept & rt1 & Hcnt);
    [lia|].
  eexists _, kept, rt1. split; [exact Hrun|]. simpl.
  split; [apply length_filter_split|].
  split; [reflexivity|]. exact Hcnt.
Qed.

Lemma ScanIdleConnections_count_witness :
  exists rt',
    ScanIdleConnections sample_env scan_thread = Ok tt rt' /\
    length (server_conns_ rt') = 2%nat.
Proof.
  destruct (ScanIdleConnections_count sample_env scan_thread)
    as (rt' & kept & rt1 & Hrun & Hlen & _).
  exists rt'. split; [exact Hrun|].
  change (length (filter (fun c => timed_out scan_thread c = true)
                         (server_conns_ scan_thread))) with 1%nat in Hlen.
  change (length (server_conns_ scan_thread)) with 3%nat in Hlen. lia.
Defined.

(** ** Order of execution *)

Local Open Scope nat_scope.

Lemma schedule_all_running tasks : forall r,
  closing_ r = false ->
  schedule_all r tasks =
  ({| closing_ := false; pending_tasks_ := pending_tasks_ r ++ tasks |},
   repeat AsyncSend (length tasks)).
Proof.
  induction tasks as [|t tasks IH]; intros r Hcl; simpl.
  - rewrite app_nil_r. destruct r; simpl in *; subst. reflexivity.
  - unfold ScheduleReactorTask at 1 2. rewrite Hcl. simpl.
    unfold ScheduleReactorTask. rewrite Hcl. simpl.
    rewrite IH by reflexivity. simpl. rewrite <- app_assoc. reflexivity.
Qed.

Lemma step_submission_order st s s' :
  step_fn st s = Some s' ->
  reactor_inv s -> in_submission_order s -> in_submission_order s'.
Proof.
  intros Hstep Hinv (rest & Hord & Hpend).
  pose proof (inv_closing s Hinv) as Hclosing.
  destruct st; step_cases Hstep; unfold in_submission_order; simpl; recall; simpl.
  all: first
    [ solve [ exists rest; split;
              [ rewrite ?tasks_run_app; simpl;
                rewrite ?app_nil_r, <- ?app_assoc; simpl; reflexivity
              | first [ exact Hpend
                      | intros Hc;
                        first [ discriminate Hc
                              | apply Hclosing in Hc; congruence ] ] ] ]
    | solve [ exists (rest ++ [t]); split;
              [ rewrite <- !app_assoc; reflexivity
              | intros Hc;
                first [ discriminate Hc
                      | rewrite Hpend by reflexivity; reflexivity ] ] ]
    | solve [ exists []; rewrite app_nil_r, Hpend by reflexivity;
              split; reflexivity ] ].
Qed.

Lemma run_submission_order steps : forall s s',
  run steps s = Some s' ->
  reactor_inv s -> in_submission_order s -> in_submission_order s'.
Proof.
  induction steps as [|st steps IH]; intros s s' Hrun Hinv Hord; simpl in Hrun.
  - injection Hrun as <-. exact Hord.
  - destruct (step_fn st s) as [s1|] eqn:Hstep; [|discriminate].
    apply (IH s1 s' Hrun).
    + apply (step_inv _ _ _ Hstep Hinv).
    + apply (step_submission_order _ _ _ Hstep Hinv Hord).
Qed.

(** X11. Tasks are run in the order in which they were submitted: in
    every reachable state the tasks run so far, followed by the loop's
    local list, are an initial stretch of the submissions, and as long
    as the closing flag is not set the pending queue is exactly the
    rest.  In particular, tasks submitted in a row to a running reactor
    are run by the next [AsyncHandler] in that order, after the ones
    already pending, and the queue is empty afterwards. *)
Theorem tasks_run_in_submission_order :
  forall (steps : list Step) (s : Sys) (r : Reactor) (tasks : list TaskPtr)
         (rt : ReactorThread),
    run steps init = Some s ->
    (exists rest,
        scheduled s = tasks_run (history s) ++ local_tasks (loop_pc s) ++ rest /\
        (closing_ (reactor s) = false -> rest = pending_tasks_ (reactor s))) /\
    (closing_ r = false ->
     (schedule_all r tasks).1 =
       {| closing_ := false; pending_tasks_ := pending_tasks_ r ++ tasks |} /\
     AsyncHandler (schedule_all r tasks).1 rt =
       Ok ({| closing_ := false; pending_tasks_ := [] |},
           map Run (pending_tasks_ r ++ tasks)) rt).
Proof.
  intros steps s r tasks rt Hrun. split.
  - apply (run_submission_order steps init s Hrun init_inv).
    exists []. split; reflexivity.
  - intros Hcl. rewrite (schedule_all_running tasks r Hcl). simpl.
    split; [reflexivity|].
    unfold AsyncHandler, closing, DrainTaskQueue. simpl.
    rewrite run_tasks_map. reflexivity.
Qed.

Lemma tasks_run_in_submission_order_witness :
  scheduled state_shutdown_during_drain
    = tasks_run (history state_shutdown_during_drain) ++
      local_tasks (loop_pc state_shutdown_during_drain) ++ [] /\
  AsyncHandler
    (schedule_all {| closing_ := false; pending_tasks_ := [7] |} [8; 9]).1
    sample_thread
  = Ok ({| closing_ := false; pending_tasks_ := [] |}, [Run 7; Run 8; Run 9])
       sample_thread.
Proof.
  assert (Hrun : run schedule_shutdown_during_drain init
                 = Some state_shutdown_during_drain)
    by (vm_compute; reflexivity).
  destruct (tasks_run_in_submission_order
              schedule_shutdown_during_drain state_shutdown_during_drain
              {| closing_ := false; pending_tasks_ := [7] |} [8; 9]
              sample_thread Hrun)
    as (_ & Hseq).
  split; [vm_compute; reflexivity|].
  destruct (Hseq eq_refl) as (_ & Hasync). exact Hasync.
Defined.

(** ** No way back *)

Lemma step_forward st s s' :
  step_fn st s = Some s' -> reactor_inv s ->
  (closing_ (reactor s) = true -> closing_ (reactor s') = true) /\
  shutdown_rank (shutdown_pc s) <= shutdown_rank (shutdown_pc s') /\
  (loop_pc s = LoopExited -> loop_pc s' = LoopExited) /\
  exists new,
    history s' = history s ++ new /\
    (loop_pc s = LoopExited -> tasks_run new = []).
Proof.
  intros Hstep Hinv. pose proof (inv_closing s Hinv) as Hclosing.
  destruct st; step_cases Hstep; simpl; recall; simpl.
  all: split; [try congruence; try tauto|].
  all: split; [try lia|].
  all: try (destruct Hclosing as [Hc _]; specialize (Hc eq_refl);
            rewrite Hc; simpl; lia).
  all: split; [try congruence; try tauto|].
  all: try (exists []; rewrite app_nil_r; split; [reflexivity|reflexivity]).
  all: try (eexists; split; [reflexivity|]; intros; first [reflexivity|congruence]).
Qed.

(** X12. The reactor only moves forward.  Along every run the closing
    flag, once set, stays set; [Shutdown] never goes back to an earlier
    place; the history only grows; and once the loop has left through
    [break_loop] it stays out and runs no task any more. *)
Theorem reactor_only_moves_forward :
  forall (steps more : list Step) (s s' : Sys),
    run steps init = Some s ->
    run more s = Some s' ->
    (closing_ (reactor s) = true -> closing_ (reactor s') = true) /\
    shutdown_rank (shutdown_pc s) <= shutdown_rank (shutdown_pc s') /\
    (loop_pc s = LoopExited -> loop_pc s' = LoopExited) /\
    exists new,
      history s' = history s ++ new /\
      (loop_pc s = LoopExited -> tasks_run new = []).
Proof.
  intros steps more s s' Hrun.
  assert (Hinv : reactor_inv s) by (apply reachable_inv; exists steps; exact Hrun).
  clear Hrun steps. revert s Hinv.
  induction more as [|st more IH]; intros s Hinv Hmore; simpl in Hmore.
  - injection Hmore as <-. split; [tauto|]. split; [lia|]. split; [tauto|].
    exists []. rewrite app_nil_r. split; reflexivity.
  - destruct (step_fn st s) as [s1|] eqn:Hstep; [|discriminate].
    destruct (step_forward _ _ _ Hstep Hinv) as (Hc1 & Hr1 & He1 & n1 & Hh1 & Ht1).
    destruct (IH s1 (step_inv _ _ _ Hstep Hinv) Hmore)
      as (Hc2 & Hr2 & He2 & n2 & Hh2 & Ht2).
    split; [tauto|]. split; [lia|]. split; [tauto|].
    exists (n1 ++ n2). split; [rewrite Hh2, Hh1, <- app_assoc; reflexivity|].
    intros Hex. rewrite tasks_run_app, (Ht1 Hex), (Ht2 (He1 Hex)). reflexivity.
Qed.

Lemma reactor_only_moves_forward_witness :
  closing_ (reactor state_after_shutdown) = true /\
  shutdown_rank (shutdown_pc state_shutdown_during_drain)
    <= shutdown_rank (shutdown_pc state_after_shutdown).
Proof.
  assert (Hrun : run schedule_shutdown_during_drain init
                 = Some state_shutdown_during_drain)
    by (vm_compute; reflexivity).
  assert (Hmore : run schedule_after_shutdown state_shutdown_during_drain
                  = Some state_after_shutdown)
    by (vm_compute; reflexivity).
  destruct (reactor_only_moves_forward _ _ _ _ Hrun Hmore) as (Hc & Hr & _).
  split; [apply Hc; reflexivity|exact Hr].
Defined.

(** ** No lost wake-up *)

Lemma finish_local_list tasks : forall s,
  loop_pc s = LoopRunning tasks ->
  exists s',
    run (repeat AsyncRun (length tasks) ++ [AsyncReturn]) s = Some s' /\
    loop_pc s' = LoopWaiting /\ reactor s' = reactor s /\
    async_pending s' = async_pending s.
Proof.
  induction tasks as [|t tasks IH]; intros s Hpc; simpl.
  - rewrite Hpc. eexists. split; [reflexivity|]. simpl. auto.
  - rewrite Hpc.
    match goal with
    | |- context [run _ ?s1] =>
        destruct (IH s1 eq_refl) as (s' & Hrun & Hw & Hr & Ha)
    end.
    exists s'. split; [exact Hrun|]. simpl in *. auto.
Qed.

Lemma forallb_repeat {A} (f : A -> bool) x n :
  f x = true -> forallb f (repeat x n) = true.
Proof. intros Hx. induction n as [|n IH]; simpl; [|rewrite Hx, IH]; reflexivity. Qed.

(** X13. A wake-up is never lost.  On a running reactor
    [ScheduleReactorTask] answers every enqueue with [WakeThread], one
    [async_.send()]: the caller leaves the locked region owing exactly
    the sends the function takes, and paying one sets the loop's async
    watcher pending.  Hence in every reachable state in which a task is
    pending and the closing flag is not set, the watcher is pending, or
    the loop is just about to drain, or a caller still owes its send;
    and the loop thread, helped at most by that caller, gets to drain
    the whole pending queue, in order, without any other thread doing
    anything. *)
Theorem no_lost_wakeup :
  forall (steps : list Step) (s : Sys),
    run steps init = Some s ->
    closing_ (reactor s) = false ->
    (forall t,
        (ScheduleReactorTask (reactor s) t).2 = WakeThread /\
        WakeThread = [AsyncSend] /\
        exists s1 s2,
          step_fn (CallSchedule t) s = Some s1 /\
          pending_tasks_ (reactor s1) = pending_tasks_ (reactor s) ++ [t] /\
          to_wake s1 =
            sends_in (ScheduleReactorTask (reactor s) t).2 + to_wake s /\
          to_wake s1 = S (to_wake s) /\
          step_fn ScheduleWake s1 = Some s2 /\
          async_pending s2 = true /\
          to_wake s2 = to_wake s /\
          history s2 = history s ++ WakeThread) /\
    (pending_tasks_ (reactor s) <> [] ->
     (async_pending s = true \/ loop_pc s = LoopEntered \/ to_wake s > 0) /\
     exists sched s',
       forallb loop_or_wake sched = true /\
       run sched s = Some s' /\
       loop_pc s' = LoopRunning (pending_tasks_ (reactor s)) /\
       pending_tasks_ (reactor s') = []).
Proof.
  intros steps s Hrun Hcl.
  split.
  { intros t. unfold ScheduleReactorTask. rewrite Hcl.
    split; [reflexivity|]. split; [reflexivity|].
    eexists _, _. cbn [step_fn]. unfold ScheduleReactorTask, WakeThread.
    rewrite Hcl. simpl. repeat split. }
  intros Hpend.
  assert (Hinv : reactor_inv s) by (apply reachable_inv; exists steps; exact Hrun).
  pose proof (inv_wake s Hinv Hcl Hpend) as Hwake.
  split; [exact Hwake|].
  assert (Hdrain : forall s0,
             loop_pc s0 = LoopEntered -> reactor s0 = reactor s ->
             exists s', run [AsyncDrain] s0 = Some s' /\
                        loop_pc s' = LoopRunning (pending_tasks_ (reactor s)) /\
                        pending_tasks_ (reactor s') = []).
  { intros s0 Hpc Hr. simpl. rewrite Hpc. unfold DrainTaskQueue.
    rewrite Hr, Hcl. simpl. eexists. split; [reflexivity|]. simpl. auto. }
  assert (Hbegin : forall s0,
             loop_pc s0 = LoopWaiting -> async_pending s0 = true ->
             reactor s0 = reactor s ->
             exists s', run [AsyncBegin; AsyncDrain] s0 = Some s' /\
                        loop_pc s' = LoopRunning (pending_tasks_ (reactor s)) /\
                        pending_tasks_ (reactor s') = []).
  { intros s0 Hpc Ha Hr. simpl. rewrite Hpc, Ha. unfold closing, DrainTaskQueue.
    simpl. rewrite Hr, Hcl. simpl. eexists. split; [reflexivity|]. simpl. auto. }
  assert (Hwoken : forall s0,
             async_pending s0 = true -> reactor s0 = reactor s ->
             loop_pc s0 <> LoopExited ->
             exists sched s',
               forallb loop_or_wake sched = true /\
               run sched s0 = Some s' /\
               loop_pc s' = LoopRunning (pending_tasks_ (reactor s)) /\
               pending_tasks_ (reactor s') = []).
  { intros s0 Ha Hr Hne. destruct (loop_pc s0) as [| |tasks|] eqn:Hpc.
    - destruct (Hbegin s0 Hpc Ha Hr) as (s' & Hgo & Hdone).
      exists [AsyncBegin; AsyncDrain], s'. split; [reflexivity|]. split; assumption.
    - destruct (Hdrain s0 Hpc Hr) as (s' & Hgo & Hdone).
      exists [AsyncDrain], s'. split; [reflexivity|]. split; assumption.
    - destruct (finish_local_list tasks s0 Hpc) as (s1 & Hgo1 & Hw1 & Hr1 & Ha1).
      destruct (Hbegin s1 Hw1) as (s' & Hgo & Hdone);
        [congruence | congruence |].
      exists ((repeat AsyncRun (length tasks) ++ [AsyncReturn])
                ++ [AsyncBegin; AsyncDrain]), s'.
      split.
      + rewrite !forallb_app, forallb_repeat by reflexivity. reflexivity.
      + split; [eapply run_app; eassumption | exact Hdone].
    - congruence. }
  assert (Hnotexit : loop_pc s <> LoopExited).
  { intros Hex. apply (inv_exited s Hinv) in Hex. congruence. }
  destruct (async_pending s) eqn:Ha.
  { apply (Hwoken s Ha eq_refl Hnotexit). }
  destruct Hwake as [Hw|[Hw|Hw]]; [discriminate Hw | |].
  { destruct (Hdrain s Hw eq_refl) as (s' & Hgo & Hdone).
    exists [AsyncDrain], s'. split; [reflexivity|]. split; assumption. }
  destruct (to_wake s) as [|n] eqn:Htw; [lia|].
  destruct (step_fn ScheduleWake s) as [s1|] eqn:Hstep;
    [|simpl in Hstep; rewrite Htw in Hstep; discriminate].
  assert (Hs1 : async_pending s1 = true /\ reactor s1 = reactor s /\
                loop_pc s1 = loop_pc s).
  { simpl in Hstep. rewrite Htw in Hstep. injection Hstep as <-. simpl. auto. }
  destruct Hs1 as (Ha1 & Hr1 & Hpc1).
  destruct (Hwoken s1 Ha1 Hr1) as (sched & s' & Hall & Hgo & Hdone);
    [congruence|].
  exists (ScheduleWake :: sched), s'. split; [simpl; exact Hall|].
  split; [cbn [run]; rewrite Hstep; exact Hgo | exact Hdone].
Qed.

Lemma no_lost_wakeup_witness :
  exists s sched s',
    run [CallSchedule 1; CallSchedule 2] init = Some s /\
    to_wake s = 2 /\
    forallb loop_or_wake sched = true /\
    run sched s = Some s' /\
    loop_pc s' = LoopRunning [1; 2].
Proof.
  assert (Hrun : run [CallSchedule 1; CallSchedule 2] init
                 = Some {| reactor := {| closing_ := false;
                                         pending_tasks_ := [1; 2] |};
                           async_pending := false; loop_pc := LoopWaiting;
                           shutdown_pc := SdNotCalled; to_abort := [];
                           to_wake := 2; scheduled := [1; 2]; history := [] |})
    by (vm_compute; reflexivity).
  destruct (no_lost_wakeup _ _ Hrun eq_refl) as (_ & Hdrain).
  destruct Hdrain as (_ & sched & s' & Hall & Hgo & Hpc & _); [discriminate|].
  eexists _, sched, s'. split; [exact Hrun|]. split; [reflexivity|].
  split; [exact Hall|]. split; [exact Hgo|exact Hpc].
Defined.

Local Close Scope nat_scope.

(** ** What the callers of the reactor get *)

Lemma store_task_eq objs task obj : store_task objs task obj task = obj.
Proof. unfold store_task. destruct (decide (task = task)); congruence. Qed.

Lemma AssignOutboundCall_outcome env call rt :
  exists rt',
    AssignOutboundCall env call rt = Ok tt rt' /\
    ((marked_failed call rt rt' = true /\
      client_conns_ rt' = client_conns_ rt) \/
     (marked_failed call rt rt' = false /\
      exists c, client_conns_ rt' !! call_conn_id call = Some c /\
                call ∈ outbound_calls_ (heap rt' c))).
Proof.
  destruct (client_conns_ rt !! call_conn_id call) as [c|] eqn:Hlook.
  - destruct (AssignOutboundCall_found env call rt c Hlook)
      as (rt' & es & Hrun & Hcl & _ & _ & Hheap & Heff & Hnf & _).
    exists rt'. split; [exact Hrun|]. right.
    split; [exact (marked_failed_no _ _ _ _ Heff Hnf)|].
    exists c. rewrite Hcl, Hheap, heap_set_eq. split; [exact Hlook|].
    simpl. apply elem_of_app. right. apply list_elem_of_singleton. reflexivity.
  - apply AssignOutboundCall_new, Hlook.
Qed.

(** X14. An outbound call handed to [Reactor::QueueOutboundCall] is never
    lost.  On a closing reactor nothing is enqueued and the task's
    [Abort] marks the call failed with the shutdown error
    (service-unavailable, "reactor is shutting down").  On a running
    reactor the task goes to the end of the pending queue and the loop
    is woken; when [AsyncHandler] runs it, it does what
    [AssignOutboundCall] does, after which the call is either marked
    failed or sits in the queue of the connection registered for its
    identity. *)
Theorem QueueOutboundCall_never_loses_the_call :
  forall (env : Env) (r : Reactor) (objs : TaskStore) (task : TaskPtr)
         (call : OutboundCall) (rt : ReactorThread),
    (closing_ r = true ->
     QueueOutboundCall r objs task call =
       (r, store_task objs task (AssignOutboundCallTask call),
        [Abort task ShutdownError]) /\
     perform_aborts (store_task objs task (AssignOutboundCallTask call))
                    [Abort task ShutdownError]
       = ([CallSetFailed call ShutdownError], [Deleted]) /\
     Status.IsServiceUnavailable ShutdownError = true /\
     Status.message ShutdownError = "reactor is shutting down") /\
    (closing_ r = false ->
     QueueOutboundCall r objs task call =
       ({| closing_ := false; pending_tasks_ := pending_tasks_ r ++ [task] |},
        store_task objs task (AssignOutboundCallTask call), [AsyncSend]) /\
     AsyncHandler (QueueOutboundCall r objs task call).1.1 rt =
       Ok ({| closing_ := false; pending_tasks_ := [] |},
           map Run (pending_tasks_ r) ++ [Run task]) rt /\
     exists rt',
       perform_runs env (store_task objs task (AssignOutboundCallTask call))
                    [Run task] rt = Ok [Deleted] rt' /\
       AssignOutboundCall env call rt = Ok tt rt' /\
       ((marked_failed call rt rt' = true /\
         client_conns_ rt' = client_conns_ rt) \/
        (marked_failed call rt rt' = false /\
         exists c, client_conns_ rt' !! call_conn_id call = Some c /\
                   call ∈ outbound_calls_ (heap rt' c)))).
Proof.
  intros env r objs task call rt. split.
  - intros Hcl. unfold QueueOutboundCall, ScheduleReactorTask. rewrite Hcl. simpl.
    rewrite store_task_eq. simpl. repeat split.
  - intros Hcl. unfold QueueOutboundCall, ScheduleReactorTask. rewrite Hcl. simpl.
    split; [reflexivity|]. split.
    { unfold AsyncHandler, closing, DrainTaskQueue. simpl.
      rewrite run_tasks_map, map_app. reflexivity. }
    destruct (AssignOutboundCall_outcome env call rt) as (rt' & Hrun & Hout).
    exists rt'. split; [|split; [exact Hrun|exact Hout]].
    rewrite store_task_eq. unfold bind, ret. simpl. unfold bind.
    rewrite Hrun. reflexivity.
Qed.

Lemma QueueOutboundCall_never_loses_the_call_witness :
  perform_aborts
    (QueueOutboundCall {| closing_ := true; pending_tasks_ := [] |}
                       sample_tasks 5%nat (sample_call 2 0)).1.2
    (QueueOutboundCall {| closing_ := true; pending_tasks_ := [] |}
                       sample_tasks 5%nat (sample_call 2 0)).2
  = ([CallSetFailed (sample_call 2 0) ShutdownError], [Deleted]) /\
  (QueueOutboundCall {| closing_ := false; pending_tasks_ := [3%nat] |}
                     sample_tasks 5%nat (sample_call 2 0)).1.1
  = {| closing_ := false; pending_tasks_ := [3%nat; 5%nat] |}.
Proof.
  destruct (QueueOutboundCall_never_loses_the_call
              sample_env {| closing_ := true; pending_tasks_ := [] |}
              sample_tasks 5%nat (sample_call 2 0) sample_thread)
    as (Hclosing & _).
  destruct (QueueOutboundCall_never_loses_the_call
              sample_env {| closing_ := false; pending_tasks_ := [3%nat] |}
              sample_tasks 5%nat (sample_call 2 0) sample_thread)
    as (_ & Hrunning).
  destruct (Hclosing eq_refl) as (Hq & Hab & _).
  destruct (Hrunning eq_refl) as (Hq' & _).
  rewrite Hq, Hq'. split; [exact Hab|reflexivity].
Defined.

Lemma perform_runs_one env objs t rt :
  perform_runs env objs [Run t] rt =
  match ReactorTask_Run env (objs t) rt with
  | Ok one rt' => Ok [one] rt'
  | CheckFailed msg => CheckFailed msg
  end.
Proof.
  cbn [perform_runs]. unfold bind, ret.
  destruct (ReactorTask_Run env (objs t) rt); reflexivity.
Qed.

Lemma RegisterConnection_submitted env rt conn :
  Status.ok (SubmitFutureTask env) = true ->
  exists rt',
    RegisterConnection env conn rt = Ok tt rt' /\
    server_conns_ rt' = server_conns_ rt ++ [conn] /\
    effects rt' =
      effects rt ++
      [SubmitNegotiation conn (direction_ (heap rt conn))
         (now_fine env + FLAGS_server_negotiation_timeout env * 1000000)] /\
    heap rt' = heap rt.
Proof.
  intros Hok. unfold RegisterConnection, bind.
  rewrite StartConnectionNegotiation_spec.
  unfold StartConnectionNegotiation_result. rewrite Hok. simpl.
  eexists. split; [reflexivity|]. repeat split.
Qed.

(** X15. An inbound socket handed to [Reactor::RegisterInboundSocket]
    becomes a new SERVER connection object.  On a closing reactor the
    task is aborted and the connection is dropped as it is: not shut
    down, and both tables are as they were.  On a running reactor the task is enqueued; when
    it is run and the negotiation executor accepts the task, the
    negotiation is submitted with the deadline now + the server
    negotiation timeout (in milliseconds) and the connection is appended
    to the end of [server_conns_]. *)
Theorem RegisterInboundSocket_outcome :
  forall (env : Env) (r : Reactor) (objs : TaskStore) (task : TaskPtr)
         (remote : Sockaddr) (rt : ReactorThread),
    exists rt1 r' acts,
      RegisterInboundSocket env r objs task remote rt =
        Ok (next_conn rt,
            (r', store_task objs task (RegisterConnectionTask (next_conn rt)), acts))
           rt1 /\
      (r', acts) = ScheduleReactorTask r task /\
      heap rt1 (next_conn rt) =
        ConnectionOps.new remote (sock_Release env) SERVER (now_coarse env) /\
      (forall q, q <> next_conn rt -> heap rt1 q = heap rt q) /\
      server_conns_ rt1 = server_conns_ rt /\
      client_conns_ rt1 = client_conns_ rt /\
      (closing_ r = true ->
       r' = r /\ acts = [Abort task ShutdownError] /\
       perform_aborts
         (store_task objs task (RegisterConnectionTask (next_conn rt))) acts
         = ([], [Deleted]) /\
       shutdown_status_ (heap rt1 (next_conn rt)) = None) /\
      (closing_ r = false ->
       pending_tasks_ r' = pending_tasks_ r ++ [task] /\ acts = [AsyncSend] /\
       (Status.ok (SubmitFutureTask env) = true ->
        exists rt2,
          perform_runs env
            (store_task objs task (RegisterConnectionTask (next_conn rt)))
            [Run task] rt1 = Ok [Deleted] rt2 /\
          server_conns_ rt2 = server_conns_ rt ++ [next_conn rt] /\
          effects rt2 =
            effects rt ++
            [SubmitNegotiation (next_conn rt) SERVER
               (now_fine env + FLAGS_server_negotiation_timeout env * 1000000)] /\
          shutdown_status_ (heap rt2 (next_conn rt)) = None)).
Proof.
  intros env r objs task remote rt.
  set (rt1 := with_next_conn (S (next_conn rt))
                (with_heap (heap_set (heap rt) (next_conn rt)
                   (ConnectionOps.new remote (sock_Release env) SERVER
                                      (now_coarse env))) rt)).
  exists rt1, (ScheduleReactorTask r task).1, (ScheduleReactorTask r task).2.
  split; [reflexivity|].
  split; [destruct (ScheduleReactorTask r task); reflexivity|].
  split; [apply heap_set_eq|].
  split; [intros q Hq; apply heap_set_ne, Hq|].
  split; [reflexivity|]. split; [reflexivity|].
  split.
  - intros Hcl. unfold ScheduleReactorTask. rewrite Hcl. simpl.
    rewrite store_task_eq, heap_set_eq. simpl. repeat split.
  - intros Hcl. unfold ScheduleReactorTask. rewrite Hcl.
    cbn [fst snd pending_tasks_].
    split; [reflexivity|]. split; [reflexivity|].
    intros Hok. rewrite perform_runs_one, store_task_eq.
    destruct (RegisterConnection_submitted env rt1 (next_conn rt) Hok)
      as (rt2 & Hrun & Hsrv & Heff & Hheap).
    exists rt2. cbn [ReactorTask_Run]. unfold bind, ret. rewrite Hrun.
    split; [reflexivity|]. split; [exact Hsrv|].
    rewrite Heff, Hheap. simpl. rewrite heap_set_eq. simpl.
    split; reflexivity.
Qed.

Lemma RegisterInboundSocket_outcome_witness :
  exists rt1,
    RegisterInboundSocket sample_env {| closing_ := true; pending_tasks_ := [] |}
      sample_tasks 6%nat (167772161%N, 40001%N) sample_thread
    = Ok (1%nat,
          ({| closing_ := true; pending_tasks_ := [] |},
           store_task sample_tasks 6%nat (RegisterConnectionTask 1%nat),
           [Abort 6%nat ShutdownError])) rt1 /\
    server_conns_ rt1 = [] /\
    shutdown_status_ (heap rt1 1%nat) = None.
Proof.
  destruct (RegisterInboundSocket_outcome
              sample_env {| closing_ := true; pending_tasks_ := [] |}
              sample_tasks 6%nat (167772161%N, 40001%N) sample_thread)
    as (rt1 & r' & acts & Hrun & _ & _ & _ & Hsrv & _ & Hclosing & _).
  destruct (Hclosing eq_refl) as (-> & -> & _ & Hst).
  exists rt1. split; [exact Hrun|]. split; [exact Hsrv|exact Hst].
Defined.

(** X16. [Reactor::GetMetrics] on a closing reactor returns the shutdown
    error and writes no metrics; on a running reactor the task, once
    run, reports the sizes of the two connection tables without
    changing the loop state, and the call returns OK. *)
Theorem GetMetrics_outcome :
  forall (env : Env) (r : Reactor) (objs : TaskStore) (task : TaskPtr)
         (rt : ReactorThread),
    (closing_ r = true ->
     GetMetrics_submit r objs task =
       (r, store_task objs task GetMetricsTask, [Abort task ShutdownError]) /\
     exists done,
       perform_aborts (store_task objs task GetMetricsTask)
                      [Abort task ShutdownError] = ([], [done]) /\
       GetMetrics_return done = (ShutdownError, None)) /\
    (closing_ r = false ->
     GetMetrics_submit r objs task =
       ({| closing_ := false; pending_tasks_ := pending_tasks_ r ++ [task] |},
        store_task objs task GetMetricsTask, [AsyncSend]) /\
     exists done,
       perform_runs env (store_task objs task GetMetricsTask) [Run task] rt
         = Ok [done] rt /\
       GetMetrics_return done =
         (Status.OK, Some (size (client_conns_ rt), length (server_conns_ rt)))).
Proof.
  intros env r objs task rt. split; intros Hcl;
    unfold GetMetrics_submit, ScheduleReactorTask; rewrite Hcl; simpl;
    (split; [reflexivity|]); rewrite store_task_eq; simpl.
  - eexists. split; reflexivity.
  - unfold GetMetricsInternal. unfold_m. simpl.
    eexists. split; reflexivity.
Qed.

Lemma GetMetrics_outcome_witness :
  exists done,
    perform_runs sample_env (store_task sample_tasks 9%nat GetMetricsTask)
                 [Run 9%nat] scan_thread = Ok [done] scan_thread /\
    GetMetrics_return done = (Status.OK, Some (1%nat, 3%nat)).
Proof.
  destruct (GetMetrics_outcome
              sample_env {| closing_ := false; pending_tasks_ := [] |}
              sample_tasks 9%nat scan_thread) as (_ & Hrunning).
  destruct (Hrunning eq_refl) as (_ & done & Hrun & Hret).
  exists done. split; [exact Hrun|exact Hret].
Defined.
